(** * Browser control plane: a shallow embedding and its properties

    Embedded sources:
    - [server-context.ts]: [state], [listTabs], [openTab], [isReachable],
      [ensureBrowserAvailable], [ensureTabAvailable], [focusTab],
      [closeTab], [stopRunningBrowser], [mapTabError];
    - [server.ts]: the module variable [state], [setRunning],
      [stopBrowserControlServer];
    - [pw-session.ts]: [ensurePageState], [observeContext],
      [observeBrowser], [connectBrowser], [getAllPages],
      [pageTargetId], [findPageByTargetId], [getPageForTargetId],
      [closePlaywrightBrowserConnection];
    - [routes/basic.ts] and [routes/tabs.ts]: the status, start, stop
      and tab routes;
    - [pw-tools-core.ts]: [consolePriority], the tracing, console and
      network tools;
    - [web-tools.ts]: [readCache], [writeCache].

    Strings are byte strings (UTF-8), numbers that the code uses as
    integers (ports, pids, milliseconds, HTTP statuses) are [Z]. *)

From Stdlib Require Import ZArith Lia Ascii String.
From stdpp Require Import gmap strings list fin_maps pretty.

Local Open Scope string_scope.
Local Open Scope Z_scope.
Local Open Scope list_scope.

(** ** JavaScript values the code relies on *)

(** A thrown value: [new Error(message)] has name ["Error"]; rejections
    coming from the outside world carry whatever name they have. *)
Record JsError := MkJsError { err_name : string; err_message : string }.

Definition Error (message : string) : JsError := MkJsError "Error" message.

(** [String(err)], that is [Error.prototype.toString]: the message
    alone when the name is empty, the name alone when the message is
    empty, and otherwise the two with [": "] between them. *)
Definition String_of_error (e : JsError) : string :=
  if bool_decide (err_name e = "") then err_message e
  else if bool_decide (err_message e = "") then err_name e
  else err_name e +:+ ": " +:+ err_message e.

(** [hay.includes(needle)] *)
Fixpoint includes (needle hay : string) : bool :=
  String.prefix needle hay ||
  match hay with
  | EmptyString => false
  | String _ rest => includes needle rest
  end.

(** [Boolean(s)] for a string: the empty string is falsy. *)
Definition truthy (s : string) : bool :=
  match s with EmptyString => false | _ => true end.

(** [Boolean(o)] for an optional string: [undefined] and [""] are falsy. *)
Definition truthy_opt (o : option string) : bool :=
  match o with Some s => truthy s | None => false end.

(** Template-literal rendering of an integer. *)
Definition render (z : Z) : string := pretty z.

(** ** [encodeURIComponent] on UTF-8 bytes *)

Definition hex_digit (n : N) : ascii :=
  match n with
  | 0%N => "0" | 1%N => "1" | 2%N => "2" | 3%N => "3" | 4%N => "4"
  | 5%N => "5" | 6%N => "6" | 7%N => "7" | 8%N => "8" | 9%N => "9"
  | 10%N => "A" | 11%N => "B" | 12%N => "C" | 13%N => "D" | 14%N => "E"
  | _ => "F"
  end%char.

Definition uri_unreserved (c : ascii) : bool :=
  let n := N_of_ascii c in
  ((65 <=? n) && (n <=? 90) || (97 <=? n) && (n <=? 122)
   || (48 <=? n) && (n <=? 57))%N
  || bool_decide (c ∈ ["-"; "_"; "."; "!"; "~"; "*"; "'"; "("; ")"]%char).

Fixpoint encodeURIComponent (s : string) : string :=
  match s with
  | EmptyString => EmptyString
  | String c rest =>
      if uri_unreserved c then String c (encodeURIComponent rest)
      else
        let n := N_of_ascii c in
        String "%" (String (hex_digit (n / 16)) (String (hex_digit (n mod 16))
          (encodeURIComponent rest)))
  end.

(** ** Data model of [server-context.ts] *)

Record BrowserTab := {
  targetId : string;
  title : string;
  url : string;
  wsUrl : option string;
  type : option string;
}.

(** ** [target-id.ts] *)

Module TargetId.

Inductive Reason := ambiguous | not_found | no_tabs.

Inductive TargetIdResolution :=
| Resolved (targetId : string)
| Unresolved (reason : Reason).

(** Modelled from the spec: [resolveTargetIdFromTabs] lives in
    [target-id.ts], which is not among the sources; only its callers
    are.  The clauses follow the Target Resolver contract: an
    empty identifier takes the first tab (or reports that there are no
    tabs); an exact id wins; otherwise the tabs whose id starts with
    the identifier are collected and exactly one of them is required. *)
Definition resolveTargetIdFromTabs (input : string) (tabs : list BrowserTab)
  : TargetIdResolution :=
  if truthy input then
    match List.find (λ t, bool_decide (targetId t = input)) tabs with
    | Some exact => Resolved (targetId exact)
    | None =>
        match List.filter (λ t, String.prefix input (targetId t)) tabs with
        | [] => Unresolved not_found
        | [only] => Resolved (targetId only)
        | _ :: _ :: _ => Unresolved ambiguous
        end
    end
  else
    match tabs with
    | first :: _ => Resolved (targetId first)
    | [] => Unresolved no_tabs
    end.

End TargetId.

(** ** [pw-session.ts] *)

Module PwSession.

(** Playwright objects are compared by identity only; each is a
    natural number naming the object. *)
Definition Page := nat.
Definition BrowserContext := nat.
Definition Request := nat.
Definition Browser := nat.

Record ConsoleLocation := {
  loc_url : option string;
  lineNumber : option Z;
  columnNumber : option Z;
}.

Record BrowserConsoleMessage := {
  cm_type : string;
  cm_text : string;
  cm_timestamp : string;
  cm_location : option ConsoleLocation;
}.

Record BrowserNetworkRequest := {
  nr_url : string;
  nr_method : string;
  nr_resourceType : option string;
  nr_status : option Z;
  nr_ok : option bool;
  nr_fromCache : option bool;
  nr_failureText : option string;
  nr_timestamp : string;
}.

(** What a [Response] object answers in the [requestfinished] listener. *)
Record ResponseInfo := {
  resp_status : Z;
  resp_ok : bool;
  resp_fromServiceWorker : bool;
}.

(** [PageState].  The entries of [network] are objects shared with
    [requestMap]: both hold references into the heap [entries] of the
    recorder, so an annotation made through [requestMap] shows in
    [network]. *)
Record PageState := {
  console : list BrowserConsoleMessage;
  network : list nat;
  requestMap : gmap Request nat;
}.

Definition MAX_CONSOLE_MESSAGES : nat := 500.
Definition MAX_NETWORK_REQUESTS : nat := 1000.

(** [Array.prototype.push] and [Array.prototype.shift] *)
Definition push {A} (l : list A) (x : A) : list A := l ++ [x].
Definition shift {A} (l : list A) : list A := tail l.

(** The module-level tables of the recorder, the two heaps they point
    into, and the listeners registered so far.  A page listener is the
    bundle of five closures that [ensurePageState] registers; all five
    capture the same [state] object, kept here as its heap index. *)
Record Recorder := {
  states : list PageState;
  entries : list BrowserNetworkRequest;
  pageStates : gmap Page nat;
  observedContexts : gset BrowserContext;
  observedPages : gset Page;
  pageListeners : list (Page * nat);
  contextListeners : list BrowserContext;
  awaitingResponse : list (nat * Request * nat);
}.

Definition empty_recorder : Recorder :=
  {| states := []; entries := []; pageStates := ∅; observedContexts := ∅;
     observedPages := ∅; pageListeners := []; contextListeners := [];
     awaitingResponse := [] |}.

Definition set_states (f : list PageState → list PageState) (r : Recorder)
  : Recorder :=
  {| states := f (states r); entries := entries r;
     pageStates := pageStates r; observedContexts := observedContexts r;
     observedPages := observedPages r; pageListeners := pageListeners r;
     contextListeners := contextListeners r;
     awaitingResponse := awaitingResponse r |}.

Definition set_entries (f : list BrowserNetworkRequest → list BrowserNetworkRequest)
  (r : Recorder) : Recorder :=
  {| states := states r; entries := f (entries r);
     pageStates := pageStates r; observedContexts := observedContexts r;
     observedPages := observedPages r; pageListeners := pageListeners r;
     contextListeners := contextListeners r;
     awaitingResponse := awaitingResponse r |}.

Definition set_awaiting (f : list (nat * Request * nat) → list (nat * Request * nat))
  (r : Recorder) : Recorder :=
  {| states := states r; entries := entries r;
     pageStates := pageStates r; observedContexts := observedContexts r;
     observedPages := observedPages r; pageListeners := pageListeners r;
     contextListeners := contextListeners r;
     awaitingResponse := f (awaitingResponse r) |}.

(** Update of the [PageState] object at heap index [sid]. *)
Definition with_state (sid : nat) (f : PageState → PageState) (r : Recorder)
  : Recorder :=
  set_states (alter f sid) r.

(** [ensurePageState(page)]: the state object's heap index, and the
    recorder after the call. *)
Definition ensurePageState (page : Page) (r : Recorder) : nat * Recorder :=
  match pageStates r !! page with
  | Some existing => (existing, r)
  | None =>
      let sid := length (states r) in
      let state := {| console := []; network := []; requestMap := ∅ |} in
      let observed := bool_decide (page ∈ observedPages r) in
      (sid,
       {| states := states r ++ [state];
          entries := entries r;
          pageStates := <[page := sid]> (pageStates r);
          observedContexts := observedContexts r;
          observedPages :=
            if observed then observedPages r else {[page]} ∪ observedPages r;
          pageListeners :=
            if observed then pageListeners r
            else pageListeners r ++ [(page, sid)];
          contextListeners := contextListeners r;
          awaitingResponse := awaitingResponse r |})
  end.

(** The [console] listener of the bundle bound to state [sid]. *)
Definition on_console (sid : nat) (entry : BrowserConsoleMessage)
  (r : Recorder) : Recorder :=
  with_state sid (λ state,
    let pushed := push (console state) entry in
    {| console :=
         if (MAX_CONSOLE_MESSAGES <? length pushed)%nat then shift pushed
         else pushed;
       network := network state;
       requestMap := requestMap state |}) r.

(** The [request] listener: a new entry object is allocated, pushed on
    [network] and indexed under the request. *)
Definition on_request (sid : nat) (req : Request)
  (entry : BrowserNetworkRequest) (r : Recorder) : Recorder :=
  let ref := length (entries r) in
  with_state sid (λ state,
    let pushed := push (network state) ref in
    {| console := console state;
       network :=
         if (MAX_NETWORK_REQUESTS <? length pushed)%nat then shift pushed
         else pushed;
       requestMap := <[req := ref]> (requestMap state) |})
    (set_entries (λ es, es ++ [entry]) r).

Definition delete_request (sid : nat) (req : Request) (r : Recorder)
  : Recorder :=
  with_state sid (λ state,
    {| console := console state; network := network state;
       requestMap := delete req (requestMap state) |}) r.

Definition lookup_request (sid : nat) (req : Request) (r : Recorder)
  : option nat :=
  state ← states r !! sid; requestMap state !! req.

(** The [requestfinished] listener up to its [await req.response()]:
    without an indexed entry it returns, otherwise it is suspended
    with the entry it found. *)
Definition on_requestfinished (sid : nat) (req : Request) (r : Recorder)
  : Recorder :=
  match lookup_request sid req r with
  | None => r
  | Some ref => set_awaiting (λ ws, ws ++ [(sid, req, ref)]) r
  end.

(** ... and from there on, with what [req.response().catch(() => null)]
    gave. *)
Definition on_response (sid : nat) (req : Request) (ref : nat)
  (response : option ResponseInfo) (r : Recorder) : Recorder :=
  let annotated :=
    match response with
    | Some resp =>
        set_entries (alter (λ entry,
          {| nr_url := nr_url entry; nr_method := nr_method entry;
             nr_resourceType := nr_resourceType entry;
             nr_status := Some (resp_status resp);
             nr_ok := Some (resp_ok resp);
             nr_fromCache := Some (resp_fromServiceWorker resp);
             nr_failureText := nr_failureText entry;
             nr_timestamp := nr_timestamp entry |}) ref) r
    | None => r
    end in
  delete_request sid req annotated.

(** The [requestfailed] listener; [errorText] is
    [req.failure()?.errorText]. *)
Definition on_requestfailed (sid : nat) (req : Request)
  (errorText : option string) (r : Recorder) : Recorder :=
  match lookup_request sid req r with
  | None => r
  | Some ref =>
      delete_request sid req
        (set_entries (alter (λ entry,
          {| nr_url := nr_url entry; nr_method := nr_method entry;
             nr_resourceType := nr_resourceType entry;
             nr_status := nr_status entry; nr_ok := nr_ok entry;
             nr_fromCache := nr_fromCache entry;
             nr_failureText := errorText;
             nr_timestamp := nr_timestamp entry |}) ref) r)
  end.

(** The [close] listener. *)
Definition on_close (page : Page) (r : Recorder) : Recorder :=
  {| states := states r; entries := entries r;
     pageStates := delete page (pageStates r);
     observedContexts := observedContexts r;
     observedPages := observedPages r ∖ {[page]};
     pageListeners := pageListeners r;
     contextListeners := contextListeners r;
     awaitingResponse := awaitingResponse r |}.

(** [observeContext(context)]; [pages] is [context.pages()]. *)
Definition observeContext (context : BrowserContext) (pages : list Page)
  (r : Recorder) : Recorder :=
  if bool_decide (context ∈ observedContexts r) then r
  else
    let r1 :=
      {| states := states r; entries := entries r;
         pageStates := pageStates r;
         observedContexts := {[context]} ∪ observedContexts r;
         observedPages := observedPages r;
         pageListeners := pageListeners r;
         contextListeners := contextListeners r;
         awaitingResponse := awaitingResponse r |} in
    let r2 := foldl (λ acc page, snd (ensurePageState page acc)) r1 pages in
    {| states := states r2; entries := entries r2;
       pageStates := pageStates r2;
       observedContexts := observedContexts r2;
       observedPages := observedPages r2;
       pageListeners := pageListeners r2;
       contextListeners := contextListeners r2 ++ [context];
       awaitingResponse := awaitingResponse r2 |}.

(** [observeBrowser(browser)]; [contexts] is [browser.contexts()], each
    with its [pages()]. *)
Definition observeBrowser (contexts : list (BrowserContext * list Page))
  (r : Recorder) : Recorder :=
  foldl (λ acc c, observeContext (fst c) (snd c) acc) r contexts.

(** What happens to the recorder: a page or a context emits an event,
    a suspended listener is resumed, one of the page operations touches
    a page, or a fresh connection has its browser observed. *)
Inductive RecorderEvent :=
| EvTouch (page : Page)
| EvConsole (page : Page) (entry : BrowserConsoleMessage)
| EvRequest (page : Page) (req : Request) (entry : BrowserNetworkRequest)
| EvRequestFinished (page : Page) (req : Request)
| EvResponse (k : nat) (response : option ResponseInfo)
| EvRequestFailed (page : Page) (req : Request) (errorText : option string)
| EvClose (page : Page)
| EvContextPage (context : BrowserContext) (page : Page)
| EvObserveBrowser (contexts : list (BrowserContext * list Page)).

(** Every listener bundle registered on [page] runs, in registration
    order. *)
Definition emit (page : Page) (handler : nat → Recorder → Recorder)
  (r : Recorder) : Recorder :=
  foldl (λ acc l, if bool_decide (fst l = page) then handler (snd l) acc else acc)
    r (pageListeners r).

Definition recorder_step (ev : RecorderEvent) (r : Recorder) : Recorder :=
  match ev with
  | EvTouch page => snd (ensurePageState page r)
  | EvConsole page entry => emit page (λ sid, on_console sid entry) r
  | EvRequest page req entry => emit page (λ sid, on_request sid req entry) r
  | EvRequestFinished page req =>
      emit page (λ sid, on_requestfinished sid req) r
  | EvResponse k response =>
      match awaitingResponse r !! k with
      | Some (sid, req, ref) =>
          on_response sid req ref response
            (set_awaiting (λ ws, take k ws ++ drop (S k) ws) r)
      | None => r
      end
  | EvRequestFailed page req errorText =>
      emit page (λ sid, on_requestfailed sid req errorText) r
  | EvClose page => emit page (λ _, on_close page) r
  | EvContextPage context page =>
      foldl (λ acc c,
               if bool_decide (c = context)
               then snd (ensurePageState page acc) else acc)
        r (contextListeners r)
  | EvObserveBrowser contexts => observeBrowser contexts r
  end.

Definition recorder_run (evs : list RecorderEvent) (r : Recorder) : Recorder :=
  foldl (λ acc ev, recorder_step ev acc) r evs.

(** The histories a caller reads for [page]: [ensurePageState(page)]
    and then the [console] and [network] arrays of the state it
    returns, the latter with its entries dereferenced. *)
Definition console_of (page : Page) (r : Recorder) : list BrowserConsoleMessage :=
  let '(sid, r') := ensurePageState page r in
  default [] (console <$> states r' !! sid).

Definition network_of (page : Page) (r : Recorder) : list BrowserNetworkRequest :=
  let '(sid, r') := ensurePageState page r in
  default []
    ((λ state, omap (λ ref, entries r' !! ref) (network state))
       <$> states r' !! sid).

(** *** The memoized connection *)

Record ConnectedBrowser := { browser : Browser; endpoint : string }.

(** Where the promise chain of one [connectOverCDP] call stands:
    [connectOverCDP(...)] not settled yet; fulfilled and the [then]
    callback has run; rejected (the [then] callback is skipped); the
    [finally] callback has run and the chain is settled with the
    result every awaiting caller receives. *)
Inductive AttemptStatus :=
| Pending
| ThenDone (connected : ConnectedBrowser)
| Failed (err : JsError)
| Settled (result : JsError + ConnectedBrowser).

Record Attempt := { att_endpoint : string; att_status : AttemptStatus }.

(** The module state of [pw-session.ts]: [cached], [connecting] (the
    index of the attempt whose promise it holds), every
    [connectOverCDP] call made so far, the [disconnected] listeners
    (each closure captures the browser it was registered on), the
    [browser.close()] calls made, and the recorder tables. *)
Record State := {
  cached : option ConnectedBrowser;
  connecting : option nat;
  attempts : list Attempt;
  disconnectedListeners : list Browser;
  closeCalls : list Browser;
  recorder : Recorder;
}.

Definition initial : State :=
  {| cached := None; connecting := None; attempts := [];
     disconnectedListeners := []; closeCalls := [];
     recorder := empty_recorder |}.

Definition set_cached (c : option ConnectedBrowser) (s : State) : State :=
  {| cached := c; connecting := connecting s; attempts := attempts s;
     disconnectedListeners := disconnectedListeners s;
     closeCalls := closeCalls s; recorder := recorder s |}.

Definition set_recorder (f : Recorder → Recorder) (s : State) : State :=
  {| cached := cached s; connecting := connecting s; attempts := attempts s;
     disconnectedListeners := disconnectedListeners s;
     closeCalls := closeCalls s; recorder := f (recorder s) |}.

Definition set_status (a : nat) (st : AttemptStatus) (s : State) : State :=
  {| cached := cached s; connecting := connecting s;
     attempts :=
       alter (λ att, {| att_endpoint := att_endpoint att; att_status := st |})
         a (attempts s);
     disconnectedListeners := disconnectedListeners s;
     closeCalls := closeCalls s; recorder := recorder s |}.

(** What a caller of [connectBrowser] gets when the synchronous part
    of the call is over: the cached record at once, or the promise of
    an attempt to await. *)
Inductive ConnectOutcome :=
| ReturnCached (c : ConnectedBrowser)
| AwaitAttempt (a : nat).

(** [cached?.endpoint === endpoint] *)
Definition cached_for (endpoint_ : string) (s : State) : option ConnectedBrowser :=
  match cached s with
  | Some c => if bool_decide (endpoint c = endpoint_) then Some c else None
  | None => None
  end.

(** [connectBrowser(endpoint)] up to its first suspension. *)
Definition connectBrowser (endpoint_ : string) (s : State)
  : ConnectOutcome * State :=
  match cached_for endpoint_ s with
  | Some c => (ReturnCached c, s)
  | None =>
      match connecting s with
      | Some a => (AwaitAttempt a, s)
      | None =>
          let a := length (attempts s) in
          (AwaitAttempt a,
           {| cached := cached s;
              connecting := Some a;
              attempts :=
                attempts s ++ [{| att_endpoint := endpoint_; att_status := Pending |}];
              disconnectedListeners := disconnectedListeners s;
              closeCalls := closeCalls s;
              recorder := recorder s |})
      end
  end.

(** The [then] callback of attempt [a], run with the browser that
    [connectOverCDP] produced. *)
Definition then_callback (a : nat) (endpoint_ : string) (b : Browser)
  (contexts : list (BrowserContext * list Page)) (s : State) : State :=
  let connected := {| browser := b; endpoint := endpoint_ |} in
  {| cached := Some connected;
     connecting := connecting s;
     attempts :=
       alter (λ att, {| att_endpoint := att_endpoint att;
                        att_status := ThenDone connected |}) a (attempts s);
     disconnectedListeners := disconnectedListeners s ++ [b];
     closeCalls := closeCalls s;
     recorder := recorder_step (EvObserveBrowser contexts) (recorder s) |}.

(** The [finally] callback: [connecting = null]. *)
Definition finally_callback (a : nat) (result : JsError + ConnectedBrowser)
  (s : State) : State :=
  {| cached := cached s;
     connecting := None;
     attempts :=
       alter (λ att, {| att_endpoint := att_endpoint att;
                        att_status := Settled result |}) a (attempts s);
     disconnectedListeners := disconnectedListeners s;
     closeCalls := closeCalls s;
     recorder := recorder s |}.

(** One [disconnected] listener, registered on [b]:
    [if (cached?.browser === browser) cached = null]. *)
Definition on_disconnected (b : Browser) (s : State) : State :=
  match cached s with
  | Some c => if bool_decide (browser c = b) then set_cached None s else s
  | None => s
  end.

(** [closePlaywrightBrowserConnection()]: the record is dropped before
    the browser is asked to close, and a failure of [close()] is
    swallowed. *)
Definition closePlaywrightBrowserConnection (s : State) : State :=
  match cached s with
  | None => set_cached None s
  | Some cur =>
      {| cached := None; connecting := connecting s; attempts := attempts s;
         disconnectedListeners := disconnectedListeners s;
         closeCalls := closeCalls s ++ [browser cur];
         recorder := recorder s |}
  end.

(** The event loop seen from this module: each label is one run to
    the next suspension point.  A label that cannot occur in the
    state (settling an attempt that is not pending, running [finally]
    before the attempt was fulfilled or rejected) has no successor. *)
Inductive Label :=
| LConnect (endpoint_ : string)
| LFulfil (a : nat) (b : Browser) (contexts : list (BrowserContext * list Page))
| LReject (a : nat) (err : JsError)
| LFinally (a : nat)
| LDisconnected (b : Browser)
| LClose
| LRecorder (ev : RecorderEvent).

Definition step (l : Label) (s : State) : option State :=
  match l with
  | LConnect endpoint_ => Some (snd (connectBrowser endpoint_ s))
  | LFulfil a b contexts =>
      match attempts s !! a with
      | Some {| att_endpoint := e; att_status := Pending |} =>
          Some (then_callback a e b contexts s)
      | _ => None
      end
  | LReject a err =>
      match attempts s !! a with
      | Some {| att_status := Pending |} => Some (set_status a (Failed err) s)
      | _ => None
      end
  | LFinally a =>
      match attempts s !! a with
      | Some {| att_status := ThenDone connected |} =>
          Some (finally_callback a (inr connected) s)
      | Some {| att_status := Failed err |} =>
          Some (finally_callback a (inl err) s)
      | _ => None
      end
  | LDisconnected b =>
      Some (foldl (λ acc b', if bool_decide (b' = b) then on_disconnected b' acc else acc)
              s (disconnectedListeners s))
  | LClose => Some (closePlaywrightBrowserConnection s)
  | LRecorder ev => Some (set_recorder (recorder_step ev) s)
  end.

Fixpoint run (ls : list Label) (s : State) : option State :=
  match ls with
  | [] => Some s
  | l :: rest => s' ← step l s; run rest s'
  end.

(** An attempt is in flight until its [finally] callback has run. *)
Definition in_flight (att : Attempt) : bool :=
  match att_status att with Settled _ => false | _ => true end.

(** The number of underlying connections asked for so far. *)
Definition connect_calls (s : State) : nat := length (attempts s).

(** The steps that can take the cached record [c] away: the
    [disconnected] event of its browser, a call of
    [closePlaywrightBrowserConnection], and the [then] callback of an
    attempt, which overwrites [cached]. *)
Definition takes_away (c : ConnectedBrowser) (l : Label) : bool :=
  match l with
  | LDisconnected b => bool_decide (b = browser c)
  | LClose => true
  | LFulfil _ _ _ => true
  | LConnect _ | LReject _ _ | LFinally _ | LRecorder _ => false
  end.

(** The steps of a list taken one after the other; a step that cannot
    occur in the state it comes to is not taken. *)
Definition run_enabled (ls : list Label) (s : State) : State :=
  foldl (λ acc l, default acc (step l acc)) s ls.

End PwSession.

(** ** [server-context.ts] and [server.ts] *)

Module ServerContext.

(** [ResolvedBrowserConfig] is declared in [config.ts] and
    [RunningChrome] in [chrome.ts]; the fields are those the sources
    read.  [proc] names the child-process object. *)
Record ResolvedBrowserConfig := {
  enabled : bool;
  controlUrl : string;
  controlPort : Z;
  resolved_cdpPort : Z;
  attachOnly : bool;
  headless : bool;
  color : string;
}.

Record RunningChrome := {
  pid : Z;
  exe_kind : string;
  exe_path : string;
  userDataDir : string;
  running_cdpPort : Z;
  startedAt : Z;
  proc : nat;
}.

Record BrowserServerState := {
  server : nat;
  port : Z;
  cdpPort : Z;
  running : option RunningChrome;
  resolved : ResolvedBrowserConfig;
}.

(** The element type of the [/json/list] answer and the answer of
    [/json/new]. *)
Record CdpTarget := {
  cdp_id : option string;
  cdp_title : option string;
  cdp_url : option string;
  webSocketDebuggerUrl : option string;
  cdp_type : option string;
}.

(** What [res.json()] can resolve to, as far as the code can tell the
    shapes apart: an array of targets, one target object, [null], or
    any other value (on which every property read is [undefined]). *)
Inductive Json :=
| JTargets (ts : list CdpTarget)
| JTarget (t : CdpTarget)
| JNull
| JOther.

Record Response := {
  ok : bool;
  status : Z;
  json : JsError + Json;
}.

(** *** The outside world *)

(** Every call that leaves the process, in the order made. *)
Inductive Call :=
| CallProbe (cdpPort_ timeoutMs : Z)
| CallLaunch (resolved_ : ResolvedBrowserConfig)
| CallStopChrome (running_ : RunningChrome)
| CallCreateTarget (cdpPort_ : Z) (url_ : string)
| CallFetch (url_ : string) (method : option string) (timeoutMs : Z)
| CallSleep (ms : Z)
| CallServerClose (server_ : nat).

(** The outside world answers a call as a function of everything
    asked so far (most recent call first, the call being answered
    included, each with the time it was made at), and says how long
    the answer took.  The answer to a probe is a boolean; a launch, a
    raw-protocol creation and a request may each fail. *)
Record Env := {
  isChromeReachable_result : list (Z * Call) → bool;
  launchClawdChrome_result : list (Z * Call) → JsError + RunningChrome;
  createTargetViaCdp_result : list (Z * Call) → JsError + string;
  fetch_result : list (Z * Call) → JsError + Response;
  elapsed : list (Z * Call) → N;
}.

(** The module variable [state] of [server.ts], the module state of
    [pw-session.ts], the clock, the calls made so far, and the [exit]
    listeners registered on child processes (each with the
    [launched.pid] its closure captured). *)
Record World := {
  server_state : option BrowserServerState;
  pw : PwSession.State;
  now : Z;
  calls : list (Z * Call);
  exitListeners : list (nat * Z);
}.

Inductive Outcome (A : Type) :=
| Return (a : A)
| Throw (e : JsError).
Arguments Return {A} a.
Arguments Throw {A} e.

(** An [async] function run without interleaving: it reads and writes
    the world and returns or throws.  Writes made before a throw
    persist. *)
Definition M (A : Type) : Type := World → Outcome A * World.

#[export] Instance M_ret : MRet M := λ A a w, (Return a, w).
#[export] Instance M_bind : MBind M := λ A B f m w,
  match m w with
  | (Return a, w') => f a w'
  | (Throw e, w') => (Throw e, w')
  end.

Definition throw {A} (e : JsError) : M A := λ w, (Throw e, w).

(** [m.catch(handler)] and [try { m } catch (e) { handler }] *)
Definition catch {A} (m : M A) (handler : JsError → M A) : M A := λ w,
  match m w with
  | (Return a, w') => (Return a, w')
  | (Throw e, w') => handler e w'
  end.

Definition set_server_state (st : option BrowserServerState) : M unit := λ w,
  (Return (),
   {| server_state := st; pw := pw w; now := now w; calls := calls w;
      exitListeners := exitListeners w |}).

Definition modify_pw (f : PwSession.State → PwSession.State) : M unit := λ w,
  (Return (),
   {| server_state := server_state w; pw := f (pw w); now := now w;
      calls := calls w; exitListeners := exitListeners w |}).

(** A call to the outside: it is recorded and the clock moves by the
    time the answer took ([extra] is a delay the call asks for
    itself). *)
Definition external (env : Env) (c : Call) (extra : Z)
  : M (list (Z * Call)) := λ w,
  let history := (now w, c) :: calls w in
  (Return history,
   {| server_state := server_state w; pw := pw w;
      now := now w + extra + Z.of_N (elapsed env history);
      calls := history; exitListeners := exitListeners w |}).

(** The world after a call to the outside. *)
Definition called (env : Env) (c : Call) (extra : Z) (w : World) : World :=
  snd (external env c extra w).

(** [Date.now()] *)
Definition Date_now : M Z := λ w, (Return (now w), w).

(** [await new Promise((r) => setTimeout(r, ms))]: a timer fires no
    earlier than asked. *)
Definition sleep (env : Env) (ms : Z) : M unit :=
  _ ← external env (CallSleep ms) ms; mret ().

(** *** [server.ts]: the options handed to [createBrowserRouteContext] *)

Definition getState : M (option BrowserServerState) := λ w,
  (Return (server_state w), w).

(** [if (state) state.running = running] *)
Definition setRunning (running_ : option RunningChrome) : M unit :=
  st ← getState;
  match st with
  | Some s =>
      set_server_state
        (Some {| server := server s; port := port s; cdpPort := cdpPort s;
                 running := running_; resolved := resolved s |})
  | None => mret ()
  end.

(** *** [server-context.ts] *)

Section WithEnv.

Variable env : Env.

(** Modelled from the spec: [isChromeReachable] lives in [chrome.ts],
    which is not among the sources.  It "performs a lightweight
    protocol probe with a bounded timeout; returns a boolean, never
    throws". *)
Definition isChromeReachable (cdpPort_ timeoutMs : Z) : M bool :=
  history ← external env (CallProbe cdpPort_ timeoutMs) 0;
  mret (isChromeReachable_result env history).

(** Modelled from the spec: [stopClawdChrome] lives in [chrome.ts],
    which is not among the sources.  It "terminates the process": the
    call is made and nothing comes back. *)
Definition stopClawdChrome (running_ : RunningChrome) : M unit :=
  _ ← external env (CallStopChrome running_) 0;
  mret ().

(** [launchClawdChrome] ([chrome.ts]) and [createTargetViaCdp]
    ([cdp.ts]) are not among the sources either: each is a call to the
    outside that gives what the outside gives, a value or a failure. *)
Definition launchClawdChrome (resolved_ : ResolvedBrowserConfig)
  : M RunningChrome :=
  history ← external env (CallLaunch resolved_) 0;
  match launchClawdChrome_result env history with
  | inl e => throw e
  | inr launched => mret launched
  end.

Definition createTargetViaCdp (cdpPort_ : Z) (url_ : string) : M string :=
  history ← external env (CallCreateTarget cdpPort_ url_) 0;
  match createTargetViaCdp_result env history with
  | inl e => throw e
  | inr targetId_ => mret targetId_
  end.

Definition fetch (url_ : string) (method : option string) (timeoutMs : Z)
  : M Response :=
  history ← external env (CallFetch url_ method timeoutMs) 0;
  match fetch_result env history with
  | inl e => throw e
  | inr res => mret res
  end.

Definition fetchJson (url_ : string) (timeoutMs : Z) (method : option string)
  : M Json :=
  res ← fetch url_ method timeoutMs;
  if negb (ok res) then throw (Error ("HTTP " +:+ render (status res)))
  else match json res with
       | inl e => throw e
       | inr j => mret j
       end.

Definition fetchOk (url_ : string) (timeoutMs : Z) (method : option string)
  : M unit :=
  res ← fetch url_ method timeoutMs;
  if negb (ok res) then throw (Error ("HTTP " +:+ render (status res)))
  else mret ().

Definition state : M BrowserServerState :=
  current ← getState;
  match current with
  | None => throw (Error "Browser server not started")
  | Some current => mret current
  end.

Definition base_url (current : BrowserServerState) : string :=
  "http://127.0.0.1:" +:+ render (cdpPort current).

Definition tab_of_target (t : CdpTarget) : BrowserTab :=
  {| targetId := default "" (cdp_id t);
     title := default "" (cdp_title t);
     url := default "" (cdp_url t);
     wsUrl := webSocketDebuggerUrl t;
     type := cdp_type t |}.

Definition listTabs : M (list BrowserTab) :=
  current ← state;
  raw ← fetchJson (base_url current +:+ "/json/list") 1500 None;
  match raw with
  | JTargets ts =>
      mret (List.filter (λ t, truthy (targetId t)) (map tab_of_target ts))
  | JNull =>
      throw (MkJsError "TypeError"
               "Cannot read properties of null (reading 'map')")
  | JTarget _ | JOther =>
      throw (MkJsError "TypeError" "raw.map is not a function")
  end.

(** The loop of [openTab] that looks for the created target.  Each
    round is one unit of [fuel]; [openTab] supplies one unit per
    millisecond left to the deadline, and a round takes a hundred
    (lemma [poll_fuel] shows the last branch is never taken). *)
Fixpoint poll (fuel : nat) (deadline : Z) (createdViaCdp : string)
  : M (option BrowserTab) :=
  t ← Date_now;
  if (t <? deadline)%Z then
    match fuel with
    | S fuel' =>
        tabs ← catch listTabs (λ _, mret []);
        match List.find (λ t, bool_decide (targetId t = createdViaCdp)) tabs with
        | Some found => mret (Some found)
        | None => _ ← sleep env 100; poll fuel' deadline createdViaCdp
        end
    | O => throw (MkJsError "OutOfFuel" "poll")
    end
  else mret None.

(** [openTab], the branch taken when the raw-protocol call gave an
    id: the listing is polled for it until the deadline. *)
Definition openTab_discover (createdViaCdp url_ : string) : M BrowserTab :=
  t ← Date_now;
  let deadline := t + 2000 in
  found ← poll (Z.to_nat (deadline - t)) deadline createdViaCdp;
  match found with
  | Some found => mret found
  | None =>
      mret {| targetId := createdViaCdp; title := ""; url := url_;
              wsUrl := None; type := Some "page" |}
  end.

(** The tab descriptor built from the answer of [/json/new]. *)
Definition created_tab (url_ : string) (created : CdpTarget) : BrowserTab :=
  {| targetId := default "" (cdp_id created);
     title := default "" (cdp_title created);
     url := default url_ (cdp_url created);
     wsUrl := webSocketDebuggerUrl created;
     type := cdp_type created |}.

Definition create_url (current : BrowserServerState) (url_ : string) : string :=
  base_url current +:+ "/json/new?" +:+ encodeURIComponent url_.

(** [openTab], the other branch: the [/json/new] endpoint. *)
Definition openTab_rest (current : BrowserServerState) (url_ : string)
  : M BrowserTab :=
  let endpoint_ := create_url current url_ in
  created ←
    catch (fetchJson endpoint_ 1500 (Some "PUT"))
      (λ err,
         if includes "HTTP 405" (String_of_error err)
         then fetchJson endpoint_ 1500 None
         else throw err);
  match created with
  | JTarget t =>
      if truthy_opt (cdp_id t) then mret (created_tab url_ t)
      else throw (Error "Failed to open tab (missing id)")
  | JTargets _ | JOther => throw (Error "Failed to open tab (missing id)")
  | JNull =>
      throw (MkJsError "TypeError"
               "Cannot read properties of null (reading 'id')")
  end.

Definition openTab (url_ : string) : M BrowserTab :=
  current ← state;
  createdViaCdp ←
    catch
      (targetId_ ← createTargetViaCdp (cdpPort current) url_;
       mret (Some targetId_))
      (λ _, mret None);
  if truthy_opt createdViaCdp
  then openTab_discover (default "" createdViaCdp) url_
  else openTab_rest current url_.

Definition isReachable (timeoutMs : option Z) : M bool :=
  current ← state;
  isChromeReachable (cdpPort current) (default 300 timeoutMs).

Definition register_exit_listener (launched : RunningChrome) : M unit := λ w,
  (Return (),
   {| server_state := server_state w; pw := pw w; now := now w;
      calls := calls w;
      exitListeners := exitListeners w ++ [(proc launched, pid launched)] |}).

Definition ensureBrowserAvailable : M unit :=
  current ← state;
  reachable_ ← isReachable None;
  if (reachable_ : bool) then mret ()
  else if attachOnly (resolved current) then
    throw (Error "Browser attachOnly is enabled and no browser is running.")
  else
    launched ← launchClawdChrome (resolved current);
    _ ← setRunning (Some launched);
    register_exit_listener launched.

(** The [exit] listener registered by [ensureBrowserAvailable];
    [launched_pid] is the [launched.pid] its closure holds. *)
Definition exit_listener (launched_pid : Z) : M unit :=
  live ← getState;
  match live with
  | Some {| running := Some r |} =>
      if bool_decide (pid r = launched_pid) then setRunning None else mret ()
  | _ => mret ()
  end.

(** The child-process object [p] emits [exit]: its listeners run in
    registration order. *)
Definition emit_exit (p : nat) : M unit := λ w,
  foldl (λ acc l,
           if bool_decide (fst l = p) then exit_listener (snd l) (snd acc)
           else acc)
    (Return (), w) (exitListeners w).

(** What the conditional expression bound to [chosen] evaluates to. *)
Inductive Chosen :=
| ChosenTab (t : BrowserTab)
| AMBIGUOUS
| ChosenNull.

Definition of_option (o : option BrowserTab) : Chosen :=
  match o with Some t => ChosenTab t | None => ChosenNull end.

Definition choose (targetId_ : option string) (tabs : list BrowserTab)
  : Chosen :=
  if truthy_opt targetId_ then
    match TargetId.resolveTargetIdFromTabs (default "" targetId_) tabs with
    | TargetId.Unresolved TargetId.ambiguous => AMBIGUOUS
    | TargetId.Unresolved _ => ChosenNull
    | TargetId.Resolved id =>
        of_option (List.find (λ t, bool_decide (targetId t = id)) tabs)
    end
  else of_option (head tabs).

(** The two checks that follow. *)
Definition check_chosen (chosen : Chosen) : JsError + BrowserTab :=
  match chosen with
  | AMBIGUOUS => inl (Error "ambiguous target id prefix")
  | ChosenNull => inl (Error "tab not found")
  | ChosenTab t =>
      if truthy_opt (wsUrl t) then inr t else inl (Error "tab not found")
  end.

Definition ensureTabAvailable (targetId_ : option string) : M BrowserTab :=
  _ ← ensureBrowserAvailable;
  tabs1 ← listTabs;
  _ ← (if bool_decide (length tabs1 = 0%nat)
       then _ ← openTab "about:blank"; mret ()
       else mret ());
  tabs ← listTabs;
  match check_chosen (choose targetId_ tabs) with
  | inl e => throw e
  | inr chosen => mret chosen
  end.

(** What [focusTab] and [closeTab] do with the answer of the
    resolver. *)
Definition resolve_or_throw (targetId_ : string) (tabs : list BrowserTab)
  : JsError + string :=
  match TargetId.resolveTargetIdFromTabs targetId_ tabs with
  | TargetId.Unresolved TargetId.ambiguous =>
      inl (Error "ambiguous target id prefix")
  | TargetId.Unresolved _ => inl (Error "tab not found")
  | TargetId.Resolved id => inr id
  end.

Definition focusTab (targetId_ : string) : M unit :=
  current ← state;
  tabs ← listTabs;
  match resolve_or_throw targetId_ tabs with
  | inl e => throw e
  | inr id => fetchOk (base_url current +:+ "/json/activate/" +:+ id) 1500 None
  end.

Definition closeTab (targetId_ : string) : M unit :=
  current ← state;
  tabs ← listTabs;
  match resolve_or_throw targetId_ tabs with
  | inl e => throw e
  | inr id => fetchOk (base_url current +:+ "/json/close/" +:+ id) 1500 None
  end.

Record StopResult := { stopped : bool }.

Definition stopRunningBrowser : M StopResult :=
  current ← state;
  match running current with
  | None => mret {| stopped := false |}
  | Some r =>
      _ ← stopClawdChrome r;
      _ ← setRunning None;
      mret {| stopped := true |}
  end.

(** While an [async] function is suspended at an [await], the event
    loop runs what else is due.  [meanwhile during]: the steps of
    [pw-session.ts] among that, in the order taken. *)
Definition meanwhile (during : list PwSession.Label) : M unit :=
  modify_pw (PwSession.run_enabled during).

(** [stopRunningBrowser] as the event loop runs it: [during] is what
    happens in [pw-session.ts] while the function is suspended at
    [await stopClawdChrome(current.running)], the [disconnected] event
    of the browser being stopped among it if Playwright delivers that
    event before the stop is over. *)
Definition stopRunningBrowser_during (during : list PwSession.Label)
  : M StopResult :=
  current ← state;
  match running current with
  | None => mret {| stopped := false |}
  | Some r =>
      _ ← stopClawdChrome r;
      _ ← meanwhile during;
      _ ← setRunning None;
      mret {| stopped := true |}
  end.

Definition mapTabError (err : JsError) : option (Z * string) :=
  let msg := String_of_error err in
  if includes "ambiguous target id prefix" msg
  then Some (409, "ambiguous target id prefix")
  else if includes "tab not found" msg
  then Some (404, "tab not found")
  else None.

(** [server.ts]: [stopBrowserControlServer]; the warning logged for
    a failed stop is not modelled. *)
Definition stopBrowserControlServer : M unit :=
  current ← getState;
  match current with
  | None => mret ()
  | Some current =>
      _ ← catch (_ ← stopRunningBrowser; mret ()) (λ _, mret ());
      _ ← external env (CallServerClose (server current)) 0;
      _ ← set_server_state None;
      modify_pw PwSession.closePlaywrightBrowserConnection
  end.

(** The [/stop] route of [routes/basic.ts]: the response body or the
    500 error. *)
Definition route_stop : M (bool * bool + Z * string) :=
  catch (result ← stopRunningBrowser; mret (inl (true, stopped result)))
    (λ err, mret (inr (500, String_of_error err))).

(** The same route with the event loop running [during] while the
    stop is awaited. *)
Definition route_stop_during (during : list PwSession.Label)
  : M (bool * bool + Z * string) :=
  catch (result ← stopRunningBrowser_during during;
         mret (inl (true, stopped result)))
    (λ err, mret (inr (500, String_of_error err))).

End WithEnv.

(** A server state with its process handle released. *)
Definition cleared (s : BrowserServerState) : BrowserServerState :=
  {| server := server s; port := port s; cdpPort := cdpPort s;
     running := None; resolved := resolved s |}.

(** The launches asked of the outside world so far. *)
Definition is_launch (c : Z * Call) : bool :=
  match snd c with CallLaunch _ => true | _ => false end.

Definition launches (w : World) : list (Z * Call) :=
  List.filter is_launch (calls w).

End ServerContext.

(** ** Invariants of the recorder *)

Module RecorderInv.
Import PwSession.

Definition within_caps (st : PageState) : Prop :=
  (length (console st) ≤ MAX_CONSOLE_MESSAGES)%nat ∧
  (length (network st) ≤ MAX_NETWORK_REQUESTS)%nat.

(** Every state object respects the caps and points at allocated
    entries; a page with a state is observed and has a listener bound
    to that state; no two listeners are bound to one state object. *)
Record wf (r : Recorder) : Prop := {
  wf_caps : Forall within_caps (states r);
  wf_refs :
    Forall (λ st, Forall (λ ref, (ref < length (entries r))%nat) (network st))
      (states r);
  wf_observed :
    ∀ page, page ∈ observedPages r → is_Some (pageStates r !! page);
  wf_listener :
    ∀ page sid, pageStates r !! page = Some sid → (page, sid) ∈ pageListeners r;
  wf_sids : NoDup (pageListeners r).*2;
  wf_bound :
    ∀ page sid, (page, sid) ∈ pageListeners r → (sid < length (states r))%nat;
}.

(** [push] followed by the conditional [shift], as both listeners do it. *)
Definition push_capped {A} (cap : nat) (l : list A) (x : A) : list A :=
  if (cap <? length (push l x))%nat then shift (push l x) else push l x.

(** What the [console] listener does to its state object, and the
    [request] listener with the entry it allocated at [ref]. *)
Definition console_update (entry : BrowserConsoleMessage) (st : PageState)
  : PageState :=
  {| console := push_capped MAX_CONSOLE_MESSAGES (console st) entry;
     network := network st; requestMap := requestMap st |}.

Definition network_update (req : Request) (ref : nat) (st : PageState)
  : PageState :=
  {| console := console st;
     network := push_capped MAX_NETWORK_REQUESTS (network st) ref;
     requestMap := <[req := ref]> (requestMap st) |}.

End RecorderInv.

(** ** Invariants of the memoized connection *)

Module ConnectionInv.
Import PwSession.

(** Every attempt still in flight is the one [connecting] holds, and
    while [connectOverCDP] has not answered an attempt, no record for
    its endpoint is cached. *)
Record inv (s : State) : Prop := {
  inv_in_flight :
    ∀ a att, attempts s !! a = Some att → in_flight att = true →
             connecting s = Some a;
  inv_connecting :
    ∀ a, connecting s = Some a →
         ∃ att, attempts s !! a = Some att ∧ in_flight att = true;
  inv_pending :
    ∀ a att, attempts s !! a = Some att → att_status att = Pending →
             cached_for (att_endpoint att) s = None;
}.

End ConnectionInv.

(** ** Concrete worlds *)

Module Scenarios.
Import ServerContext.

Definition demo_resolved (attach_only : bool) : ResolvedBrowserConfig :=
  {| enabled := true; controlUrl := "http://127.0.0.1:18791";
     controlPort := 18791; resolved_cdpPort := 18792;
     attachOnly := attach_only; headless := true; color := "#FF4500" |}.

Definition demo_chrome (pid_ : Z) (proc_ : nat) : RunningChrome :=
  {| pid := pid_; exe_kind := "chrome"; exe_path := "/fake/chrome";
     userDataDir := "/tmp/clawd"; running_cdpPort := 18792;
     startedAt := 0; proc := proc_ |}.

Definition demo_state (attach_only : bool) (running_ : option RunningChrome)
  : BrowserServerState :=
  {| server := 0%nat; port := 18791; cdpPort := 18792; running := running_;
     resolved := demo_resolved attach_only |}.

Definition world_of (st : option BrowserServerState) (pw_ : PwSession.State)
  : World :=
  {| server_state := st; pw := pw_; now := 0; calls := [];
     exitListeners := [] |}.

Definition demo_target (id : string) (ws : option string) : CdpTarget :=
  {| cdp_id := Some id; cdp_title := Some "Tab";
     cdp_url := Some "https://example.com";
     webSocketDebuggerUrl := ws; cdp_type := Some "page" |}.

Definition ws_of (id : string) : option string :=
  Some ("ws://127.0.0.1/devtools/page/" +:+ id).

Definition answer (j : Json) : JsError + Response :=
  inr {| ok := true; status := 200; json := inr j |}.

Definition count_launches (history : list (Z * Call)) : nat :=
  length (List.filter is_launch history).

(** A browser in the manner of the test-suite's stubs: it is reachable
    or not as [up] says, [/json/list] answers [listing], the
    raw-protocol creation answers [created], the first kind of request
    to [/json/new] ([PUT]) is refused with 405, a [GET] there creates
    ["newtab1"], and the n-th launch yields pid [100 + n] on a process
    object of its own.  No answer takes any time. *)
Definition demo_env (up : bool) (listing : list CdpTarget)
  (created : JsError + string) : Env :=
  {| isChromeReachable_result := λ _, up;
     launchClawdChrome_result := λ history,
       inr (demo_chrome (100 + Z.of_nat (count_launches history))
              (count_launches history));
     createTargetViaCdp_result := λ _, created;
     fetch_result := λ history,
       match history with
       | (_, CallFetch url_ method _) :: _ =>
           if includes "/json/list" url_ then answer (JTargets listing)
           else if includes "/json/new?" url_ then
             match method with
             | Some _ => inr {| ok := false; status := 405; json := inr JOther |}
             | None => answer (JTarget (demo_target "newtab1" (ws_of "newtab1")))
             end
           else answer JOther
       | _ => inl (Error "no request")
       end;
     elapsed := λ _, 0%N |}.

Definition demo_tab (id : string) (ws : option string) : BrowserTab :=
  {| targetId := id; title := "Tab"; url := "https://example.com";
     wsUrl := ws; type := Some "page" |}.

Definition demo_connected : PwSession.ConnectedBrowser :=
  {| PwSession.browser := 7%nat; PwSession.endpoint := "http://127.0.0.1:18792" |}.

Definition demo_endpoint : string := "http://127.0.0.1:18792".

(** The module state of [pw-session.ts] once [connectBrowser] has
    connected to browser 7, which shows no context, and the promise
    chain has settled: the record is cached, the attempt is settled
    with it, and the browser has its [disconnected] listener. *)
Definition demo_pw : PwSession.State :=
  {| PwSession.cached := Some demo_connected;
     PwSession.connecting := None;
     PwSession.attempts :=
       [{| PwSession.att_endpoint := demo_endpoint;
           PwSession.att_status := PwSession.Settled (inr demo_connected) |}];
     PwSession.disconnectedListeners := [7%nat];
     PwSession.closeCalls := [];
     PwSession.recorder := PwSession.empty_recorder |}.

Definition cdp_disabled : JsError + string := inl (Error "cdp disabled").

(** A started control plane with nothing tracked and nothing cached. *)
Definition idle_world (attach_only : bool) : World :=
  world_of (Some (demo_state attach_only None)) PwSession.initial.

(** A browser that is up and lists no tab, however often it is asked,
    and whose raw-protocol creation is disabled. *)
Definition tabless_env : Env := demo_env true [] cdp_disabled.

(** A browser that is up and lists one tab without a channel address
    (as for a target that a debugger is attached to). *)
Definition attached_env : Env :=
  demo_env true [demo_target "abcd1234" None] cdp_disabled.

(** A browser that is down: every probe fails and every launch gives a
    new process. *)
Definition down_env : Env := demo_env false [] cdp_disabled.

(** A tracked browser and a cached connection: the control plane has
    found no browser and launched one (pid 101, with its [exit]
    listener), and [connectBrowser] has connected to it since. *)
Definition running_world : World :=
  let launched := snd (ensureBrowserAvailable down_env (idle_world false)) in
  {| server_state := server_state launched; pw := demo_pw;
     now := now launched; calls := calls launched;
     exitListeners := exitListeners launched |}.

(** Launch, stop, launch again: the world in which the first process
    is superseded and its [exit] event is still to come. *)
Definition relaunched_world : World :=
  snd (ensureBrowserAvailable down_env
         (snd (stopRunningBrowser down_env
                 (snd (ensureBrowserAvailable down_env (idle_world false)))))).

(** A browser whose raw-protocol creation answers an id that the
    listing never shows. *)
Definition unlisted_env : Env := demo_env true [] (inr "abcd1234").

Definition demo_message : PwSession.BrowserConsoleMessage :=
  {| PwSession.cm_type := "log"; PwSession.cm_text := "hello";
     PwSession.cm_timestamp := "2026-01-01T00:00:00.000Z";
     PwSession.cm_location := None |}.

End Scenarios.

(** ** What a run of [openTab] may leave in the record of calls *)

Module OpenTabTrace.
Import ServerContext.

(** The answer of [fetchJson] to what the outside world answered. *)
Definition json_outcome (answered : JsError + Response) : Outcome Json :=
  match answered with
  | inl e => Throw e
  | inr res =>
      if ok res then
        match json res with
        | inl e => Throw e
        | inr j => Return j
        end
      else Throw (Error ("HTTP " +:+ render (status res)))
  end.

Definition listing_url (s : BrowserServerState) : string :=
  base_url s +:+ "/json/list".

(** The minimal tab [openTab] answers with when the listing never
    showed the created target. *)
Definition stub (id url_ : string) : BrowserTab :=
  {| targetId := id; title := ""; url := url_; wsUrl := None;
     type := Some "page" |}.

Definition is_poll (c : Z * Call) : bool :=
  match snd c with CallFetch _ _ _ => true | _ => false end.

(** The calls of the polling loop in the order made, from the time
    the loop is entered to the time it is left: rounds of one listing
    request, made before the deadline, and one sleep of 100ms, after
    which the next round starts no earlier than 100ms later; the loop
    is left after a listing request (the tab was found) or after a
    sleep. *)
Inductive poll_trace (listing_url : string) (deadline : Z)
  : Z → list (Z * Call) → Z → Prop :=
| poll_done t : poll_trace listing_url deadline t [] t
| poll_found t t' :
    (t < deadline)%Z → (t ≤ t')%Z →
    poll_trace listing_url deadline t
      [(t, CallFetch listing_url None 1500)] t'
| poll_round t t1 t2 rest t' :
    (t < deadline)%Z → (t ≤ t1)%Z → (t1 + 100 ≤ t2)%Z →
    poll_trace listing_url deadline t2 rest t' →
    poll_trace listing_url deadline t
      ((t, CallFetch listing_url None 1500) :: (t1, CallSleep 100) :: rest) t'.

(** What a round of the polling loop has to look through: the
    listing, or nothing when the listing failed
    ([listTabs().catch(() => [])]). *)
Definition listing_seen (r : Outcome (list BrowserTab)) : list BrowserTab :=
  match r with Return tabs => tabs | Throw _ => [] end.

(** The polling loop from the world it is entered in to the world it
    is left in, with what it found.  It is left at once when the
    deadline has passed; otherwise the tabs are listed, the first tab
    listed with the id looked for ends the loop, and without such a
    tab the loop sleeps 100ms and goes round again. *)
Inductive polled (env : Env) (s : BrowserServerState) (deadline : Z)
  (id : string) : World → option BrowserTab → World → Prop :=
| polled_late w :
    (deadline ≤ now w)%Z → polled env s deadline id w None w
| polled_found w found :
    (now w < deadline)%Z →
    List.find (λ t, bool_decide (targetId t = id))
      (listing_seen (fst (listTabs env w))) = Some found →
    polled env s deadline id w (Some found)
      (called env (CallFetch (listing_url s) None 1500) 0 w)
| polled_round w r w' :
    (now w < deadline)%Z →
    List.find (λ t, bool_decide (targetId t = id))
      (listing_seen (fst (listTabs env w))) = None →
    polled env s deadline id
      (called env (CallSleep 100) 100
         (called env (CallFetch (listing_url s) None 1500) 0 w)) r w' →
    polled env s deadline id w r w'.

(** What the [/json/new] branch makes of an accepted answer. *)
Definition created_result (url_ : string) (j : Json) : Outcome BrowserTab :=
  match j with
  | JTarget t =>
      if truthy_opt (cdp_id t) then Return (created_tab url_ t)
      else Throw (Error "Failed to open tab (missing id)")
  | JTargets _ | JOther => Throw (Error "Failed to open tab (missing id)")
  | JNull =>
      Throw (MkJsError "TypeError"
               "Cannot read properties of null (reading 'id')")
  end.

End OpenTabTrace.

(** ** What the listeners of a request leave behind *)

Module RecorderViews.
Import PwSession.

(** [entry.failureText = req.failure()?.errorText] *)
Definition with_failure (errorText : option string)
  (entry : BrowserNetworkRequest) : BrowserNetworkRequest :=
  {| nr_url := nr_url entry; nr_method := nr_method entry;
     nr_resourceType := nr_resourceType entry;
     nr_status := nr_status entry; nr_ok := nr_ok entry;
     nr_fromCache := nr_fromCache entry;
     nr_failureText := errorText;
     nr_timestamp := nr_timestamp entry |}.

(** The three assignments made from the response. *)
Definition with_response (resp : ResponseInfo)
  (entry : BrowserNetworkRequest) : BrowserNetworkRequest :=
  {| nr_url := nr_url entry; nr_method := nr_method entry;
     nr_resourceType := nr_resourceType entry;
     nr_status := Some (resp_status resp);
     nr_ok := Some (resp_ok resp);
     nr_fromCache := Some (resp_fromServiceWorker resp);
     nr_failureText := nr_failureText entry;
     nr_timestamp := nr_timestamp entry |}.

(** [state.requestMap.delete(req)] *)
Definition without_request (req : Request) (st : PageState) : PageState :=
  {| console := console st; network := network st;
     requestMap := delete req (requestMap st) |}.

End RecorderViews.

(** ** What a tab operation may leave behind *)

Module ContextFrame.
Import ServerContext.

(** The calls that neither start nor stop anything. *)
Definition harmless (c : Call) : bool :=
  match c with
  | CallLaunch _ | CallStopChrome _ | CallServerClose _ => false
  | _ => true
  end.

(** From [w] to [w']: the server state, the connection module and the
    [exit] listeners are what they were, the clock has not gone back,
    and the calls made in between are harmless. *)
Record frame (w w' : World) : Prop := {
  frame_state : server_state w' = server_state w;
  frame_pw : pw w' = pw w;
  frame_listeners : exitListeners w' = exitListeners w;
  frame_now : (now w ≤ now w')%Z;
  frame_calls :
    ∃ later, calls w' = later ++ calls w ∧
             Forall (λ c, harmless c.2 = true) later;
}.

Definition framed {A} (m : M A) : Prop := ∀ w, frame w (m w).2.

End ContextFrame.

(** ** [routes/basic.ts] and [routes/tabs.ts] *)

Module Routes.
Import ServerContext.

(** What a handler sends: [res.json(body)], with status 200, or
    [jsonError(res, status, message)]. *)
Inductive Reply (A : Type) :=
| Json (body : A)
| JsonError (status_ : Z) (message : string).
Arguments Json {A} body.
Arguments JsonError {A} status_ message.

(** The status line of a reply. *)
Definition status_of {A} (reply : Reply A) : Z :=
  match reply with Json _ => 200 | JsonError status_ _ => status_ end.

(** The body of [GET /]. *)
Record StatusBody := {
  st_enabled : bool;
  st_controlUrl : string;
  st_running : bool;
  st_pid : option Z;
  st_cdpPort : Z;
  st_chosenBrowser : option string;
  st_userDataDir : option string;
  st_color : string;
  st_headless : bool;
  st_attachOnly : bool;
}.

(** The body of [GET /tabs]. *)
Record TabsBody := { tabs_running : bool; tabs_listed : list BrowserTab }.

(** The body [{ ok: true }]. *)
Inductive Ok := OkTrue.

Section WithEnv.

Variable env : Env.

(** [GET /] *)
Definition get_status : M (Reply StatusBody) :=
  current ← catch (current ← state; mret (Some current)) (λ _, mret None);
  match current with
  | None => mret (JsonError 503 "browser server not started")
  | Some current =>
      reachable ← isReachable env (Some 300);
      mret (Json {| st_enabled := enabled (resolved current);
                    st_controlUrl := controlUrl (resolved current);
                    st_running := reachable;
                    st_pid := pid <$> running current;
                    st_cdpPort := cdpPort current;
                    st_chosenBrowser := exe_kind <$> running current;
                    st_userDataDir := userDataDir <$> running current;
                    st_color := color (resolved current);
                    st_headless := headless (resolved current);
                    st_attachOnly := attachOnly (resolved current) |})
  end.

(** [POST /start] *)
Definition post_start : M (Reply Ok) :=
  catch (_ ← ensureBrowserAvailable env; mret (Json OkTrue))
    (λ err, mret (JsonError 500 (String_of_error err))).

(** [GET /tabs] *)
Definition get_tabs : M (Reply TabsBody) :=
  catch
    (reachable ← isReachable env (Some 300);
     if negb reachable
     then mret (Json {| tabs_running := false; tabs_listed := [] |})
     else
       tabs ← listTabs env;
       mret (Json {| tabs_running := true; tabs_listed := tabs |}))
    (λ err, mret (JsonError 500 (String_of_error err))).

(** [POST /tabs/open]; [url_] is what [toStringOrEmpty] made of the
    [url] of the body. *)
Definition post_tabs_open (url_ : string) : M (Reply BrowserTab) :=
  if negb (truthy url_) then mret (JsonError 400 "url is required")
  else
    catch
      (_ ← ensureBrowserAvailable env;
       tab ← openTab env url_;
       mret (Json tab))
      (λ err, mret (JsonError 500 (String_of_error err))).

(** The [catch] clause of the routes that resolve a tab. *)
Definition tab_error {A} (err : JsError) : Reply A :=
  match mapTabError err with
  | Some (status_, message) => JsonError status_ message
  | None => JsonError 500 (String_of_error err)
  end.

(** [POST /tabs/focus]; [targetId_] is what [toStringOrEmpty] made of
    the [targetId] of the body. *)
Definition post_tabs_focus (targetId_ : string) : M (Reply Ok) :=
  if negb (truthy targetId_) then mret (JsonError 400 "targetId is required")
  else
    catch
      (reachable ← isReachable env (Some 300);
       if negb reachable then mret (JsonError 409 "browser not running")
       else
         _ ← focusTab env targetId_;
         mret (Json OkTrue))
      (λ err, mret (tab_error err)).

(** [DELETE /tabs/:targetId]; [targetId_] is what [toStringOrEmpty]
    made of the path parameter. *)
Definition delete_tab (targetId_ : string) : M (Reply Ok) :=
  if negb (truthy targetId_) then mret (JsonError 400 "targetId is required")
  else
    catch
      (reachable ← isReachable env (Some 300);
       if negb reachable then mret (JsonError 409 "browser not running")
       else
         _ ← closeTab env targetId_;
         mret (Json OkTrue))
      (λ err, mret (tab_error err)).

End WithEnv.

(** The reply to a target that the resolver could not settle. *)
Definition unresolved_reply (reason : TargetId.Reason) : Reply Ok :=
  match reason with
  | TargetId.ambiguous => JsonError 409 "ambiguous target id prefix"
  | _ => JsonError 404 "tab not found"
  end.

End Routes.

(** ** [String.prototype.trim] on UTF-8 bytes *)

Module JsString.

Definition bytes (l : list N) : string :=
  foldr (λ n acc, String (ascii_of_N n) acc) EmptyString l.

(** The code points of WhiteSpace and LineTerminator: TAB, LF, VT, FF,
    CR, SP, U+00A0, U+1680, U+2000 to U+200A, U+2028, U+2029, U+202F,
    U+205F, U+3000 and U+FEFF. *)
Definition white_space : list string :=
  bytes <$>
    [[9]; [10]; [11]; [12]; [13]; [32]; [194; 160]; [225; 154; 128];
     [226; 128; 128]; [226; 128; 129]; [226; 128; 130]; [226; 128; 131];
     [226; 128; 132]; [226; 128; 133]; [226; 128; 134]; [226; 128; 135];
     [226; 128; 136]; [226; 128; 137]; [226; 128; 138]; [226; 128; 168];
     [226; 128; 169]; [226; 128; 175]; [226; 129; 159]; [227; 128; 128];
     [239; 187; 191]]%N.

(** [s] without its prefix [p], if it starts with it. *)
Fixpoint strip_prefix (p s : string) : option string :=
  match p, s with
  | EmptyString, _ => Some s
  | String a p', String b s' =>
      if bool_decide (a = b) then strip_prefix p' s' else None
  | String _ _, EmptyString => None
  end.

Definition strip_one (ws : list string) (s : string) : option string :=
  head (omap (λ p, strip_prefix p s) ws).

(** Stripping while there is something to strip; every round takes at
    least one byte, so the length of the string is fuel enough. *)
Fixpoint strip_all (ws : list string) (fuel : nat) (s : string) : string :=
  match fuel with
  | O => s
  | S fuel' =>
      match strip_one ws s with
      | Some rest => strip_all ws fuel' rest
      | None => s
      end
  end.

Definition trimStart (s : string) : string :=
  strip_all white_space (String.length s) s.

Definition trimEnd (s : string) : string :=
  String.rev
    (strip_all (String.rev <$> white_space) (String.length s) (String.rev s)).

Definition trim (s : string) : string := trimEnd (trimStart s).

End JsString.

(** ** [pw-session.ts]: the page of a target *)

Module PageLookup.
Import PwSession ServerContext JsString.

(** What is asked of Playwright and of the file system, in the order
    asked: [chromium.connectOverCDP], [browser.contexts()] with the
    [pages()] of each context, [newCDPSession], the session's
    [send("Target.getTargetInfo")] and [detach()], and, for
    [pw-tools-core.ts], [tracing.start], [tracing.stop], the making of
    a trace file path, [fs.readFile] and [fs.rm]. *)
Inductive PwCall :=
| PwConnect (endpoint_ : string)
| PwContexts (b : Browser)
| PwNewSession (page : Page)
| PwSend (cdp : nat)
| PwDetach (cdp : nat)
| PwTracingStart (context : BrowserContext)
| PwTracePath
| PwTracingStop (context : BrowserContext) (path : string)
| PwReadFile (path : string)
| PwRm (path : string).

(** The answers, each a function of everything asked so far (most
    recent call first, the call being answered included).  A page
    belongs to one context for good. *)
Record PwEnv := {
  connectOverCDP_result : list PwCall → JsError + Browser;
  contexts_result : list PwCall → list (BrowserContext * list Page);
  newCDPSession_result : list PwCall → JsError + nat;
  send_result : list PwCall → JsError + option string;
  context_of : Page → BrowserContext;
  tracing_start_result : list PwCall → option JsError;
  trace_path_result : list PwCall → string;
  tracing_stop_result : list PwCall → option JsError;
  readFile_result : list PwCall → JsError + string;
}.

(** The module state of [pw-session.ts], the [tracingContexts] of
    [pw-tools-core.ts], and the calls made so far. *)
Record PwWorld := {
  session : State;
  tracingContexts : gset BrowserContext;
  asked : list PwCall;
}.

(** An [async] function of these modules run without interleaving. *)
Definition P (A : Type) : Type := PwWorld → Outcome A * PwWorld.

#[export] Instance P_ret : MRet P := λ A a w, (Return a, w).
#[export] Instance P_bind : MBind P := λ A B f m w,
  match m w with
  | (Return a, w') => f a w'
  | (Throw e, w') => (Throw e, w')
  end.

Definition fail {A} (e : JsError) : P A := λ w, (Throw e, w).

(** [m.catch(handler)] *)
Definition rescue {A} (m : P A) (handler : JsError → P A) : P A := λ w,
  match m w with
  | (Return a, w') => (Return a, w')
  | (Throw e, w') => handler e w'
  end.

(** [try { body } finally { finalizer }] *)
Definition try_finally {A} (body : P A) (finalizer : P unit) : P A := λ w,
  match body w with
  | (r, w1) =>
      match finalizer w1 with
      | (Return _, w2) => (r, w2)
      | (Throw e, w2) => (Throw e, w2)
      end
  end.

Definition ask (c : PwCall) : P (list PwCall) := λ w,
  (Return (c :: asked w),
   {| session := session w; tracingContexts := tracingContexts w;
      asked := c :: asked w |}).

Definition get_session : P State := λ w, (Return (session w), w).

Definition set_session (s : State) : P unit := λ w,
  (Return (),
   {| session := s; tracingContexts := tracingContexts w; asked := asked w |}).

Definition get_tracing : P (gset BrowserContext) := λ w,
  (Return (tracingContexts w), w).

Definition set_tracing (t : gset BrowserContext) : P unit := λ w,
  (Return (),
   {| session := session w; tracingContexts := t; asked := asked w |}).

Definition endpointForCdpPort (cdpPort_ : Z) : string :=
  "http://127.0.0.1:" +:+ render cdpPort_.

Section WithEnv.

Variable env : PwEnv.

(** [await] on the promise of attempt [a] with nothing else running in
    between: the callbacks of the chain that have not run yet run now,
    on what [connectOverCDP] answers. *)
Definition await_attempt (a : nat) : P ConnectedBrowser :=
  s ← get_session;
  match attempts s !! a with
  | Some {| att_endpoint := e; att_status := Pending |} =>
      w ← (λ w, (Return w, w));
      match connectOverCDP_result env (asked w) with
      | inr b =>
          history ← ask (PwContexts b);
          let connected := {| browser := b; endpoint := e |} in
          _ ← set_session
                (finally_callback a (inr connected)
                   (then_callback a e b (contexts_result env history) s));
          mret connected
      | inl err =>
          _ ← set_session
                (finally_callback a (inl err) (set_status a (Failed err) s));
          fail err
      end
  | Some {| att_status := ThenDone connected |} =>
      _ ← set_session (finally_callback a (inr connected) s);
      mret connected
  | Some {| att_status := Failed err |} =>
      _ ← set_session (finally_callback a (inl err) s);
      fail err
  | Some {| att_status := Settled (inr connected) |} => mret connected
  | Some {| att_status := Settled (inl err) |} => fail err
  | None => fail (MkJsError "TypeError" "no such promise")
  end.

(** [await connectBrowser(endpoint)]; [connectOverCDP] is called when
    nothing was cached for the endpoint and no attempt was in flight. *)
Definition connectBrowser_await (endpoint_ : string) : P ConnectedBrowser :=
  s ← get_session;
  match PwSession.connectBrowser endpoint_ s with
  | (ReturnCached c, _) => mret c
  | (AwaitAttempt a, s1) =>
      _ ← set_session s1;
      _ ← (match connecting s with
           | Some _ => mret []
           | None => ask (PwConnect endpoint_)
           end);
      await_attempt a
  end.

Definition getAllPages (b : Browser) : P (list Page) :=
  history ← ask (PwContexts b);
  mret (concat (snd <$> contexts_result env history)).

Definition newCDPSession (page : Page) : P nat :=
  history ← ask (PwNewSession page);
  match newCDPSession_result env history with
  | inl e => fail e
  | inr cdp => mret cdp
  end.

(** [info?.targetInfo?.targetId] of the answer to
    ["Target.getTargetInfo"]. *)
Definition getTargetInfo (cdp : nat) : P (option string) :=
  history ← ask (PwSend cdp);
  match send_result env history with
  | inl e => fail e
  | inr info => mret info
  end.

(** [session.detach().catch(() => {})] *)
Definition detach (cdp : nat) : P unit :=
  _ ← ask (PwDetach cdp); mret ().

Definition pageTargetId (page : Page) : P (option string) :=
  cdp ← newCDPSession page;
  try_finally
    (info ← getTargetInfo cdp;
     let targetId_ := trim (default "" info) in
     mret (if truthy targetId_ then Some targetId_ else None))
    (detach cdp).

(** [tid && tid === targetId] *)
Definition is_target (targetId_ : string) (tid : option string) : bool :=
  match tid with
  | Some tid => truthy tid && bool_decide (tid = targetId_)
  | None => false
  end.

(** The loop of [findPageByTargetId]. *)
Fixpoint find_page (targetId_ : string) (pages : list Page) : P (option Page) :=
  match pages with
  | [] => mret None
  | page :: rest =>
      tid ← rescue (pageTargetId page) (λ _, mret None);
      if is_target targetId_ tid then mret (Some page)
      else find_page targetId_ rest
  end.

Definition findPageByTargetId (b : Browser) (targetId_ : string)
  : P (option Page) :=
  pages ← getAllPages b;
  find_page targetId_ pages.

Definition getPageForTargetId (cdpPort_ : Z) (targetId_ : option string)
  : P Page :=
  let endpoint_ := endpointForCdpPort cdpPort_ in
  connected ← connectBrowser_await endpoint_;
  pages ← getAllPages (browser connected);
  match pages with
  | [] => fail (Error "No pages available in the connected browser.")
  | first :: _ =>
      if negb (truthy_opt targetId_) then mret first
      else
        found ← findPageByTargetId (browser connected) (default "" targetId_);
        match found with
        | None => fail (Error "tab not found")
        | Some found => mret found
        end
  end.

End WithEnv.

(** The calls of the loop of [findPageByTargetId] in the order made,
    with the pages they were made for: a page whose session could not
    be opened has that one call; every other page has its session
    opened, asked once and detached. *)
Inductive probes : list PwCall → list Page → Prop :=
| probes_nil : probes [] []
| probes_refused page trace pages :
    probes trace pages →
    probes (PwNewSession page :: trace) (page :: pages)
| probes_session page cdp trace pages :
    probes trace pages →
    probes (PwNewSession page :: PwSend cdp :: PwDetach cdp :: trace)
      (page :: pages).

(** The target id a page reports, as [pageTargetId(page).catch(() => null)]
    reads it from the answer to the question the history ends with:
    trimmed, and [null] when the question failed or the id is empty. *)
Definition reported (env : PwEnv) (history : list PwCall) : option string :=
  match send_result env history with
  | inl _ => None
  | inr info =>
      let targetId_ := trim (default "" info) in
      if truthy targetId_ then Some targetId_ else None
  end.

(** The calls of the loop with what each page probed reported, from
    the calls made before the loop: a page whose session is refused
    reports nothing; the session of every other page is the one
    [newCDPSession] answered, and the page reports what that session
    answers when asked. *)
Inductive answers (env : PwEnv)
  : list PwCall → list PwCall → list (Page * option string) → Prop :=
| answers_nil h : answers env h [] []
| answers_refused h page e trace rest :
    newCDPSession_result env (PwNewSession page :: h) = inl e →
    answers env (PwNewSession page :: h) trace rest →
    answers env h (PwNewSession page :: trace) ((page, None) :: rest)
| answers_session h page cdp trace rest :
    newCDPSession_result env (PwNewSession page :: h) = inr cdp →
    answers env (PwDetach cdp :: PwSend cdp :: PwNewSession page :: h)
      trace rest →
    answers env h (PwNewSession page :: PwSend cdp :: PwDetach cdp :: trace)
      ((page, reported env (PwSend cdp :: PwNewSession page :: h)) :: rest).

End PageLookup.

(** ** [pw-tools-core.ts]: console, network and tracing *)

Module PwTools.
Import PwSession ServerContext PageLookup.

Definition STATIC_RESOURCE_TYPES : list string :=
  ["image"; "font"; "stylesheet"; "media"].

Definition consolePriority (level : string) : Z :=
  if bool_decide (level = "error") then 3
  else if bool_decide (level = "warning") then 2
  else if bool_decide (level = "info") || bool_decide (level = "log") then 1
  else if bool_decide (level = "debug") then 0
  else 1.

(** What [getConsoleMessagesViaPlaywright] makes of [state.console]. *)
Definition console_at_level (level : option string)
  (messages : list BrowserConsoleMessage) : list BrowserConsoleMessage :=
  if negb (truthy_opt level) then messages
  else
    let min := consolePriority (default "" level) in
    List.filter (λ msg, (min <=? consolePriority (cm_type msg))%Z) messages.

(** [req.resourceType && STATIC_RESOURCE_TYPES.has(req.resourceType)] *)
Definition is_static (req : BrowserNetworkRequest) : bool :=
  match nr_resourceType req with
  | Some t => truthy t && bool_decide (t ∈ STATIC_RESOURCE_TYPES)
  | None => false
  end.

(** What [getNetworkRequestsViaPlaywright] makes of [state.network]. *)
Definition network_view (includeStatic : option bool)
  (requests : list BrowserNetworkRequest) : list BrowserNetworkRequest :=
  if default false includeStatic then requests
  else List.filter (λ req, negb (is_static req)) requests.

Section WithEnv.

Variable env : PwEnv.

(** [ensurePageState(page)] from a tool. *)
Definition touch (page : Page) : P nat :=
  s ← get_session;
  _ ← set_session (set_recorder (λ r, (ensurePageState page r).2) s);
  mret (ensurePageState page (recorder s)).1.

Definition startTracingViaPlaywright (cdpPort_ : Z) (targetId_ : option string)
  : P unit :=
  page ← getPageForTargetId env cdpPort_ targetId_;
  _ ← touch page;
  let context := context_of env page in
  tracing ← get_tracing;
  if bool_decide (context ∈ tracing)
  then fail (Error "Tracing already started")
  else
    history ← ask (PwTracingStart context);
    match tracing_start_result env history with
    | Some e => fail e
    | None =>
        tracing ← get_tracing;
        set_tracing ({[context]} ∪ tracing)
    end.

(** The result is the content of the trace file; its path (a fresh
    name under the temporary directory) is what the outside gives. *)
Definition stopTracingViaPlaywright (cdpPort_ : Z) (targetId_ : option string)
  : P string :=
  page ← getPageForTargetId env cdpPort_ targetId_;
  _ ← touch page;
  let context := context_of env page in
  tracing ← get_tracing;
  if negb (bool_decide (context ∈ tracing))
  then fail (Error "Tracing not started")
  else
    named ← ask PwTracePath;
    let filePath := trace_path_result env named in
    history ← ask (PwTracingStop context filePath);
    match tracing_stop_result env history with
    | Some e => fail e
    | None =>
        tracing ← get_tracing;
        _ ← set_tracing (tracing ∖ {[context]});
        history ← ask (PwReadFile filePath);
        match readFile_result env history with
        | inl e => fail e
        | inr buffer =>
            _ ← ask (PwRm filePath);
            mret buffer
        end
    end.

Definition getConsoleMessagesViaPlaywright (cdpPort_ : Z)
  (targetId_ level : option string) : P (list BrowserConsoleMessage) :=
  page ← getPageForTargetId env cdpPort_ targetId_;
  sid ← touch page;
  s ← get_session;
  mret (console_at_level level
          (default [] (console <$> states (recorder s) !! sid))).

Definition getNetworkRequestsViaPlaywright (cdpPort_ : Z)
  (targetId_ : option string) (includeStatic : option bool)
  : P (list BrowserNetworkRequest) :=
  page ← getPageForTargetId env cdpPort_ targetId_;
  sid ← touch page;
  s ← get_session;
  mret (network_view includeStatic
          (default []
             ((λ state, omap (λ ref, entries (recorder s) !! ref) (network state))
                <$> states (recorder s) !! sid))).

End WithEnv.

(** The world after [ensurePageState(page)]. *)
Definition touched (page : Page) (w : PwWorld) : PwWorld :=
  {| session := set_recorder (λ r, (ensurePageState page r).2) (session w);
     tracingContexts := tracingContexts w; asked := asked w |}.

Definition with_tracing (t : gset BrowserContext) (w : PwWorld) : PwWorld :=
  {| session := session w; tracingContexts := t; asked := asked w |}.

Definition with_asked (c : PwCall) (w : PwWorld) : PwWorld :=
  {| session := session w; tracingContexts := tracingContexts w;
     asked := c :: asked w |}.

End PwTools.

(** ** [web-tools.ts]: the result caches *)

Module WebCache.

Record CacheEntry (T : Type) := {
  value : T;
  expiresAt : Z;
  insertedAt : Z;
}.
Arguments value {T} _.
Arguments expiresAt {T} _.
Arguments insertedAt {T} _.

Definition DEFAULT_CACHE_MAX_ENTRIES : nat := 100.

(** A [Map<string, CacheEntry<T>>]: its entries in insertion order. *)
Definition Cache (T : Type) : Type := list (string * CacheEntry T).

Section WithValue.

Context {T : Type}.

(** [cache.get(key)] *)
Definition cache_get (cache : Cache T) (key : string) : option (CacheEntry T) :=
  snd <$> List.find (λ e, bool_decide (e.1 = key)) cache.

(** [cache.delete(key)] *)
Definition cache_delete (key : string) (cache : Cache T) : Cache T :=
  List.filter (λ e, negb (bool_decide (e.1 = key))) cache.

(** [cache.set(key, entry)]: a key that is there keeps its place, a
    new key goes to the end. *)
Definition cache_set (key : string) (entry : CacheEntry T) (cache : Cache T)
  : Cache T :=
  if existsb (λ e, bool_decide (e.1 = key)) cache
  then map (λ e, if bool_decide (e.1 = key) then (key, entry) else e) cache
  else cache ++ [(key, entry)].

(** [readCache(cache, key)] at the time [now] that [Date.now()] gives:
    the value of [{ value, cached: true }] or [null], and the cache
    afterwards. *)
Definition readCache (now : Z) (cache : Cache T) (key : string)
  : option T * Cache T :=
  match cache_get cache key with
  | None => (None, cache)
  | Some entry =>
      if (expiresAt entry <? now)%Z then (None, cache_delete key cache)
      else (Some (value entry), cache)
  end.

(** [writeCache(cache, key, value, ttlMs)]; [now_expires] and
    [now_inserted] are what its two calls of [Date.now()] give. *)
Definition writeCache (now_expires now_inserted : Z) (cache : Cache T)
  (key : string) (v : T) (ttlMs : Z) : Cache T :=
  if (ttlMs <=? 0)%Z then cache
  else
    let cache1 :=
      if (DEFAULT_CACHE_MAX_ENTRIES <=? length cache)%nat then
        match cache with
        | (oldest, _) :: _ => cache_delete oldest cache
        | [] => cache
        end
      else cache in
    cache_set key
      {| value := v; expiresAt := now_expires + ttlMs;
         insertedAt := now_inserted |}
      cache1.

(** What happens to a cache: a read or a write. *)
Inductive CacheOp :=
| CacheRead (now : Z) (key : string)
| CacheWrite (now_expires now_inserted : Z) (key : string) (v : T) (ttlMs : Z).

Definition cache_step (op : CacheOp) (cache : Cache T) : Cache T :=
  match op with
  | CacheRead now key => (readCache now cache key).2
  | CacheWrite now_expires now_inserted key v ttlMs =>
      writeCache now_expires now_inserted cache key v ttlMs
  end.

Definition cache_run (ops : list CacheOp) (cache : Cache T) : Cache T :=
  foldl (λ acc op, cache_step op acc) cache ops.

End WithValue.

End WebCache.

(** ** More concrete worlds *)

Module MoreScenarios.
Import PwSession ServerContext Scenarios.

Definition demo_request : BrowserNetworkRequest :=
  {| nr_url := "https://example.com/app.js"; nr_method := "GET";
     nr_resourceType := Some "script"; nr_status := None; nr_ok := None;
     nr_fromCache := None; nr_failureText := None;
     nr_timestamp := "2026-01-01T00:00:00.000Z" |}.

Definition demo_response : ResponseInfo :=
  {| resp_status := 200; resp_ok := true; resp_fromServiceWorker := false |}.

(** The connection of the test-suite: one attempt for the endpoint,
    answered with browser 7, and settled. *)
Definition connected_run : list Label :=
  [LConnect demo_endpoint; LFulfil 0%nat 7%nat []; LFinally 0%nat].

Definition other_endpoint : string := "http://127.0.0.1:9222".

(** A browser that is up and lists one tab. *)
Definition one_tab_env : Env :=
  demo_env true [demo_target "abcd1234" (ws_of "abcd1234")] cdp_disabled.

End MoreScenarios.

(** ** A concrete browser behind Playwright *)

Module ToolScenarios.
Import PwSession PageLookup.

(** Browser 7 with one context holding the pages 1 and 2, whose
    target ids are reported as ["AAA"] and [" BBB "]; a session is
    named after its page; tracing starts and stops as told. *)
Definition demo_pw_env (start stop : option JsError) : PwEnv :=
  {| connectOverCDP_result := λ _, inr 7%nat;
     contexts_result := λ _, [(0%nat, [1%nat; 2%nat])];
     newCDPSession_result := λ history,
       match history with
       | PwNewSession page :: _ => inr page
       | _ => inl (Error "no page")
       end;
     send_result := λ history,
       match history with
       | PwSend 1%nat :: _ => inr (Some "AAA")
       | PwSend 2%nat :: _ => inr (Some " BBB ")
       | _ => inl (Error "Target closed")
       end;
     context_of := λ _, 0%nat;
     tracing_start_result := λ _, start;
     trace_path_result := λ _, "/tmp/clawd-trace-0000.zip";
     tracing_stop_result := λ _, stop;
     readFile_result := λ _, inr "PK" |}.

Definition fresh_pw_world : PwWorld :=
  {| session := initial; tracingContexts := ∅; asked := [] |}.

Definition error_message : BrowserConsoleMessage :=
  {| cm_type := "error"; cm_text := "boom";
     cm_timestamp := "2026-01-01T00:00:01.000Z"; cm_location := None |}.

End ToolScenarios.

(** * Properties *)

(** ** The page event recorder *)

Section RecorderFacts.
Import PwSession RecorderInv.

Lemma push_capped_length {A} (cap : nat) (l : list A) (x : A) :
  (length l ≤ cap)%nat → (length (push_capped cap l x) ≤ cap)%nat.
Proof.
  intros Hl. unfold push_capped, push, shift.
  destruct (Nat.ltb_spec cap (length (l ++ [x]))) as [Hlt|Hge]; [|done].
  rewrite length_app in Hlt. simpl in Hlt.
  destruct l as [|y l]; simpl in *; [lia|].
  rewrite length_app. simpl. lia.
Qed.

(** At the cap the oldest element goes and the rest keeps its order;
    below it nothing goes. *)
Lemma push_capped_fifo {A} (cap : nat) (l : list A) (x : A) :
  (0 < cap)%nat → (length l ≤ cap)%nat →
  push_capped cap l x =
    if bool_decide (length l = cap) then drop 1 l ++ [x] else l ++ [x].
Proof.
  intros Hcap Hl. unfold push_capped, push, shift.
  rewrite length_app. simpl.
  case_bool_decide as Hc.
  - destruct (Nat.ltb_spec cap (length l + 1)); [|lia].
    destruct l; simpl in *; [lia|done].
  - destruct (Nat.ltb_spec cap (length l + 1)); [lia|done].
Qed.

Lemma wf_empty : wf empty_recorder.
Proof.
  constructor; simpl; try done.
  - constructor.
  - intros page sid Hin. by apply elem_of_nil in Hin.
Qed.

Lemma wf_ensurePageState page r : wf r → wf (snd (ensurePageState page r)).
Proof.
  intros [Hcaps Hrefs Hobs Hlis Hsids Hbound]. unfold ensurePageState.
  destruct (pageStates r !! page) as [existing|] eqn:Hpage; simpl; [done|].
  assert (Hnot : page ∉ observedPages r).
  { intros Hin. apply Hobs in Hin. rewrite Hpage in Hin. by destruct Hin. }
  rewrite bool_decide_eq_false_2 by done.
  constructor; simpl.
  - apply Forall_app. split; [done|].
    repeat constructor; simpl; unfold MAX_CONSOLE_MESSAGES, MAX_NETWORK_REQUESTS; lia.
  - apply Forall_app. split; [done|]. repeat constructor.
  - intros page' Hin. destruct (decide (page = page')) as [->|Hne].
    + rewrite lookup_insert_eq. by eexists.
    + rewrite lookup_insert_ne by done. apply Hobs.
      apply elem_of_union in Hin as [Hin%elem_of_singleton|Hin]; [congruence|done].
  - intros page' sid. destruct (decide (page = page')) as [->|Hne].
    + rewrite lookup_insert_eq. intros [= <-].
      apply elem_of_app. right. by apply list_elem_of_singleton.
    + rewrite lookup_insert_ne by done. intros H. apply Hlis in H.
      apply elem_of_app. by left.
  - rewrite fmap_app. simpl. apply NoDup_app. split; [done|]. split.
    + intros sid Hin ->%list_elem_of_singleton.
      apply list_elem_of_fmap in Hin as [[p sid'] [Heq Hin]]. simpl in Heq. subst.
      apply Hbound in Hin. lia.
    + apply NoDup_singleton.
  - intros page' sid [Hin|Hin%list_elem_of_singleton]%elem_of_app; rewrite length_app; simpl.
    + apply Hbound in Hin. lia.
    + injection Hin as -> ->. lia.
Qed.

(** An update of one state object that keeps the tables in place. *)
Lemma wf_with_state sid f r :
  wf r →
  (∀ st, within_caps st → within_caps (f st)) →
  (∀ st, Forall (λ ref, (ref < length (entries r))%nat) (network st) →
         Forall (λ ref, (ref < length (entries r))%nat) (network (f st))) →
  wf (with_state sid f r).
Proof.
  intros [Hcaps Hrefs Hobs Hlis Hsids Hbound] Hf Hg.
  constructor; simpl; try done.
  - apply Forall_alter; [done|]. intros st _. apply Hf.
  - apply Forall_alter; [done|]. intros st _. apply Hg.
  - intros page sid' Hin. rewrite length_alter. by eapply Hbound.
Qed.

Lemma wf_set_entries f r :
  wf r → (∀ es, length es ≤ length (f es))%nat → wf (set_entries f r).
Proof.
  intros [Hcaps Hrefs Hobs Hlis Hsids Hbound] Hf.
  constructor; simpl; try done.
  eapply Forall_impl; [exact Hrefs|]. intros st Hst. simpl in Hst.
  eapply Forall_impl; [exact Hst|]. intros ref Href. simpl in Href.
  specialize (Hf (entries r)). lia.
Qed.

Lemma wf_set_awaiting f r : wf r → wf (set_awaiting f r).
Proof. intros [Hcaps Hrefs Hobs Hlis Hsids Hbound]. by constructor. Qed.

Lemma wf_on_console sid entry r : wf r → wf (on_console sid entry r).
Proof.
  intros Hwf. apply wf_with_state; [done| |done].
  intros st [Hc Hn]. split; simpl; [|done].
  by apply (push_capped_length MAX_CONSOLE_MESSAGES).
Qed.

Lemma Forall_tail {A} (P : A → Prop) (l : list A) : Forall P l → Forall P (tail l).
Proof. intros H. destruct H; simpl; [constructor|done]. Qed.

Lemma wf_on_request sid req entry r : wf r → wf (on_request sid req entry r).
Proof.
  intros Hwf. unfold on_request.
  pose proof (wf_set_entries (λ es, es ++ [entry]) r Hwf) as Hwf'.
  apply wf_with_state.
  - apply Hwf'. intros es. rewrite length_app. lia.
  - intros st [Hc Hn]. split; simpl; [done|].
    by apply (push_capped_length MAX_NETWORK_REQUESTS).
  - intros st Hst. simpl. rewrite length_app in *. simpl in *.
    assert (Forall (λ ref, (ref < length (entries r) + 1)%nat)
              (push (network st) (length (entries r)))) as Hpushed.
    { apply Forall_app. split; [|repeat constructor; lia].
      eapply Forall_impl; [exact Hst|]. intros ref Href. simpl in Href.
      rewrite length_app in Href. simpl in Href. lia. }
    destruct (_ <? _)%nat; [by apply Forall_tail|done].
Qed.

Lemma wf_delete_request sid req r : wf r → wf (delete_request sid req r).
Proof.
  intros Hwf. apply wf_with_state; [done| |done].
  intros st [Hc Hn]. by split.
Qed.

Lemma wf_on_requestfinished sid req r : wf r → wf (on_requestfinished sid req r).
Proof.
  intros Hwf. unfold on_requestfinished.
  destruct (lookup_request sid req r); [by apply wf_set_awaiting|done].
Qed.

Lemma wf_on_response sid req ref response r :
  wf r → wf (on_response sid req ref response r).
Proof.
  intros Hwf. unfold on_response. apply wf_delete_request.
  destruct response; [|done].
  apply wf_set_entries; [done|]. intros es. by rewrite length_alter.
Qed.

Lemma wf_on_requestfailed sid req errorText r :
  wf r → wf (on_requestfailed sid req errorText r).
Proof.
  intros Hwf. unfold on_requestfailed.
  destruct (lookup_request sid req r); [|done].
  apply wf_delete_request, wf_set_entries; [done|].
  intros es. by rewrite length_alter.
Qed.

Lemma wf_on_close page r : wf r → wf (on_close page r).
Proof.
  intros [Hcaps Hrefs Hobs Hlis Hsids Hbound].
  constructor; simpl; try done.
  - intros page' [Hin Hne%not_elem_of_singleton]%elem_of_difference.
    rewrite lookup_delete_ne by done. by apply Hobs.
  - intros page' sid Hsome. apply Hlis.
    destruct (decide (page = page')) as [->|Hne].
    + by rewrite lookup_delete_eq in Hsome.
    + by rewrite lookup_delete_ne in Hsome.
Qed.

(** A fold of steps that each keep the invariant keeps it. *)
Lemma wf_foldl {A} (g : Recorder → A → Recorder) (l : list A) r :
  (∀ acc x, wf acc → wf (g acc x)) → wf r → wf (foldl g r l).
Proof.
  intros Hg. revert r. induction l as [|x l IH]; simpl; [done|].
  intros r Hwf. by apply IH, Hg.
Qed.

Lemma wf_emit page handler r :
  (∀ sid acc, wf acc → wf (handler sid acc)) → wf r → wf (emit page handler r).
Proof.
  intros Hh Hwf. unfold emit. apply wf_foldl; [|done].
  intros acc l Hacc. case_bool_decide; [by apply Hh|done].
Qed.

Lemma wf_observeContext context pages r : wf r → wf (observeContext context pages r).
Proof.
  intros Hwf. unfold observeContext. case_bool_decide; [done|].
  match goal with
  | |- wf {| states := states ?r2 |} => assert (wf r2) as [Hcaps Hrefs Hobs Hlis Hsids Hbound]
  end.
  { apply wf_foldl; [intros acc page Hacc; by apply wf_ensurePageState|].
    destruct Hwf. by constructor. }
  by constructor.
Qed.

Lemma wf_observeBrowser contexts r : wf r → wf (observeBrowser contexts r).
Proof.
  intros Hwf. unfold observeBrowser. apply wf_foldl; [|done].
  intros acc c Hacc. by apply wf_observeContext.
Qed.

Lemma wf_recorder_step ev r : wf r → wf (recorder_step ev r).
Proof.
  intros Hwf. destruct ev; simpl.
  - by apply wf_ensurePageState.
  - apply wf_emit; [|done]. intros. by apply wf_on_console.
  - apply wf_emit; [|done]. intros. by apply wf_on_request.
  - apply wf_emit; [|done]. intros. by apply wf_on_requestfinished.
  - destruct (awaitingResponse r !! k) as [[[sid req] ref]|]; [|done].
    by apply wf_on_response, wf_set_awaiting.
  - apply wf_emit; [|done]. intros. by apply wf_on_requestfailed.
  - apply wf_emit; [|done]. intros. by apply wf_on_close.
  - apply wf_foldl; [|done]. intros acc c Hacc.
    case_bool_decide; [by apply wf_ensurePageState|done].
  - by apply wf_observeBrowser.
Qed.

Lemma wf_recorder_run evs r : wf r → wf (recorder_run evs r).
Proof.
  intros Hwf. unfold recorder_run. apply wf_foldl; [|done].
  intros acc ev Hacc. by apply wf_recorder_step.
Qed.

(** *** What one event does to the histories of an observed page *)

Lemma foldl_preserve {A B} (proj : Recorder → B) (g : Recorder → A → Recorder)
  (l : list A) r :
  (∀ acc x, proj (g acc x) = proj acc) → proj (foldl g r l) = proj r.
Proof.
  intros Hg. revert r. induction l as [|x l IH]; simpl; [done|].
  intros r. by rewrite IH, Hg.
Qed.

Lemma not_in_listeners (page : Page) (sid : nat) (ls : list (Page * nat)) :
  sid ∉ ls.*2 → (page, sid) ∉ ls.
Proof.
  intros Hnot Hin. apply Hnot. apply list_elem_of_fmap. by exists (page, sid).
Qed.

Lemma bool_decide_listener_cons (page p : Page) (sid s' : nat)
  (ls : list (Page * nat)) :
  (p, s') ≠ (page, sid) →
  bool_decide ((page, sid) ∈ (p, s') :: ls) = bool_decide ((page, sid) ∈ ls).
Proof.
  intros Hne. apply bool_decide_ext. rewrite elem_of_cons.
  split; [intros [Heq|Hin]; [congruence|done]|by right].
Qed.

(** The [console] listeners of a page: the bundle bound to state [sid]
    updates that state once, every other bundle leaves it alone. *)
Lemma emit_console_lookup page entry sid (ls : list (Page * nat)) r :
  NoDup ls.*2 →
  states (foldl (λ acc l, if bool_decide (l.1 = page)
                          then on_console l.2 entry acc else acc) r ls) !! sid
  = if bool_decide ((page, sid) ∈ ls)
    then console_update entry <$> states r !! sid
    else states r !! sid.
Proof.
  revert r. induction ls as [|[p s'] ls IH]; intros r Hnd.
  - by rewrite bool_decide_eq_false_2 by (by intros ?%elem_of_nil).
  - rewrite fmap_cons in Hnd. apply NoDup_cons in Hnd as [Hfresh Hnd].
    cbn [foldl fst snd] in *. rewrite IH by done. clear IH.
    destruct (decide (p = page)) as [->|Hp].
    + rewrite (bool_decide_eq_true_2 (page = page)) by done.
      destruct (decide (s' = sid)) as [->|Hs].
      * rewrite (bool_decide_eq_false_2 (_ ∈ ls)) by by apply not_in_listeners.
        rewrite bool_decide_eq_true_2 by by left.
        simpl. by rewrite list_lookup_alter_eq.
      * simpl. rewrite list_lookup_alter_ne by done.
        by rewrite bool_decide_listener_cons by congruence.
    + rewrite (bool_decide_eq_false_2 (p = page)) by done.
      by rewrite bool_decide_listener_cons by congruence.
Qed.

(** The [request] listeners of a page: each allocates its own entry
    object, all with the same content. *)
Lemma emit_request_lookup page req entry sid (ls : list (Page * nat)) r :
  NoDup ls.*2 →
  let r' := foldl (λ acc l, if bool_decide (l.1 = page)
                            then on_request l.2 req entry acc else acc) r ls in
  (∃ k, entries r' = entries r ++ replicate k entry) ∧
  if bool_decide ((page, sid) ∈ ls)
  then ∃ ref, (length (entries r) ≤ ref)%nat ∧ entries r' !! ref = Some entry ∧
              states r' !! sid = network_update req ref <$> states r !! sid
  else states r' !! sid = states r !! sid.
Proof.
  revert r. induction ls as [|[p s'] ls IH]; intros r Hnd.
  - cbn [foldl]. split; [exists 0%nat; simpl; by rewrite app_nil_r|].
    by rewrite bool_decide_eq_false_2 by (by intros ?%elem_of_nil).
  - rewrite fmap_cons in Hnd. apply NoDup_cons in Hnd as [Hfresh Hnd].
    cbn [foldl fst snd] in *.
    destruct (decide (p = page)) as [->|Hp].
    + rewrite (bool_decide_eq_true_2 (page = page)) by done.
      destruct (IH (on_request s' req entry r) Hnd) as [[k Hk] Hsid]. clear IH.
      simpl in Hk. split.
      { exists (S k). rewrite Hk, <- app_assoc. done. }
      destruct (decide (s' = sid)) as [->|Hs].
      * rewrite (bool_decide_eq_false_2 (_ ∈ ls)) in Hsid by by apply not_in_listeners.
        rewrite bool_decide_eq_true_2 by by left.
        exists (length (entries r)). split; [done|]. split.
        -- rewrite Hk, <- app_assoc. cbn [app]. by rewrite list_lookup_middle.
        -- rewrite Hsid. simpl. by rewrite list_lookup_alter_eq.
      * rewrite bool_decide_listener_cons by congruence.
        case_bool_decide.
        -- destruct Hsid as (ref & Hle & Href & Hst). exists ref.
           simpl in Hle, Hst. rewrite length_app in Hle. simpl in Hle.
           split; [lia|]. split; [done|].
           by rewrite Hst, list_lookup_alter_ne.
        -- rewrite Hsid. simpl. by rewrite list_lookup_alter_ne.
    + rewrite (bool_decide_eq_false_2 (p = page)) by done.
      destruct (IH r Hnd) as [Hk Hsid]. clear IH. split; [done|].
      by rewrite bool_decide_listener_cons by congruence.
Qed.

Lemma omap_length_le {A B} (f : A → option B) (l : list A) :
  (length (omap f l) ≤ length l)%nat.
Proof.
  induction l as [|x l IH]; csimpl; [done|].
  destruct (f x); simpl; lia.
Qed.

Lemma omap_length_total {A B} (f : A → option B) (l : list A) :
  Forall (λ x, is_Some (f x)) l → length (omap f l) = length l.
Proof.
  induction 1 as [|x l [y Hy] _ IH]; csimpl; [done|].
  rewrite Hy. simpl. by rewrite IH.
Qed.

(** Reading through the references commutes with the capped push when
    every reference held resolves. *)
Lemma omap_push_capped {A B} (f : A → option B) cap (l : list A) x y :
  Forall (λ x, is_Some (f x)) l → f x = Some y →
  omap f (push_capped cap l x) = push_capped cap (omap f l) y.
Proof.
  intros Hall Hx. unfold push_capped, push, shift.
  rewrite !length_app, (omap_length_total f l Hall). simpl.
  assert (∀ k, omap f (k ++ [x]) = omap f k ++ [y]) as Happ.
  { intros k. rewrite omap_app. csimpl. by rewrite Hx. }
  destruct (_ <? _)%nat; [|done].
  destruct Hall as [|x0 l [y0 Hy0] Hall]; csimpl.
  - done.
  - rewrite Hy0. simpl. apply Happ.
Qed.

Lemma console_of_observed page sid r :
  pageStates r !! page = Some sid →
  console_of page r = default [] (console <$> states r !! sid).
Proof. intros H. unfold console_of, ensurePageState. by rewrite H. Qed.

Lemma network_of_observed page sid r :
  pageStates r !! page = Some sid →
  network_of page r =
    default [] ((λ st, omap (λ ref, entries r !! ref) (network st))
                  <$> states r !! sid).
Proof. intros H. unfold network_of, ensurePageState. by rewrite H. Qed.

Lemma wf_state_of page sid r :
  wf r → pageStates r !! page = Some sid →
  ∃ st, states r !! sid = Some st ∧ within_caps st ∧
        Forall (λ ref, (ref < length (entries r))%nat) (network st).
Proof.
  intros Hwf Hpage.
  pose proof (wf_bound r Hwf page sid (wf_listener r Hwf page sid Hpage)) as Hlt.
  apply lookup_lt_is_Some in Hlt as [st Hst]. exists st. split; [done|].
  split.
  - by eapply (Forall_lookup_1 _ _ _ _ (wf_caps r Hwf)).
  - by eapply (Forall_lookup_1 _ _ _ _ (wf_refs r Hwf)).
Qed.

Lemma console_of_bounded page r :
  wf r → (length (console_of page r) ≤ MAX_CONSOLE_MESSAGES)%nat.
Proof.
  intros Hwf. unfold console_of.
  pose proof (wf_ensurePageState page r Hwf) as Hwf'.
  destruct (ensurePageState page r) as [sid r']. simpl in Hwf'.
  destruct (states r' !! sid) as [st|] eqn:Hst; simpl; [|lia].
  by destruct (Forall_lookup_1 _ _ _ _ (wf_caps r' Hwf') Hst).
Qed.

Lemma network_of_bounded page r :
  wf r → (length (network_of page r) ≤ MAX_NETWORK_REQUESTS)%nat.
Proof.
  intros Hwf. unfold network_of.
  pose proof (wf_ensurePageState page r Hwf) as Hwf'.
  destruct (ensurePageState page r) as [sid r']. simpl in Hwf'.
  destruct (states r' !! sid) as [st|] eqn:Hst; simpl; [|lia].
  destruct (Forall_lookup_1 _ _ _ _ (wf_caps r' Hwf') Hst) as [_ Hn].
  etrans; [apply omap_length_le|done].
Qed.

Lemma console_event page entry r :
  wf r → is_Some (pageStates r !! page) →
  console_of page (recorder_step (EvConsole page entry) r)
  = push_capped MAX_CONSOLE_MESSAGES (console_of page r) entry.
Proof.
  intros Hwf [sid Hpage].
  destruct (wf_state_of page sid r Hwf Hpage) as (st & Hst & _ & _).
  assert (pageStates (recorder_step (EvConsole page entry) r) = pageStates r) as Htab.
  { simpl. unfold emit. apply (foldl_preserve pageStates).
    intros acc l. by case_bool_decide. }
  rewrite (console_of_observed page sid), (console_of_observed page sid r)
    by (by rewrite ?Htab).
  simpl. unfold emit.
  rewrite emit_console_lookup by apply (wf_sids r Hwf).
  rewrite bool_decide_eq_true_2 by by apply (wf_listener r Hwf).
  by rewrite Hst.
Qed.

Lemma request_event page req entry r :
  wf r → is_Some (pageStates r !! page) →
  network_of page (recorder_step (EvRequest page req entry) r)
  = push_capped MAX_NETWORK_REQUESTS (network_of page r) entry.
Proof.
  intros Hwf [sid Hpage].
  destruct (wf_state_of page sid r Hwf Hpage) as (st & Hst & _ & Hrefs).
  assert (pageStates (recorder_step (EvRequest page req entry) r) = pageStates r) as Htab.
  { simpl. unfold emit. apply (foldl_preserve pageStates).
    intros acc l. by case_bool_decide. }
  rewrite (network_of_observed page sid), (network_of_observed page sid r)
    by (by rewrite ?Htab).
  simpl. unfold emit.
  destruct (emit_request_lookup page req entry sid (pageListeners r) r
              (wf_sids r Hwf)) as [[k Hk] Hsid].
  rewrite bool_decide_eq_true_2 in Hsid by by apply (wf_listener r Hwf).
  destruct Hsid as (ref & Hle & Href & Hsid).
  rewrite Hsid, Hst. simpl.
  assert (omap (λ ref, entries r !! ref) (network st)
          = omap (λ ref, (entries r ++ replicate k entry) !! ref) (network st)) as ->.
  { apply list_omap_ext, Forall_Forall2_diag.
    eapply Forall_impl; [exact Hrefs|]. intros x Hx. simpl in Hx.
    by rewrite lookup_app_l. }
  rewrite Hk in *. apply omap_push_capped; [|done].
  eapply Forall_impl; [exact Hrefs|]. intros x Hx. simpl in Hx.
  apply lookup_lt_is_Some. rewrite length_app. lia.
Qed.

(** C2.  After any sequence of recorder events the console history of
    every page holds at most 500 messages and its network history at
    most 1000 requests; and for a page that is being observed, one more
    [console] (or [request]) event appends the new entry at the end,
    dropping the oldest entry exactly when the history was at its cap. *)
Theorem histories_bounded_fifo (evs : list RecorderEvent) (page : Page) :
  let r := recorder_run evs empty_recorder in
  (length (console_of page r) ≤ 500)%nat ∧
  (length (network_of page r) ≤ 1000)%nat ∧
  (is_Some (pageStates r !! page) →
   (∀ entry,
      console_of page (recorder_step (EvConsole page entry) r) =
        if bool_decide (length (console_of page r) = 500%nat)
        then drop 1 (console_of page r) ++ [entry]
        else console_of page r ++ [entry]) ∧
   (∀ req entry,
      network_of page (recorder_step (EvRequest page req entry) r) =
        if bool_decide (length (network_of page r) = 1000%nat)
        then drop 1 (network_of page r) ++ [entry]
        else network_of page r ++ [entry])).
Proof.
  intros r.
  assert (wf r) as Hwf by apply wf_recorder_run, wf_empty.
  split; [by apply console_of_bounded|].
  split; [by apply network_of_bounded|].
  intros Hobs. split.
  - intros entry. rewrite console_event by done.
    apply (push_capped_fifo MAX_CONSOLE_MESSAGES).
    + unfold MAX_CONSOLE_MESSAGES. lia.
    + by apply console_of_bounded.
  - intros req entry. rewrite request_event by done.
    apply (push_capped_fifo MAX_NETWORK_REQUESTS).
    + unfold MAX_NETWORK_REQUESTS. lia.
    + by apply network_of_bounded.
Qed.

End RecorderFacts.

(** ** The memoized connection *)

Section ConnectionFacts.
Import PwSession ConnectionInv.

Lemma inv_initial : inv initial.
Proof.
  constructor; simpl.
  - intros a att H. by rewrite lookup_nil in H.
  - intros a H. done.
  - intros a att H. by rewrite lookup_nil in H.
Qed.

(** A second attempt in flight contradicts the invariant. *)
Lemma in_flight_unique s a a' att att' :
  inv s →
  attempts s !! a = Some att → in_flight att = true →
  attempts s !! a' = Some att' → in_flight att' = true →
  a = a'.
Proof.
  intros Hinv Ha Hf Ha' Hf'.
  pose proof (inv_in_flight s Hinv a att Ha Hf) as H1.
  pose proof (inv_in_flight s Hinv a' att' Ha' Hf') as H2.
  congruence.
Qed.

Lemma inv_connectBrowser e s : inv s → inv (snd (connectBrowser e s)).
Proof.
  intros Hinv. unfold connectBrowser.
  destruct (cached_for e s) as [c|] eqn:Hc; [done|].
  destruct (connecting s) as [a|] eqn:Hconn; [done|].
  assert (∀ a att, attempts s !! a = Some att → in_flight att = false) as Hidle.
  { intros a att Ha. destruct (in_flight att) eqn:Hf; [|done].
    pose proof (inv_in_flight s Hinv a att Ha Hf). congruence. }
  constructor; simpl.
  - intros a att Ha Hf. apply lookup_app_Some in Ha as [Ha|[Hlen Ha]].
    + apply Hidle in Ha. congruence.
    + apply list_lookup_singleton_Some in Ha as [Hz _]. f_equal. lia.
  - intros a [= <-]. eexists. split; [by apply list_lookup_middle|done].
  - intros a att Ha Hp. apply lookup_app_Some in Ha as [Ha|[Hlen Ha]].
    + apply Hidle in Ha. unfold in_flight in Ha. by rewrite Hp in Ha.
    + apply list_lookup_singleton_Some in Ha as [_ <-]. done.
Qed.

Lemma lookup_alter_Some {A} (f : A → A) (l : list A) (a a' : nat) (y : A) :
  alter f a l !! a' = Some y →
  (a' = a ∧ ∃ x, l !! a = Some x ∧ y = f x) ∨ (a' ≠ a ∧ l !! a' = Some y).
Proof.
  destruct (decide (a = a')) as [->|Hne].
  - rewrite list_lookup_alter_eq. intros H. left. split; [done|].
    destruct (l !! a') as [x|]; [|done]. injection H as <-. by exists x.
  - rewrite list_lookup_alter_ne by done. intros H. right. by split.
Qed.

Lemma pending_in_flight att : att_status att = Pending → in_flight att = true.
Proof. unfold in_flight. by intros ->. Qed.

(** Changing the status of the one attempt in flight to another
    status that is not [Pending], whatever happens to [cached]. *)
Lemma inv_progress s s' a att st :
  inv s →
  attempts s !! a = Some att → in_flight att = true →
  st ≠ Pending →
  attempts s' =
    alter (λ att, {| att_endpoint := att_endpoint att; att_status := st |})
      a (attempts s) →
  connecting s' = (if in_flight {| att_endpoint := ""; att_status := st |}
                   then connecting s else None) →
  inv s'.
Proof.
  intros Hinv Ha Hf Hst Hatt Hconn.
  pose proof (inv_in_flight s Hinv a att Ha Hf) as Hca.
  constructor.
  - intros a' att' Ha' Hf'. rewrite Hatt in Ha'.
    apply lookup_alter_Some in Ha' as [[-> (x & Hx & ->)]|[Hne Ha']].
    + unfold in_flight in Hf' |- *. simpl in *. rewrite Hconn.
      unfold in_flight. simpl. by destruct st.
    + pose proof (in_flight_unique s a a' att att' Hinv Ha Hf Ha' Hf'). done.
  - intros a0 Ha0. rewrite Hconn in Ha0.
    destruct (in_flight {| att_endpoint := ""; att_status := st |}) eqn:Hst'; [|done].
    assert (a0 = a) as -> by congruence.
    exists {| att_endpoint := att_endpoint att; att_status := st |}. split.
    + by rewrite Hatt, list_lookup_alter_eq, Ha.
    + done.
  - intros a' att' Ha' Hp. rewrite Hatt in Ha'.
    apply lookup_alter_Some in Ha' as [[-> (x & Hx & ->)]|[Hne Ha']].
    + simpl in Hp. done.
    + pose proof (in_flight_unique s a a' att att' Hinv Ha Hf Ha'
                    (pending_in_flight _ Hp)). done.
Qed.

(** A step that leaves the attempts and [connecting] alone and can
    only drop the cached record. *)
Lemma inv_drop_cached s s' :
  inv s →
  attempts s' = attempts s → connecting s' = connecting s →
  (cached s' = cached s ∨ cached s' = None) →
  inv s'.
Proof.
  intros [Hf Hc Hp] Hatt Hconn Hcached. constructor.
  - intros a att. rewrite Hatt, Hconn. apply Hf.
  - intros a. rewrite Hatt, Hconn. apply Hc.
  - intros a att Ha Hpend. rewrite Hatt in Ha. specialize (Hp a att Ha Hpend).
    unfold cached_for in *. destruct Hcached as [->| ->]; done.
Qed.

Lemma on_disconnected_fields b s :
  attempts (on_disconnected b s) = attempts s ∧
  connecting (on_disconnected b s) = connecting s ∧
  (cached (on_disconnected b s) = cached s ∨ cached (on_disconnected b s) = None).
Proof.
  unfold on_disconnected. destruct (cached s) as [c|] eqn:Hc; [|by auto].
  case_bool_decide; simpl; auto.
Qed.

Lemma inv_step l s s' : inv s → step l s = Some s' → inv s'.
Proof.
  intros Hinv Hstep. destruct l; simpl in Hstep.
  - injection Hstep as <-. by apply inv_connectBrowser.
  - destruct (attempts s !! a) as [[e []]|] eqn:Ha; try done.
    injection Hstep as <-.
    by eapply (inv_progress s _ a _ (ThenDone _) Hinv Ha).
  - destruct (attempts s !! a) as [[e []]|] eqn:Ha; try done.
    injection Hstep as <-.
    by eapply (inv_progress s _ a _ (Failed err) Hinv Ha).
  - destruct (attempts s !! a) as [[e []]|] eqn:Ha; try done;
      injection Hstep as <-.
    + by eapply (inv_progress s _ a _ (Settled _) Hinv Ha).
    + by eapply (inv_progress s _ a _ (Settled _) Hinv Ha).
  - injection Hstep as <-.
    generalize (disconnectedListeners s). intros bs.
    revert s Hinv. induction bs as [|b' bs IH]; intros s Hinv; simpl; [done|].
    apply IH. case_bool_decide; [|done].
    destruct (on_disconnected_fields b' s) as (H1 & H2 & H3).
    by eapply inv_drop_cached.
  - injection Hstep as <-. eapply inv_drop_cached; [done|..];
      unfold closePlaywrightBrowserConnection; destruct (cached s); simpl; auto.
  - injection Hstep as <-. by eapply inv_drop_cached; [done|..]; simpl; auto.
Qed.

Lemma inv_run ls s s' : inv s → run ls s = Some s' → inv s'.
Proof.
  revert s. induction ls as [|l ls IH]; intros s Hinv; simpl.
  - by intros [= <-].
  - destruct (step l s) as [s1|] eqn:Hstep; simpl; [|done].
    intros Hrun. eapply IH; [|done]. by eapply inv_step.
Qed.

(** A second call for the same endpoint, made before anything else
    happens, gets what the first call got and changes nothing. *)
Lemma connectBrowser_again e s :
  connectBrowser e (snd (connectBrowser e s)) = connectBrowser e s.
Proof.
  unfold connectBrowser.
  destruct (cached_for e s) as [c|] eqn:Hc; simpl; [by rewrite Hc|].
  destruct (connecting s) as [a|] eqn:Hconn; simpl; [by rewrite Hc, Hconn|].
  unfold cached_for in *. simpl. by rewrite Hc.
Qed.

Lemma connectBrowser_calls e s :
  connect_calls (snd (connectBrowser e s)) =
    if bool_decide (cached_for e s = None ∧ connecting s = None)
    then S (connect_calls s) else connect_calls s.
Proof.
  unfold connectBrowser, connect_calls.
  destruct (cached_for e s) as [c|] eqn:Hc.
  { by rewrite bool_decide_eq_false_2 by (by intros [? _]). }
  destruct (connecting s) as [a|] eqn:Hconn.
  { by rewrite bool_decide_eq_false_2 by (by intros [_ ?]). }
  rewrite bool_decide_eq_true_2 by done. simpl. rewrite length_app. simpl. lia.
Qed.

(** C3.  In every state the event loop can reach: at most one
    connection attempt is in flight; a call for the endpoint of an
    attempt that [connectOverCDP] has not answered yet awaits that very
    attempt and leaves the state as it is; and of two callers for one
    endpoint, with nothing happening in between, the second gets what
    the first got, so that together they ask for one underlying
    connection when neither a record for the endpoint nor an attempt
    was there, and for none otherwise.  (The connection record itself
    is the single slot [cached].) *)
Theorem single_flight (ls : list Label) (s : State) (e : string) :
  run ls initial = Some s →
  (∀ a a' att att',
     attempts s !! a = Some att → in_flight att = true →
     attempts s !! a' = Some att' → in_flight att' = true → a = a') ∧
  (∀ a, attempts s !! a = Some {| att_endpoint := e; att_status := Pending |} →
        connectBrowser e s = (AwaitAttempt a, s)) ∧
  (∀ s1 s2,
     run [LConnect e] s = Some s1 → run [LConnect e; LConnect e] s = Some s2 →
     s2 = s1 ∧
     fst (connectBrowser e s1) = fst (connectBrowser e s) ∧
     connect_calls s2 =
       if bool_decide (cached_for e s = None ∧ connecting s = None)
       then S (connect_calls s) else connect_calls s).
Proof.
  intros Hrun. pose proof (inv_run ls initial s inv_initial Hrun) as Hinv.
  split; [|split].
  - intros a a' att att' Ha Hf Ha' Hf'. by eapply in_flight_unique.
  - intros a Ha.
    pose proof (inv_pending s Hinv a _ Ha eq_refl) as Hc.
    pose proof (inv_in_flight s Hinv a _ Ha eq_refl) as Hconn.
    simpl in Hc. unfold connectBrowser. by rewrite Hc, Hconn.
  - intros s1 s2 H1 H2. simpl in H1, H2.
    injection H1 as <-. injection H2 as <-.
    rewrite connectBrowser_again. split; [done|]. split; [done|].
    apply connectBrowser_calls.
Qed.

(** The [disconnected] listeners of [b]: every field but [cached] is
    left alone, and the record goes when it holds [b] and [b] has a
    listener. *)
Lemma foldl_on_disconnected b bs s :
  let s' := foldl (λ acc b', if bool_decide (b' = b)
                             then on_disconnected b' acc else acc) s bs in
  attempts s' = attempts s ∧ connecting s' = connecting s ∧
  disconnectedListeners s' = disconnectedListeners s ∧
  closeCalls s' = closeCalls s ∧ recorder s' = recorder s ∧
  cached s' =
    match cached s with
    | Some c => if bool_decide (browser c = b ∧ b ∈ bs) then None else Some c
    | None => None
    end.
Proof.
  revert s. induction bs as [|b' bs IH]; intros s; cbn [foldl].
  - repeat (split; [done|]). destruct (cached s) as [c|]; [|done].
    rewrite bool_decide_eq_false_2; [done|]. intros [_ H]. by apply elem_of_nil in H.
  - destruct (IH (if bool_decide (b' = b) then on_disconnected b' s else s))
      as (H1 & H2 & H3 & H4 & H5 & H6). clear IH. cbv zeta.
    rewrite H1, H2, H3, H4, H5, H6. clear H1 H2 H3 H4 H5 H6.
    case_bool_decide as Hb.
    + subst b'. unfold on_disconnected. destruct (cached s) as [c|] eqn:Hc.
      * case_bool_decide as Hcb; simpl.
        -- repeat (split; [done|]).
           rewrite bool_decide_eq_true_2; [done|]. split; [done|]. by left.
        -- rewrite Hc. repeat (split; [done|]).
           rewrite !bool_decide_eq_false_2; [done|by intros [? _]|by intros [? _]].
      * rewrite Hc. done.
    + repeat (split; [done|]). destruct (cached s) as [c|]; [|done].
      rewrite (bool_decide_ext (browser c = b ∧ b ∈ bs)
                 (browser c = b ∧ b ∈ b' :: bs)); [done|].
      rewrite elem_of_cons. split; [intros [? ?]; by auto|].
      intros [? [?|?]]; [congruence|done].
Qed.

Lemma run_enabled_run ls s s' : run ls s = Some s' → run_enabled ls s = s'.
Proof.
  revert s. unfold run_enabled. induction ls as [|l ls IH]; intros s; simpl.
  - by intros [= <-].
  - destruct (step l s) as [s1|]; simpl; [apply IH|done].
Qed.

(** A step that does not take the cached record away leaves it where
    it is. *)
Lemma cached_kept_step c l s s' :
  cached s = Some c → takes_away c l = false → step l s = Some s' →
  cached s' = Some c.
Proof.
  intros Hc Hl Hstep. destruct l; simpl in Hl, Hstep; try done.
  - injection Hstep as <-. unfold connectBrowser.
    destruct (cached_for endpoint_ s); [done|]. by destruct (connecting s).
  - destruct (attempts s !! a) as [[e []]|]; try done.
    by injection Hstep as <-.
  - destruct (attempts s !! a) as [[e []]|]; try done;
      by injection Hstep as <-.
  - injection Hstep as <-.
    destruct (foldl_on_disconnected b (disconnectedListeners s) s)
      as (_ & _ & _ & _ & _ & ->).
    rewrite Hc. rewrite bool_decide_eq_false_2; [done|].
    intros [Hb _]. apply bool_decide_eq_false in Hl. by apply Hl.
  - by injection Hstep as <-.
Qed.

Lemma cached_kept_run c ls s s' :
  cached s = Some c → Forall (λ l, takes_away c l = false) ls →
  run ls s = Some s' → cached s' = Some c.
Proof.
  revert s. induction ls as [|l ls IH]; intros s Hc Hls; simpl.
  - by intros [= <-].
  - apply Forall_cons in Hls as [Hl Hls].
    destruct (step l s) as [s1|] eqn:Hstep; simpl; [|done].
    apply IH; [|done]. by eapply cached_kept_step.
Qed.

(** [browser.close()] is called by [closePlaywrightBrowserConnection]
    alone. *)
Lemma closeCalls_kept_run ls s s' :
  LClose ∉ ls → run ls s = Some s' → closeCalls s' = closeCalls s.
Proof.
  revert s. induction ls as [|l ls IH]; intros s Hls; simpl.
  - by intros [= <-].
  - apply not_elem_of_cons in Hls as [Hl Hls].
    destruct (step l s) as [s1|] eqn:Hstep; simpl; [|done].
    intros Hrun. rewrite (IH s1 Hls Hrun).
    destruct l; simpl in Hstep; try done.
    + injection Hstep as <-. unfold connectBrowser.
      destruct (cached_for endpoint_ s); [done|]. by destruct (connecting s).
    + destruct (attempts s !! a) as [[e []]|]; try done.
      by injection Hstep as <-.
    + destruct (attempts s !! a) as [[e []]|]; try done.
      by injection Hstep as <-.
    + destruct (attempts s !! a) as [[e []]|]; try done;
        by injection Hstep as <-.
    + injection Hstep as <-.
      by destruct (foldl_on_disconnected b (disconnectedListeners s) s)
        as (_ & _ & _ & -> & _ & _).
    + by injection Hstep as <-.
Qed.

(** A connection is asked for by a call of [connectBrowser] alone, and
    by none made for the endpoint of the cached record. *)
Lemma connect_calls_kept_run c ls s s' :
  cached s = Some c → Forall (λ l, takes_away c l = false) ls →
  (∀ e, LConnect e ∈ ls → e = endpoint c) →
  run ls s = Some s' → connect_calls s' = connect_calls s.
Proof.
  revert s. induction ls as [|l ls IH]; intros s Hc Hls He; simpl.
  - by intros [= <-].
  - apply Forall_cons in Hls as [Hl Hls].
    destruct (step l s) as [s1|] eqn:Hstep; simpl; [|done].
    intros Hrun.
    rewrite (IH s1); [| by eapply cached_kept_step | done | | done].
    2:{ intros e Hin. apply He. by right. }
    destruct l; simpl in Hl, Hstep; try done.
    + injection Hstep as <-. rewrite connectBrowser_calls.
      rewrite bool_decide_eq_false_2; [done|]. intros [Hnone _].
      unfold cached_for in Hnone. rewrite Hc in Hnone.
      rewrite bool_decide_eq_true_2 in Hnone; [done|].
      symmetry. apply He. by left.
    + destruct (attempts s !! a) as [[e []]|]; try done.
      injection Hstep as <-. unfold connect_calls. simpl. by rewrite length_alter.
    + destruct (attempts s !! a) as [[e []]|]; try done;
        injection Hstep as <-; unfold connect_calls; simpl; by rewrite length_alter.
    + injection Hstep as <-. unfold connect_calls.
      by destruct (foldl_on_disconnected b (disconnectedListeners s) s)
        as (-> & _).
    + by injection Hstep as <-.
Qed.

End ConnectionFacts.

(** ** The control plane *)

Section ServerContextFacts.
Import ServerContext.

Variable env : Env.

Lemma state_started w s : server_state w = Some s → state w = (Return s, w).
Proof. intros H. unfold state, getState, mbind, M_bind. by rewrite H. Qed.

Lemma state_not_started w :
  server_state w = None →
  state w = (Throw (Error "Browser server not started"), w).
Proof. intros H. unfold state, getState, mbind, M_bind. by rewrite H. Qed.

Lemma external_run c extra w :
  external env c extra w = (Return ((now w, c) :: calls w), called env c extra w).
Proof. done. Qed.

Lemma stopClawdChrome_run r w :
  stopClawdChrome env r w = (Return (), called env (CallStopChrome r) 0 w).
Proof. done. Qed.

Lemma isReachable_started timeoutMs w s :
  server_state w = Some s →
  isReachable env timeoutMs w =
    (Return (isChromeReachable_result env
               ((now w, CallProbe (cdpPort s) (default 300 timeoutMs)) :: calls w)),
     called env (CallProbe (cdpPort s) (default 300 timeoutMs)) 0 w).
Proof.
  intros H. unfold isReachable, mbind, M_bind. by rewrite (state_started w s H).
Qed.

(** C8 (as amended).  On a started control plane [isReachable] makes
    one probe with the timeout given (300ms when none is) and returns
    the boolean the probe answered; it changes nothing but the record
    of calls and the clock.  On a control plane that is not started it
    throws. *)
Theorem isReachable_boolean_when_started (timeoutMs : option Z) (w : World) :
  match server_state w with
  | Some s =>
      let probe := CallProbe (cdpPort s) (default 300 timeoutMs) in
      ∃ b : bool,
        isReachable env timeoutMs w = (Return b, called env probe 0 w) ∧
        b = isChromeReachable_result env ((now w, probe) :: calls w) ∧
        calls (called env probe 0 w) = (now w, probe) :: calls w ∧
        server_state (called env probe 0 w) = server_state w ∧
        pw (called env probe 0 w) = pw w
  | None =>
      isReachable env timeoutMs w =
        (Throw (Error "Browser server not started"), w)
  end.
Proof.
  destruct (server_state w) as [s|] eqn:Hs.
  - eexists. split; [by apply isReachable_started|]. done.
  - unfold isReachable, mbind, M_bind. by rewrite (state_not_started w Hs).
Qed.

(** C7 (as amended).  On a started control plane: with no process
    tracked, [stopRunningBrowser] returns [{stopped: false}] and the
    world is what it was; with a process tracked it asks for that
    process to be stopped, returns [{stopped: true}], and the handle is
    cleared, so that a second stop is the no-op again.  On a control
    plane that is not started, where nothing is tracked either, it
    throws, and the [/stop] route answers 500. *)
Theorem stopRunningBrowser_idempotent (w : World) :
  match server_state w with
  | Some s =>
      match running s with
      | None => stopRunningBrowser env w = (Return {| stopped := false |}, w)
      | Some r =>
          ∃ w', stopRunningBrowser env w = (Return {| stopped := true |}, w') ∧
                server_state w' = Some (cleared s) ∧
                calls w' = (now w, CallStopChrome r) :: calls w ∧
                stopRunningBrowser env w' = (Return {| stopped := false |}, w')
      end
  | None =>
      stopRunningBrowser env w =
        (Throw (Error "Browser server not started"), w) ∧
      route_stop env w =
        (Return (inr (500, "Error: Browser server not started")), w)
  end.
Proof.
  destruct (server_state w) as [s|] eqn:Hs.
  - destruct (running s) as [r|] eqn:Hr.
    + eexists. split; [|split; [|split]].
      * unfold stopRunningBrowser, mbind, M_bind.
        rewrite (state_started w s Hs), Hr.
        unfold external, setRunning, getState, set_server_state, mbind, M_bind.
        simpl. rewrite Hs. reflexivity.
      * done.
      * done.
      * unfold stopRunningBrowser, mbind, M_bind.
        by erewrite state_started by done.
    + unfold stopRunningBrowser, mbind, M_bind.
      by rewrite (state_started w s Hs), Hr.
  - assert (stopRunningBrowser env w =
              (Throw (Error "Browser server not started"), w)) as Hthrow.
    { unfold stopRunningBrowser, mbind, M_bind.
      by rewrite (state_not_started w Hs). }
    split; [exact Hthrow|].
    unfold route_stop, catch, mbind, M_bind. by rewrite Hthrow.
Qed.

(** [ensureBrowserAvailable] on a started control plane, by the answer
    of the probe and the attach-only flag. *)
Lemma ensureBrowserAvailable_unfold w s :
  server_state w = Some s →
  ensureBrowserAvailable env w =
    let probe := CallProbe (cdpPort s) 300 in
    let w1 := called env probe 0 w in
    if isChromeReachable_result env ((now w, probe) :: calls w)
    then (Return (), w1)
    else if attachOnly (resolved s)
    then (Throw (Error "Browser attachOnly is enabled and no browser is running."), w1)
    else
      let launch := (now w1, CallLaunch (resolved s)) in
      let w2 := called env (CallLaunch (resolved s)) 0 w1 in
      match launchClawdChrome_result env (launch :: calls w1) with
      | inl e => (Throw e, w2)
      | inr launched =>
          (_ ← setRunning (Some launched); register_exit_listener launched) w2
      end.
Proof.
  intros Hs. unfold ensureBrowserAvailable, mbind, M_bind.
  rewrite (state_started w s Hs), (isReachable_started None w s Hs). simpl.
  destruct (isChromeReachable_result env _); [done|].
  destruct (attachOnly (resolved s)); [done|].
  unfold launchClawdChrome, mbind, M_bind. rewrite external_run.
  by destruct (launchClawdChrome_result env _).
Qed.

(** C6.  On a started control plane [ensureBrowserAvailable] probes
    once.  If the probe answers yes it returns, and if it answers no
    while attach-only is configured it throws the attach-only error;
    either way the probe is the only call made: nothing is launched,
    no handle is recorded and no listener registered. *)
Theorem ensureBrowserAvailable_never_launches (w : World) (s : BrowserServerState) :
  server_state w = Some s →
  let probe := CallProbe (cdpPort s) 300 in
  let w' := called env probe 0 w in
  (isChromeReachable_result env ((now w, probe) :: calls w) = true →
   ensureBrowserAvailable env w = (Return (), w')) ∧
  (isChromeReachable_result env ((now w, probe) :: calls w) = false →
   attachOnly (resolved s) = true →
   ensureBrowserAvailable env w =
     (Throw (Error "Browser attachOnly is enabled and no browser is running."), w')) ∧
  calls w' = (now w, probe) :: calls w ∧
  launches w' = launches w ∧
  server_state w' = server_state w ∧
  exitListeners w' = exitListeners w.
Proof.
  intros Hs probe w'. subst probe w'. split; [|split].
  - intros Hp. rewrite (ensureBrowserAvailable_unfold w s Hs). cbv zeta.
    by rewrite Hp.
  - intros Hp Ha. rewrite (ensureBrowserAvailable_unfold w s Hs). cbv zeta.
    by rewrite Hp, Ha.
  - done.
Qed.

Lemma setRunning_returns running_ w :
  ∃ w', setRunning running_ w = (Return (), w') ∧ pw w' = pw w ∧
        calls w' = calls w.
Proof.
  unfold setRunning, getState, set_server_state, mbind, M_bind, mret, M_ret.
  destruct (server_state w); by eexists.
Qed.

(** With nothing happening in the meantime this is [stopRunningBrowser]
    run without interleaving. *)
Lemma stopRunningBrowser_during_nil w :
  fst (stopRunningBrowser_during env [] w) = fst (stopRunningBrowser env w) ∧
  server_state (snd (stopRunningBrowser_during env [] w))
    = server_state (snd (stopRunningBrowser env w)) ∧
  pw (snd (stopRunningBrowser_during env [] w))
    = pw (snd (stopRunningBrowser env w)) ∧
  calls (snd (stopRunningBrowser_during env [] w))
    = calls (snd (stopRunningBrowser env w)).
Proof.
  unfold stopRunningBrowser_during, stopRunningBrowser, mbind, M_bind.
  destruct (state w) as [[s|e] w1]; [|done].
  destruct (running s) as [r|]; [|done].
  rewrite stopClawdChrome_run.
  by destruct w1 as [[s1|] p t c ls].
Qed.

(** C4 (as amended).  [stopRunningBrowser] with a process tracked, and
    with it the [/stop] route: whatever the event loop does in
    [pw-session.ts] while the stop of the process is awaited, the call
    returns [{stopped: true}] with the handle released, and the module
    state of [pw-session.ts] is what those steps made of it.  The
    function adds nothing of its own: it does not call
    [closePlaywrightBrowserConnection], so [browser.close()] is called
    only if one of the steps is such a call; a cached record is still
    cached when none of the steps takes it away, and it is gone when
    the [disconnected] event of its browser was delivered in the
    meantime, by the listener [connectBrowser] registered.
    [stopBrowserControlServer], run with nothing in between, stops the
    browser, closes the server, forgets the server state and closes
    the connection. *)
Theorem stop_leaves_connection (w : World) (s : BrowserServerState)
  (r : RunningChrome) (during : list PwSession.Label) (p' : PwSession.State) :
  server_state w = Some s → running s = Some r →
  PwSession.run during (pw w) = Some p' →
  ∃ w',
    stopRunningBrowser_during env during w = (Return {| stopped := true |}, w') ∧
    route_stop_during env during w = (Return (inl (true, true)), w') ∧
    server_state w' = Some (cleared s) ∧
    calls w' = (now w, CallStopChrome r) :: calls w ∧
    pw w' = p' ∧
    (PwSession.LClose ∉ during →
     PwSession.closeCalls p' = PwSession.closeCalls (pw w)) ∧
    (∀ c, PwSession.cached (pw w) = Some c →
          Forall (λ l, PwSession.takes_away c l = false) during →
          PwSession.cached p' = Some c) ∧
    (∀ c, PwSession.cached (pw w) = Some c →
          PwSession.browser c ∈ PwSession.disconnectedListeners (pw w) →
          during = [PwSession.LDisconnected (PwSession.browser c)] →
          PwSession.cached p' = None) ∧
    fst (stopBrowserControlServer env w) = Return () ∧
    server_state (snd (stopBrowserControlServer env w)) = None ∧
    PwSession.cached (pw (snd (stopBrowserControlServer env w))) = None.
Proof.
  intros Hs Hr Hrun.
  assert (∃ w', stopRunningBrowser_during env during w
                  = (Return {| stopped := true |}, w') ∧
                server_state w' = Some (cleared s) ∧
                calls w' = (now w, CallStopChrome r) :: calls w ∧
                pw w' = p') as (w' & Hstop & Hstate & Hcalls & Hpw).
  { unfold stopRunningBrowser_during, mbind, M_bind.
    rewrite (state_started w s Hs), Hr, stopClawdChrome_run.
    unfold meanwhile, modify_pw, setRunning, getState, set_server_state,
      mbind, M_bind. simpl. rewrite Hs.
    eexists. split; [reflexivity|]. simpl. split; [done|]. split; [done|].
    by apply run_enabled_run. }
  exists w'. split; [exact Hstop|]. split.
  { unfold route_stop_during, catch, mbind, M_bind. by rewrite Hstop. }
  split; [exact Hstate|]. split; [exact Hcalls|]. split; [exact Hpw|].
  split; [|split; [|split]].
  - intros Hclose. by eapply closeCalls_kept_run.
  - intros c Hc Hkept. by eapply cached_kept_run.
  - intros c Hc Hlistened ->. simpl in Hrun. injection Hrun as <-.
    destruct (foldl_on_disconnected (PwSession.browser c)
                (PwSession.disconnectedListeners (pw w)) (pw w))
      as (_ & _ & _ & _ & _ & ->).
    rewrite Hc. by rewrite bool_decide_eq_true_2.
  - unfold stopBrowserControlServer, getState, catch, modify_pw,
      set_server_state, external, mbind, M_bind, mret, M_ret.
    rewrite Hs.
    destruct (stopRunningBrowser env w) as [[r'|e] w1]; simpl;
      (split; [done|]; split; [done|]);
      unfold PwSession.closePlaywrightBrowserConnection;
      by destruct (PwSession.cached (pw w1)).
Qed.

Lemma exit_listener_run launched_pid w :
  exit_listener launched_pid w =
    (Return (),
     match server_state w with
     | Some s =>
         match running s with
         | Some r =>
             if bool_decide (pid r = launched_pid)
             then snd (set_server_state (Some (cleared s)) w) else w
         | None => w
         end
     | None => w
     end).
Proof.
  unfold exit_listener, getState, mbind, M_bind.
  destruct (server_state w) as [[? ? ? [r|] ?]|] eqn:Hs; try done.
  simpl. case_bool_decide; [|done].
  unfold setRunning, getState, mbind, M_bind. by rewrite Hs.
Qed.

(** Listeners whose guard fails leave the world alone. *)
Lemma emit_exit_superseded p w s r :
  server_state w = Some s → running s = Some r →
  (∀ launched_pid, (p, launched_pid) ∈ exitListeners w → launched_pid ≠ pid r) →
  emit_exit p w = (Return (), w).
Proof.
  intros Hs Hr. unfold emit_exit. generalize (exitListeners w).
  intros ls Hls. induction ls as [|[p' lp] ls IH] using rev_ind; [done|].
  rewrite foldl_app. simpl. rewrite IH.
  - simpl. case_bool_decide as Hp; [|done]. subst p'.
    rewrite exit_listener_run, Hs, Hr.
    rewrite bool_decide_eq_false_2; [done|].
    intros Heq. eapply Hls; [|by symmetry]. apply elem_of_app. right.
    by apply list_elem_of_singleton.
  - intros lp' Hin. apply Hls. apply elem_of_app. by left.
Qed.

(** C9.  On a started control plane, a launch records the handle and
    registers an [exit] listener holding the pid of the launched
    process; when run, that listener clears the tracked handle if the
    handle's pid is the pid it holds, and otherwise (another pid, or
    no handle) changes nothing; so the [exit] event of a process whose
    listeners all hold other pids than the tracked handle's leaves the
    handle in place. *)
Theorem exit_observer_guarded_by_pid (w : World) (s : BrowserServerState) :
  server_state w = Some s →
  (∀ launched,
     let probe := CallProbe (cdpPort s) 300 in
     let w1 := called env probe 0 w in
     isChromeReachable_result env ((now w, probe) :: calls w) = false →
     attachOnly (resolved s) = false →
     launchClawdChrome_result env ((now w1, CallLaunch (resolved s)) :: calls w1)
       = inr launched →
     ∃ w2, ensureBrowserAvailable env w = (Return (), w2) ∧
           (running <$> server_state w2) = Some (Some launched) ∧
           exitListeners w2 = exitListeners w ++ [(proc launched, pid launched)]) ∧
  (∀ launched_pid,
     exit_listener launched_pid w =
       (Return (),
        match running s with
        | Some r =>
            if bool_decide (pid r = launched_pid)
            then snd (set_server_state (Some (cleared s)) w) else w
        | None => w
        end)) ∧
  (∀ p r,
     running s = Some r →
     (∀ launched_pid, (p, launched_pid) ∈ exitListeners w → launched_pid ≠ pid r) →
     emit_exit p w = (Return (), w)).
Proof.
  intros Hs. split; [|split].
  - intros launched probe w1 Hp Ha Hl. subst probe w1.
    rewrite (ensureBrowserAvailable_unfold w s Hs). cbv zeta.
    rewrite Hp, Ha, Hl.
    unfold setRunning, getState, set_server_state, register_exit_listener,
      mbind, M_bind, mret, M_ret. simpl. rewrite Hs.
    eexists. split; [done|]. done.
  - intros launched_pid. by rewrite exit_listener_run, Hs.
  - intros p r Hr Hls. by eapply emit_exit_superseded.
Qed.

End ServerContextFacts.

(** ** Target resolution *)

Section ResolutionFacts.
Import ServerContext TargetId.

Lemma truthy_nonempty (x : string) : x ≠ "" → truthy x = true.
Proof. by destruct x. Qed.

Lemma NoDup_fmap_inj_on {A B} (f : A → B) (l : list A) (x y : A) :
  NoDup (f <$> l) → x ∈ l → y ∈ l → f x = f y → x = y.
Proof.
  induction l as [|z l IH]; csimpl; [by intros _ ?%elem_of_nil|].
  intros [Hz Hnd]%NoDup_cons [->|Hx]%elem_of_cons [->|Hy]%elem_of_cons Hf; try done.
  - destruct Hz. rewrite Hf. by apply list_elem_of_fmap_2.
  - destruct Hz. rewrite <- Hf. by apply list_elem_of_fmap_2.
  - by apply IH.
Qed.

Lemma find_exact (x : string) (tabs : list BrowserTab) (t : BrowserTab) :
  t ∈ tabs → targetId t = x →
  ∃ t0, List.find (λ t, bool_decide (targetId t = x)) tabs = Some t0 ∧
        t0 ∈ tabs ∧ targetId t0 = x.
Proof.
  intros Hin Hid.
  destruct (List.find _ tabs) as [t0|] eqn:Hfind.
  - apply find_some in Hfind as [Hin0 Hid0].
    exists t0. split; [done|]. split; [by apply list_elem_of_In|].
    by apply bool_decide_eq_true in Hid0.
  - apply list_elem_of_In in Hin.
    pose proof (find_none _ _ Hfind t Hin) as Hno. simpl in Hno.
    by apply bool_decide_eq_false in Hno.
Qed.

Lemma find_no_exact (x : string) (tabs : list BrowserTab) :
  (∀ t, t ∈ tabs → targetId t ≠ x) →
  List.find (λ t, bool_decide (targetId t = x)) tabs = None.
Proof.
  intros Hno. destruct (List.find _ tabs) as [t0|] eqn:Hfind; [|done].
  apply find_some in Hfind as [Hin0 Hid0].
  apply bool_decide_eq_true in Hid0. apply list_elem_of_In in Hin0.
  by destruct (Hno t0 Hin0).
Qed.

(** The tab that [ensureTabAvailable] looks up for the id of the one
    prefix match is that match. *)
Lemma find_only_match (x : string) (tabs : list BrowserTab) (t : BrowserTab) :
  List.filter (λ t, String.prefix x (targetId t)) tabs = [t] →
  List.find (λ u, bool_decide (targetId u = targetId t)) tabs = Some t.
Proof.
  intros Hf.
  assert (In t tabs ∧ String.prefix x (targetId t) = true) as [Hin Hpre].
  { apply (filter_In (λ t, String.prefix x (targetId t))). rewrite Hf. by left. }
  destruct (find_exact (targetId t) tabs t) as (t0 & Hfind & Hin0 & Hid0);
    [by apply list_elem_of_In|done|].
  rewrite Hfind. f_equal.
  assert (In t0 [t]) as [->|[]]; [|done].
  rewrite <- Hf. apply filter_In. split; [by apply list_elem_of_In|].
  by rewrite Hid0.
Qed.

(** C1 (as amended).  For a fixed listing the outcome is a function of
    the identifier.  With an absent or empty identifier
    [ensureTabAvailable] takes the first tab of the listing.  With a
    non-empty identifier: if some tab has exactly that id, [focusTab]
    resolves to the id and [ensureTabAvailable] takes the first tab
    with that id (the tab itself when ids are unique), whatever other
    tabs are listed; if none has, exactly one tab whose id starts with
    the identifier is taken, two or more give the ambiguity error and
    none gives the not-found error.  In [ensureTabAvailable] the tab
    taken is returned only if it has a non-empty channel address, and
    is reported as not found otherwise. *)
Theorem target_resolution (x : string) (tabs : list BrowserTab) :
  let guard (t : BrowserTab) : JsError + BrowserTab :=
    if truthy_opt (wsUrl t) then inr t else inl (Error "tab not found") in
  let matches := List.filter (λ t, String.prefix x (targetId t)) tabs in
  (∀ id, truthy_opt id = false →
     check_chosen (choose id tabs) =
       match head tabs with
       | Some first => guard first
       | None => inl (Error "tab not found")
       end) ∧
  (x ≠ "" →
   (∀ t, t ∈ tabs → targetId t = x →
      resolve_or_throw x tabs = inr x ∧
      ∃ t0, t0 ∈ tabs ∧ targetId t0 = x ∧
            (NoDup (targetId <$> tabs) → t0 = t) ∧
            choose (Some x) tabs = ChosenTab t0 ∧
            check_chosen (choose (Some x) tabs) = guard t0) ∧
   ((∀ t, t ∈ tabs → targetId t ≠ x) →
      match matches with
      | [] =>
          resolve_or_throw x tabs = inl (Error "tab not found") ∧
          check_chosen (choose (Some x) tabs) = inl (Error "tab not found")
      | [only] =>
          resolve_or_throw x tabs = inr (targetId only) ∧
          choose (Some x) tabs = ChosenTab only ∧
          check_chosen (choose (Some x) tabs) = guard only
      | _ :: _ :: _ =>
          resolve_or_throw x tabs = inl (Error "ambiguous target id prefix") ∧
          check_chosen (choose (Some x) tabs) =
            inl (Error "ambiguous target id prefix")
      end)).
Proof.
  intros guard matches. split.
  - intros id Hid. unfold choose. rewrite Hid. by destruct (head tabs).
  - intros Hx. pose proof (truthy_nonempty x Hx) as Htr. split.
    + intros t Hin Hid.
      destruct (find_exact x tabs t Hin Hid) as (t0 & Hfind & Hin0 & Hid0).
      unfold resolve_or_throw, choose, resolveTargetIdFromTabs. simpl.
      rewrite Htr, Hfind, Hid0, Hfind. split; [done|].
      exists t0. repeat split; try done.
      intros Hnd. apply (NoDup_fmap_inj_on targetId tabs); congruence.
    + intros Hno. pose proof (find_no_exact x tabs Hno) as Hfind.
      unfold resolve_or_throw, choose, resolveTargetIdFromTabs. simpl.
      rewrite Htr, Hfind. subst matches.
      destruct (List.filter _ tabs) as [|only [|second rest]] eqn:Hf; try done.
      by rewrite (find_only_match x tabs only Hf).
Qed.

End ResolutionFacts.

(** ** Opening a tab *)

Section OpenTabFacts.
Import ServerContext OpenTabTrace.

Variable env : Env.

Lemma fetchJson_run url_ timeoutMs method w :
  fetchJson env url_ timeoutMs method w =
    (json_outcome (fetch_result env ((now w, CallFetch url_ method timeoutMs) :: calls w)),
     called env (CallFetch url_ method timeoutMs) 0 w).
Proof.
  unfold fetchJson, fetch, mbind, M_bind. rewrite external_run.
  unfold json_outcome. destruct (fetch_result env _) as [e|res]; [done|].
  simpl. destruct (ok res); [|done]. simpl. by destruct (json res).
Qed.

Lemma listTabs_run w s :
  server_state w = Some s →
  ∃ r, listTabs env w =
         (r, called env (CallFetch (listing_url s) None 1500) 0 w).
Proof.
  intros Hs. unfold listTabs, mbind, M_bind.
  rewrite (state_started w s Hs), fetchJson_run.
  destruct (json_outcome _) as [[]|]; by eexists.
Qed.

Lemma listTabs_caught w s :
  server_state w = Some s →
  ∃ tabs, catch (listTabs env) (λ _, mret []) w =
            (Return tabs, called env (CallFetch (listing_url s) None 1500) 0 w) ∧
          (tabs = [] ∨
           listTabs env w =
             (Return tabs, called env (CallFetch (listing_url s) None 1500) 0 w)).
Proof.
  intros Hs. unfold catch. destruct (listTabs_run w s Hs) as [[tabs|e] ->].
  - exists tabs. by split; [|right].
  - exists []. by split; [|left].
Qed.

Lemma called_now c extra w :
  now (called env c extra w) =
    now w + extra + Z.of_N (elapsed env ((now w, c) :: calls w)).
Proof. done. Qed.

(** The polling loop never runs out of fuel when it has a unit of it
    per millisecond left, and then: it returns; it leaves the server
    state and the connection alone; its calls are rounds as
    [poll_trace] has them; and it returns a tab with the id looked
    for, or nothing once the deadline has passed. *)
Lemma poll_fuel fuel deadline id w s :
  server_state w = Some s →
  deadline - now w ≤ Z.of_nat fuel →
  ∃ r w' trace,
    poll env fuel deadline id w = (Return r, w') ∧
    calls w' = rev trace ++ calls w ∧
    server_state w' = Some s ∧ pw w' = pw w ∧
    poll_trace (listing_url s) deadline (now w) trace (now w') ∧
    match r with
    | Some found =>
        targetId found = id ∧
        ∃ before tabs, listTabs env before = (Return tabs, w') ∧ found ∈ tabs
    | None => deadline ≤ now w'
    end.
Proof.
  revert w. induction fuel as [|fuel IH]; intros w Hs Hfuel.
  - exists None, w, []. simpl. unfold mbind, M_bind, Date_now.
    destruct (Z.ltb_spec (now w) deadline) as [Hlt|Hge]; [lia|].
    repeat split; try done. constructor.
  - simpl. unfold mbind, M_bind, Date_now.
    destruct (Z.ltb_spec (now w) deadline) as [Hlt|Hge].
    + destruct (listTabs_caught w s Hs) as (tabs & -> & Hlisted).
      set (w1 := called env (CallFetch (listing_url s) None 1500) 0 w) in *.
      assert (now w ≤ now w1) as Hw1 by (subst w1; rewrite called_now; lia).
      destruct (List.find _ tabs) as [found|] eqn:Hfind.
      * exists (Some found), w1, [(now w, CallFetch (listing_url s) None 1500)].
        apply find_some in Hfind as [Hin Hid].
        repeat split; try done.
        -- by constructor.
        -- by apply bool_decide_eq_true in Hid.
        -- exists w, tabs. destruct Hlisted as [->|Hlisted]; [done|].
           split; [done|]. by apply list_elem_of_In.
      * unfold sleep, mbind, M_bind. rewrite external_run.
        set (w2 := called env (CallSleep 100) 100 w1).
        assert (now w1 + 100 ≤ now w2) as Hw2 by (subst w2; rewrite called_now; lia).
        destruct (IH w2) as (r & w' & trace & Hrun & Hcalls & Hs' & Hpw & Htrace & Hr);
          [done|lia|].
        simpl. rewrite Hrun.
        exists r, w',
          ((now w, CallFetch (listing_url s) None 1500)
             :: (now w1, CallSleep 100) :: trace).
        repeat split; try done.
        -- rewrite Hcalls. simpl. by rewrite <- !app_assoc.
        -- by econstructor.
    + exists None, w, []. repeat split; try done. constructor.
Qed.

(** Rounds that start at least 100ms apart and before the deadline:
    there are at most as many listing requests as there are hundreds
    of milliseconds to the deadline. *)
Lemma poll_trace_polls u deadline t trace t' :
  poll_trace u deadline t trace t' →
  let n := Z.of_nat (length (List.filter is_poll trace)) in
  n = 0 ∨ t + 100 * (n - 1) < deadline.
Proof.
  induction 1 as [t|t t' Hlt Hle|t t1 t2 rest t' Hlt H1 H2 Hrest IH]; simpl.
  - by left.
  - right. lia.
  - right. simpl in IH. destruct IH as [IH|IH]; lia.
Qed.

Lemma openTab_discover_spec id url_ w s :
  server_state w = Some s →
  ∃ tab w' trace,
    openTab_discover env id url_ w = (Return tab, w') ∧
    calls w' = rev trace ++ calls w ∧
    server_state w' = Some s ∧ pw w' = pw w ∧
    poll_trace (listing_url s) (now w + 2000) (now w) trace (now w') ∧
    (length (List.filter is_poll trace) ≤ 20)%nat ∧
    targetId tab = id ∧
    ((tab = stub id url_ ∧ now w + 2000 ≤ now w') ∨
     (∃ before tabs, listTabs env before = (Return tabs, w') ∧ tab ∈ tabs)).
Proof.
  intros Hs. unfold openTab_discover, mbind, M_bind, Date_now.
  destruct (poll_fuel (Z.to_nat (now w + 2000 - now w)) (now w + 2000) id w s Hs)
    as (r & w' & trace & -> & Hcalls & Hs' & Hpw & Htrace & Hr); [lia|].
  assert (length (List.filter is_poll trace) ≤ 20)%nat as Hcount.
  { pose proof (poll_trace_polls _ _ _ _ _ Htrace) as Hn. simpl in Hn. lia. }
  destruct r as [found|].
  - destruct Hr as [Hid Hfrom]. exists found, w', trace.
    repeat split; try done. by right.
  - exists (stub id url_), w', trace. repeat split; try done. by left.
Qed.

Lemma truthy_opt_default (o : option string) :
  truthy_opt o = true → default "" o ≠ "".
Proof. by destruct o as [[]|]. Qed.

(** What the [/json/new] branch makes of a JSON answer. *)
Lemma created_outcome url_ (j : Json) (result : Outcome BrowserTab) w :
  match j with
  | JTarget t =>
      if truthy_opt (cdp_id t) then mret (created_tab url_ t)
      else throw (Error "Failed to open tab (missing id)")
  | JTargets _ | JOther => throw (Error "Failed to open tab (missing id)")
  | JNull =>
      throw (MkJsError "TypeError" "Cannot read properties of null (reading 'id')")
  end w = (result, w) →
  (∀ tab, result = Return tab →
     targetId tab ≠ "" ∧ ∃ t, j = JTarget t ∧ tab = created_tab url_ t) ∧
  (∀ t, j = JTarget t → truthy_opt (cdp_id t) = false →
     result = Throw (Error "Failed to open tab (missing id)")).
Proof.
  destruct j as [ts|t| |]; simpl.
  - intros [= <-]. by split.
  - destruct (truthy_opt (cdp_id t)) eqn:Ht; intros [= <-]; split.
    + intros tab [= <-]. split; [by apply truthy_opt_default|by exists t].
    + intros t' [= <-]. congruence.
    + done.
    + done.
  - intros [= <-]. by split.
  - intros [= <-]. by split.
Qed.

Lemma json_outcome_Return answered j :
  json_outcome answered = Return j ↔
  ∃ res, answered = inr res ∧ ok res = true ∧ json res = inr j.
Proof.
  unfold json_outcome. split.
  - destruct answered as [e|res]; [done|].
    destruct (ok res) eqn:Hok; [|done].
    destruct (json res) as [e|j'] eqn:Hj; [done|].
    intros [= <-]. by exists res.
  - intros (res & -> & -> & ->). done.
Qed.

(** The [/json/new] branch: a [PUT] first; a [GET] on the same URL if
    and only if the error of the [PUT] reads as HTTP 405, which it does
    when the answer was a 405 response; a tab is returned only from an
    accepted answer that carries a non-empty id, and an accepted answer
    whose target has none makes the branch throw. *)
Lemma openTab_rest_spec s url_ w :
  let put := CallFetch (create_url s url_) (Some "PUT") 1500 in
  let get := CallFetch (create_url s url_) None 1500 in
  let w1 := called env put 0 w in
  let result := fst (openTab_rest env s url_ w) in
  let w' := snd (openTab_rest env s url_ w) in
  (calls w' = (now w, put) :: calls w ∨
   calls w' = (now w1, get) :: (now w, put) :: calls w) ∧
  (∀ res, fetch_result env ((now w, put) :: calls w) = inr res →
          ok res = false → status res = 405 →
          calls w' = (now w1, get) :: (now w, put) :: calls w) ∧
  (∀ tab, result = Return tab →
          targetId tab ≠ "" ∧
          ∃ res t, fetch_result env (calls w') = inr res ∧ ok res = true ∧
                   json res = inr (JTarget t) ∧ tab = created_tab url_ t) ∧
  (∀ res t, fetch_result env (calls w') = inr res → ok res = true →
            json res = inr (JTarget t) → truthy_opt (cdp_id t) = false →
            result = Throw (Error "Failed to open tab (missing id)")) ∧
  server_state w' = server_state w ∧ pw w' = pw w.
Proof.
  intros put get w1 result w'. subst result w'.
  unfold openTab_rest, catch, mbind, M_bind. rewrite fetchJson_run.
  fold put. fold w1.
  set (A_put := fetch_result env ((now w, put) :: calls w)).
  destruct (json_outcome A_put) as [j|e] eqn:Hput.
  - (* the PUT was accepted *)
    match goal with
    | |- context [ (?body w1).1 ] =>
        destruct (body w1) as [result w'] eqn:Hbody
    end.
    assert (w' = w1) as ->.
    { destruct j as [?|t| |]; simpl in Hbody; try (by injection Hbody).
      destruct (truthy_opt (cdp_id t)); by injection Hbody. }
    destruct (created_outcome url_ j result w1 Hbody) as [Hret Hmiss].
    simpl. split; [by left|]. split; [|split; [|split]].
    + intros res Hres Hok _. apply json_outcome_Return in Hput as (res' & Hres' & Hok' & _).
      congruence.
    + intros tab Htab. destruct (Hret tab Htab) as (Hid & t & -> & ->).
      split; [done|]. apply json_outcome_Return in Hput as (res & Hres & Hok & Hj).
      by exists res, t.
    + intros res t Hres Hok Hj Hno. apply Hmiss with t; [|done].
      assert (json_outcome A_put = Return (JTarget t)) as Hput'.
      { apply json_outcome_Return. by exists res. }
      congruence.
    + done.
  - destruct (includes "HTTP 405" (String_of_error e)) eqn:H405.
    + (* the PUT failed as 405: GET *)
      rewrite fetchJson_run. fold get.
      set (w2 := called env get 0 w1).
      set (A_get := fetch_result env ((now w1, get) :: calls w1)).
      destruct (json_outcome A_get) as [j|e'] eqn:Hget.
      * match goal with
        | |- context [ (?body w2).1 ] =>
            destruct (body w2) as [result w'] eqn:Hbody
        end.
        assert (w' = w2) as ->.
        { destruct j as [?|t| |]; simpl in Hbody; try (by injection Hbody).
          destruct (truthy_opt (cdp_id t)); by injection Hbody. }
        destruct (created_outcome url_ j result w2 Hbody) as [Hret Hmiss].
        simpl. split; [by right|]. split; [done|]. split; [|split].
        -- intros tab Htab. destruct (Hret tab Htab) as (Hid & t & -> & ->).
           split; [done|].
           apply json_outcome_Return in Hget as (res & Hres & Hok & Hj).
           by exists res, t.
        -- intros res t Hres Hok Hj Hno. apply Hmiss with t; [|done].
           assert (json_outcome A_get = Return (JTarget t)) as Hget'.
           { apply json_outcome_Return. by exists res. }
           congruence.
        -- done.
      * simpl. split; [by right|]. split; [done|]. split; [done|]. split; [|done].
        intros res t Hres Hok Hj _.
        assert (json_outcome A_get = Return (JTarget t)) as Hget'.
        { apply json_outcome_Return. by exists res. }
        congruence.
    + (* the PUT failed otherwise *)
      simpl. split; [by left|]. split; [|split; [done|split; [|done]]].
      * intros res Hres Hok Hst. exfalso.
        unfold json_outcome in Hput. fold A_put in Hres. rewrite Hres, Hok, Hst in Hput.
        injection Hput as <-. by vm_compute in H405.
      * intros res t Hres Hok Hj _.
        assert (json_outcome A_put = Return (JTarget t)) as Hput'.
        { apply json_outcome_Return. by exists res. }
        congruence.
Qed.

Lemma openTab_unfold url_ w s :
  server_state w = Some s →
  let create := CallCreateTarget (cdpPort s) url_ in
  let w0 := called env create 0 w in
  openTab env url_ w =
    match createTargetViaCdp_result env ((now w, create) :: calls w) with
    | inr id =>
        if truthy id then openTab_discover env id url_ w0
        else openTab_rest env s url_ w0
    | inl _ => openTab_rest env s url_ w0
    end.
Proof.
  intros Hs create w0. unfold openTab, createTargetViaCdp, catch, mbind, M_bind.
  rewrite (state_started w s Hs), external_run. fold create. fold w0.
  destruct (createTargetViaCdp_result env _) as [e|id]; [done|].
  simpl. by destruct (truthy id).
Qed.

(** Whatever else [openTab] does, its first call is the raw-protocol
    creation. *)
Lemma openTab_first_call url_ w s :
  server_state w = Some s →
  ∃ later,
    calls (snd (openTab env url_ w)) =
      later ++ (now w, CallCreateTarget (cdpPort s) url_) :: calls w.
Proof.
  intros Hs. rewrite (openTab_unfold url_ w s Hs).
  set (create := CallCreateTarget (cdpPort s) url_).
  set (w0 := called env create 0 w).
  set (put := CallFetch (create_url s url_) (Some "PUT") 1500).
  assert (server_state w0 = Some s) as Hs0 by done.
  assert (∃ later, calls (snd (openTab_rest env s url_ w0)) =
                     later ++ (now w, create) :: calls w) as Hrest.
  { destruct (openTab_rest_spec s url_ w0) as ([-> | ->] & _).
    - by exists [(now w0, put)].
    - by exists [(now (called env put 0 w0),
                  CallFetch (create_url s url_) None 1500); (now w0, put)]. }
  destruct (createTargetViaCdp_result env _) as [e|id]; [done|].
  destruct (truthy id); [|done].
  destruct (openTab_discover_spec id url_ w0 s Hs0)
    as (tab & w'' & trace & -> & Hcalls & _). simpl. rewrite Hcalls.
  by exists (rev trace).
Qed.

(** What [listTabs().catch(() => [])] gives. *)
Lemma listTabs_seen w s :
  server_state w = Some s →
  catch (listTabs env) (λ _, mret []) w =
    (Return (listing_seen (fst (listTabs env w))),
     called env (CallFetch (listing_url s) None 1500) 0 w).
Proof.
  intros Hs. unfold catch. destruct (listTabs_run w s Hs) as [[tabs|e] ->]; done.
Qed.

(** The loop is the one [polled] describes. *)
Lemma poll_polled fuel deadline id w s :
  server_state w = Some s →
  deadline - now w ≤ Z.of_nat fuel →
  ∃ r w', poll env fuel deadline id w = (Return r, w') ∧
          polled env s deadline id w r w'.
Proof.
  revert w. induction fuel as [|fuel IH]; intros w Hs Hfuel.
  - exists None, w. simpl. unfold mbind, M_bind, Date_now.
    destruct (Z.ltb_spec (now w) deadline) as [Hlt|Hge]; [lia|].
    split; [done|]. by constructor.
  - simpl. unfold mbind, M_bind, Date_now.
    destruct (Z.ltb_spec (now w) deadline) as [Hlt|Hge].
    + rewrite (listTabs_seen w s Hs).
      set (w1 := called env (CallFetch (listing_url s) None 1500) 0 w) in *.
      assert (now w ≤ now w1) as Hw1 by (subst w1; rewrite called_now; lia).
      destruct (List.find _ (listing_seen _)) as [found|] eqn:Hfind.
      * exists (Some found), w1. split; [done|]. by constructor.
      * unfold sleep, mbind, M_bind. rewrite external_run.
        set (w2 := called env (CallSleep 100) 100 w1).
        assert (now w1 + 100 ≤ now w2) as Hw2 by (subst w2; rewrite called_now; lia).
        destruct (IH w2) as (r & w' & Hrun & Hpolled); [done|lia|].
        simpl. rewrite Hrun. exists r, w'. split; [done|].
        by apply polled_round.
    + exists None, w. split; [done|]. by constructor.
Qed.

Lemma openTab_discover_polled id url_ w s :
  server_state w = Some s →
  ∃ r w', openTab_discover env id url_ w =
            (Return (match r with Some found => found | None => stub id url_ end), w') ∧
          polled env s (now w + 2000) id w r w'.
Proof.
  intros Hs. unfold openTab_discover, mbind, M_bind, Date_now.
  destruct (poll_polled (Z.to_nat (now w + 2000 - now w)) (now w + 2000) id w s Hs)
    as (r & w' & -> & Hpolled); [lia|].
  exists r, w'. split; [|done]. by destruct r.
Qed.

(** The [/json/new] branch, case by case. *)
Lemma openTab_rest_unfold s url_ w :
  let put := CallFetch (create_url s url_) (Some "PUT") 1500 in
  let get := CallFetch (create_url s url_) None 1500 in
  let w1 := called env put 0 w in
  let w2 := called env get 0 w1 in
  openTab_rest env s url_ w =
    match json_outcome (fetch_result env ((now w, put) :: calls w)) with
    | Return j => (created_result url_ j, w1)
    | Throw e =>
        if includes "HTTP 405" (String_of_error e) then
          match json_outcome (fetch_result env ((now w1, get) :: calls w1)) with
          | Return j => (created_result url_ j, w2)
          | Throw e' => (Throw e', w2)
          end
        else (Throw e, w1)
    end.
Proof.
  intros put get w1 w2.
  assert (∀ j w', match j with
                  | JTarget t =>
                      if truthy_opt (cdp_id t) then mret (created_tab url_ t)
                      else throw (Error "Failed to open tab (missing id)")
                  | JTargets _ | JOther => throw (Error "Failed to open tab (missing id)")
                  | JNull =>
                      throw (MkJsError "TypeError" "Cannot read properties of null (reading 'id')")
                  end w' = (created_result url_ j, w')) as Hcreated.
  { intros [ts|t| |] w'; try done. simpl. by destruct (truthy_opt (cdp_id t)). }
  unfold openTab_rest, catch, mbind, M_bind. rewrite fetchJson_run.
  fold put. fold w1.
  destruct (json_outcome (fetch_result env ((now w, put) :: calls w))) as [j|e].
  - apply Hcreated.
  - destruct (includes "HTTP 405" (String_of_error e)); [|done].
    rewrite fetchJson_run. fold get. fold w2.
    destruct (json_outcome (fetch_result env ((now w1, get) :: calls w1))) as [j|e'];
      [apply Hcreated|done].
Qed.

(** C5.  On a started control plane [openTab] first asks for the
    target over the raw protocol.  If that fails (or gives no id) it
    sends a [PUT] to the create-tab endpoint and nothing more, unless
    the failure of the [PUT] reads as HTTP 405, as it does for a 405
    response: then it sends a [GET] to the same URL and nothing more.
    A failure of the [PUT] that does not read as HTTP 405, and a
    failure of the [GET], is the failure of the call.  From the
    accepted answer of the last request it returns the tab descriptor
    made of the target, which has the target's non-empty id, and it
    throws when the answer carries no id.  If the raw call gave an id
    it always returns a tab with that id: the loop lists the tabs while
    the deadline of 2000ms has not passed, returns the first tab listed
    with the id, sleeps 100ms after a listing without it (a failed
    listing counts as empty), and once the deadline has passed the call
    returns the stub made of the id, the requested url and type
    ["page"]; there are at most twenty listing requests in all. *)
Theorem openTab_protocol (url_ : string) (w : World) (s : BrowserServerState) :
  server_state w = Some s →
  let create := CallCreateTarget (cdpPort s) url_ in
  let w0 := called env create 0 w in
  let created := createTargetViaCdp_result env ((now w, create) :: calls w) in
  let put := CallFetch (create_url s url_) (Some "PUT") 1500 in
  let get := CallFetch (create_url s url_) None 1500 in
  let w1 := called env put 0 w0 in
  let put_outcome := json_outcome (fetch_result env ((now w0, put) :: calls w0)) in
  let get_outcome := json_outcome (fetch_result env ((now w1, get) :: calls w1)) in
  let result := fst (openTab env url_ w) in
  let w' := snd (openTab env url_ w) in
  (∃ later, calls w' = later ++ (now w, create) :: calls w) ∧
  ((∀ id, created = inr id → id = "") →
   (calls w' = (now w0, put) :: calls w0 ∨
    calls w' = (now w1, get) :: (now w0, put) :: calls w0) ∧
   (∀ res, fetch_result env ((now w0, put) :: calls w0) = inr res →
           ok res = false → status res = 405 →
           calls w' = (now w1, get) :: (now w0, put) :: calls w0) ∧
   (∀ tab, result = Return tab →
           targetId tab ≠ "" ∧
           ∃ res t, fetch_result env (calls w') = inr res ∧ ok res = true ∧
                    json res = inr (JTarget t) ∧ tab = created_tab url_ t) ∧
   (∀ res t, fetch_result env (calls w') = inr res → ok res = true →
             json res = inr (JTarget t) → truthy_opt (cdp_id t) = false →
             result = Throw (Error "Failed to open tab (missing id)")) ∧
   (∀ j, put_outcome = Return j → calls w' = (now w0, put) :: calls w0) ∧
   (∀ e, put_outcome = Throw e →
         includes "HTTP 405" (String_of_error e) = false →
         calls w' = (now w0, put) :: calls w0 ∧ result = Throw e) ∧
   (∀ e, put_outcome = Throw e →
         includes "HTTP 405" (String_of_error e) = true →
         calls w' = (now w1, get) :: (now w0, put) :: calls w0 ∧
         ∀ e', get_outcome = Throw e' → result = Throw e') ∧
   (∀ res j, fetch_result env (calls w') = inr res → ok res = true →
             json res = inr j →
             match j with
             | JTarget t =>
                 if truthy_opt (cdp_id t)
                 then result = Return (created_tab url_ t) ∧
                      targetId (created_tab url_ t) = default "" (cdp_id t) ∧
                      targetId (created_tab url_ t) ≠ ""
                 else result = Throw (Error "Failed to open tab (missing id)")
             | JTargets _ | JOther =>
                 result = Throw (Error "Failed to open tab (missing id)")
             | JNull =>
                 result = Throw (MkJsError "TypeError"
                                   "Cannot read properties of null (reading 'id')")
             end)) ∧
  (∀ id, created = inr id → id ≠ "" →
     ∃ tab trace,
       result = Return tab ∧ targetId tab = id ∧
       calls w' = rev trace ++ calls w0 ∧
       poll_trace (listing_url s) (now w0 + 2000) (now w0) trace (now w') ∧
       (length (List.filter is_poll trace) ≤ 20)%nat ∧
       ((tab = stub id url_ ∧ now w0 + 2000 ≤ now w') ∨
        (∃ before tabs, listTabs env before = (Return tabs, w') ∧ tab ∈ tabs)) ∧
       ∃ found, polled env s (now w0 + 2000) id w0 found w' ∧
                tab = match found with
                      | Some listed => listed
                      | None => stub id url_
                      end).
Proof.
  intros Hs create w0 created put get w1 put_outcome get_outcome result w'.
  assert (server_state w0 = Some s) as Hs0 by done.
  pose proof (openTab_unfold url_ w s Hs) as Hopen. cbv zeta in Hopen.
  fold create w0 created in Hopen.
  assert (truthy "" = false) as Hempty by done.
  split; [|split].
  - by apply openTab_first_call.
  - intros Hnone.
    assert (openTab env url_ w = openTab_rest env s url_ w0) as Hrest.
    { rewrite Hopen. destruct created as [e|id] eqn:Hc; [done|].
      by rewrite (Hnone id eq_refl). }
    subst result w'. rewrite Hrest.
    destruct (openTab_rest_spec s url_ w0) as (H1 & H2 & H3 & H4 & _).
    do 4 (split; [done|]). clear H1 H2 H3 H4.
    pose proof (openTab_rest_unfold s url_ w0) as Hexact. cbv zeta in Hexact.
    fold put get w1 put_outcome in Hexact.
    change (json_outcome (fetch_result env ((now w1, get) :: calls w1)))
      with get_outcome in Hexact.
    assert (∀ res j, ok res = true → json res = inr j →
              json_outcome (inr res) = Return j) as Haccepted.
    { intros res j Hok Hj. unfold json_outcome. by rewrite Hok, Hj. }
    assert (∀ j r,
              r = created_result url_ j →
              match j with
              | JTarget t =>
                  if truthy_opt (cdp_id t)
                  then r = Return (created_tab url_ t) ∧
                       targetId (created_tab url_ t) = default "" (cdp_id t) ∧
                       targetId (created_tab url_ t) ≠ ""
                  else r = Throw (Error "Failed to open tab (missing id)")
              | JTargets _ | JOther =>
                  r = Throw (Error "Failed to open tab (missing id)")
              | JNull =>
                  r = Throw (MkJsError "TypeError"
                               "Cannot read properties of null (reading 'id')")
              end) as Hmade.
    { intros [ts|t| |] r ->; try done. simpl.
      destruct (truthy_opt (cdp_id t)) eqn:Ht; [|done].
      split; [done|]. split; [done|]. by apply truthy_opt_default. }
    rewrite Hexact. clear Hexact Hrest.
    destruct put_outcome as [j|e] eqn:Hput.
    + split; [done|]. split; [done|]. split; [done|].
      intros res j' Hres Hok Hj. cbn [snd] in Hres.
      change (calls w1) with ((now w0, put) :: calls w0) in Hres.
      apply Hmade. cbn [fst]. f_equal.
      unfold put_outcome in Hput. rewrite Hres, (Haccepted res j' Hok Hj) in Hput.
      congruence.
    + split; [done|].
      destruct (includes "HTTP 405" (String_of_error e)) eqn:H405.
      * destruct get_outcome as [j|e'] eqn:Hget.
        -- split; [intros e0 [= <-] Hnot; congruence|].
           split; [by intros e0 [= <-] _|].
           intros res j' Hres Hok Hj. cbn [snd] in Hres.
           change (calls (called env get 0 w1))
             with ((now w1, get) :: calls w1) in Hres.
           apply Hmade. cbn [fst]. f_equal.
           unfold get_outcome in Hget.
           rewrite Hres, (Haccepted res j' Hok Hj) in Hget. congruence.
        -- split; [intros e0 [= <-] Hnot; congruence|].
           split; [intros e0 [= <-] _; split; [done|]; by intros e1 [= <-]|].
           intros res j' Hres Hok Hj. cbn [snd] in Hres. exfalso.
           change (calls (called env get 0 w1))
             with ((now w1, get) :: calls w1) in Hres.
           unfold get_outcome in Hget.
           rewrite Hres, (Haccepted res j' Hok Hj) in Hget. congruence.
      * split; [by intros e0 [= <-] _|].
        split; [intros e0 [= <-] Hyes; congruence|].
        intros res j' Hres Hok Hj. cbn [snd] in Hres. exfalso.
        change (calls w1) with ((now w0, put) :: calls w0) in Hres.
        unfold put_outcome in Hput.
        rewrite Hres, (Haccepted res j' Hok Hj) in Hput. congruence.
  - intros id Hc Hid. subst result w'. rewrite Hopen, Hc.
    rewrite (truthy_nonempty id Hid).
    destruct (openTab_discover_spec id url_ w0 s Hs0)
      as (tab & w'' & trace & Hrun & Hcalls & _ & _ & Htrace & Hcount & Htab & Hkind).
    destruct (openTab_discover_polled id url_ w0 s Hs0)
      as (found & w3 & Hrun' & Hpolled).
    rewrite Hrun in Hrun'. injection Hrun' as -> ->. rewrite Hrun.
    exists (match found with Some listed => listed | None => stub id url_ end), trace.
    repeat (split; [done|]). by exists found.
Qed.

Lemma listTabs_started w tabs w' :
  listTabs env w = (Return tabs, w') →
  ∃ s, server_state w = Some s ∧ server_state w' = Some s.
Proof.
  destruct (server_state w) as [s|] eqn:Hs.
  - destruct (listTabs_run w s Hs) as [r ->]. intros [= -> <-]. by exists s.
  - unfold listTabs, mbind, M_bind. by rewrite (state_not_started w Hs).
Qed.

(** With tabs already listed, [ensureTabAvailable] opens nothing and
    decides on the second listing; [focusTab] decides on its listing and
    activates the id resolved. *)
Lemma ensureTabAvailable_decides id w w1 w2 w3 first rest tabs :
  ensureBrowserAvailable env w = (Return (), w1) →
  listTabs env w1 = (Return (first :: rest), w2) →
  listTabs env w2 = (Return tabs, w3) →
  ensureTabAvailable env id w =
    (match check_chosen (choose id tabs) with
     | inl e => Throw e
     | inr chosen => Return chosen
     end, w3).
Proof.
  intros H1 H2 H3. unfold ensureTabAvailable, mbind, M_bind.
  rewrite H1, H2. simpl. rewrite H3.
  by destruct (check_chosen (choose id tabs)).
Qed.

Lemma focusTab_decides x w w1 s tabs :
  server_state w = Some s →
  listTabs env w = (Return tabs, w1) →
  focusTab env x w =
    match resolve_or_throw x tabs with
    | inl e => (Throw e, w1)
    | inr id =>
        fetchOk env (base_url s +:+ "/json/activate/" +:+ id) 1500 None w1
    end.
Proof.
  intros Hs Hl. unfold focusTab, mbind, M_bind.
  rewrite (state_started w s Hs), Hl.
  by destruct (resolve_or_throw x tabs).
Qed.

(** C10 (as amended).  When the browser is available and the first
    listing is empty, [ensureTabAvailable] opens ["about:blank"]
    itself, beginning with the raw-protocol creation call, and lists
    again.  A failure of the opening or of the second listing is the
    failure of the call.  Otherwise the call is decided on the second
    listing: with an absent or empty identifier it returns the first
    tab of that listing if that tab has a non-empty channel address,
    and throws ["tab not found"] if it has none or if that listing is
    still empty. *)
Theorem ensureTabAvailable_opens_blank (id : option string) (w w1 w2 : World) :
  ensureBrowserAvailable env w = (Return (), w1) →
  listTabs env w1 = (Return [], w2) →
  let opened := fst (openTab env "about:blank" w2) in
  let w3 := snd (openTab env "about:blank" w2) in
  (∃ s later,
     server_state w2 = Some s ∧
     calls w3 =
       later ++ (now w2, CallCreateTarget (cdpPort s) "about:blank") :: calls w2) ∧
  ensureTabAvailable env id w =
    match opened with
    | Throw e => (Throw e, w3)
    | Return _ =>
        match listTabs env w3 with
        | (Throw e, w4) => (Throw e, w4)
        | (Return tabs, w4) =>
            (if truthy_opt id then
               match check_chosen (choose id tabs) with
               | inl e => Throw e
               | inr chosen => Return chosen
               end
             else
               match head tabs with
               | Some first =>
                   if truthy_opt (wsUrl first) then Return first
                   else Throw (Error "tab not found")
               | None => Throw (Error "tab not found")
               end,
             w4)
        end
    end.
Proof.
  intros Hensure Hlist opened w3. split.
  - destruct (listTabs_started w1 [] w2 Hlist) as (s & _ & Hs2).
    destruct (openTab_first_call "about:blank" w2 s Hs2) as [later Hlater].
    by exists s, later.
  - unfold ensureTabAvailable, mbind, M_bind. rewrite Hensure, Hlist. simpl.
    subst opened w3.
    destruct (openTab env "about:blank" w2) as [[tab|e] w3]; simpl; [|done].
    destruct (listTabs env w3) as [[tabs|e] w4]; [|done].
    destruct (truthy_opt id) eqn:Hid.
    + by destruct (check_chosen (choose id tabs)).
    + unfold choose. rewrite Hid.
      destruct (head tabs) as [first|]; simpl; [|done].
      by destruct (truthy_opt (wsUrl first)).
Qed.

End OpenTabFacts.

(** ** The properties at concrete worlds *)

Section Instances.
Import PwSession ServerContext OpenTabTrace Scenarios.

(** Target resolution: a listed tab with exactly the id asked for, but
    without a channel address, is reported as not found by
    [ensureTabAvailable]. *)
Lemma exact_match_without_channel_not_returned :
  fst (listTabs attached_env (idle_world true)) = Return [demo_tab "abcd1234" None] ∧
  targetId (demo_tab "abcd1234" None) = "abcd1234" ∧
  check_chosen (choose (Some "abcd1234") [demo_tab "abcd1234" None])
    = inl (Error "tab not found") ∧
  fst (ensureTabAvailable attached_env (Some "abcd1234") (idle_world true))
    = Throw (Error "tab not found").
Proof. repeat split; vm_compute; reflexivity. Qed.

(** The listing of the test-suite: two tabs sharing the prefix ["abc"]. *)
Example resolution_of_test_listing :
  let tabs := [demo_tab "abcd1234" (ws_of "abcd1234");
               demo_tab "abce9999" (ws_of "abce9999")] in
  resolve_or_throw "abc" tabs = inl (Error "ambiguous target id prefix") ∧
  resolve_or_throw "abcd" tabs = inr "abcd1234" ∧
  resolve_or_throw "zzz" tabs = inl (Error "tab not found") ∧
  mapTabError (Error "ambiguous target id prefix")
    = Some (409, "ambiguous target id prefix") ∧
  mapTabError (Error "tab not found") = Some (404, "tab not found").
Proof. repeat split. Qed.

Lemma target_resolution_witness :
  check_chosen (choose (Some "abcd")
                  [demo_tab "abcd1234" (ws_of "abcd1234");
                   demo_tab "abce9999" (ws_of "abce9999")])
    = inr (demo_tab "abcd1234" (ws_of "abcd1234")).
Proof.
  destruct (target_resolution "abcd"
              [demo_tab "abcd1234" (ws_of "abcd1234");
               demo_tab "abce9999" (ws_of "abce9999")]) as [_ H].
  destruct (H ltac:(done)) as [_ Hprefix].
  apply Hprefix.
  intros t [->|[->|[]%elem_of_nil]%elem_of_cons]%elem_of_cons; done.
Defined.

Lemma histories_bounded_fifo_witness :
  is_Some (pageStates (recorder_run [EvTouch 1%nat] empty_recorder) !! 1%nat) ∧
  console_of 1%nat
    (recorder_step (EvConsole 1%nat demo_message)
       (recorder_run [EvTouch 1%nat] empty_recorder))
    = [demo_message].
Proof.
  assert (is_Some (pageStates (recorder_run [EvTouch 1%nat] empty_recorder) !! 1%nat))
    as Hobs by (vm_compute; eauto).
  split; [exact Hobs|].
  destruct (histories_bounded_fifo [EvTouch 1%nat] 1%nat) as (_ & _ & H).
  destruct (H Hobs) as [Hconsole _]. rewrite Hconsole. reflexivity.
Defined.

Lemma single_flight_witness :
  run [] initial = Some initial ∧
  ∃ s2, run [LConnect demo_endpoint; LConnect demo_endpoint] initial = Some s2 ∧
        run [LConnect demo_endpoint] initial = Some s2 ∧
        connect_calls s2 = 1%nat.
Proof.
  split; [reflexivity|].
  destruct (single_flight [] initial demo_endpoint eq_refl) as (_ & _ & H).
  eexists. split; [reflexivity|].
  destruct (H _ _ eq_refl eq_refl) as (Hsame & _ & Hcalls).
  split; [by rewrite Hsame|exact Hcalls].
Defined.

(** The connection.  The control plane has launched a browser and
    tracks it, and [connectBrowser] has connected to it, so that the
    record is cached and the browser has its [disconnected] listener.
    [stopRunningBrowser] stops the browser; when the [disconnected]
    event has not been delivered by the time the stop is over, the
    record is still cached; when it has, the listener has dropped the
    record; [browser.close()] is called in neither case. *)
Lemma stop_keeps_cached_connection :
  running_world =
    snd (meanwhile MoreScenarios.connected_run
           (snd (ensureBrowserAvailable down_env (idle_world false)))) ∧
  run MoreScenarios.connected_run initial = Some (pw running_world) ∧
  server_state running_world = Some (demo_state false (Some (demo_chrome 101 1))) ∧
  cached (pw running_world) = Some demo_connected ∧
  fst (stopRunningBrowser_during down_env [] running_world)
    = Return {| stopped := true |} ∧
  cached (pw (snd (stopRunningBrowser_during down_env [] running_world)))
    = Some demo_connected ∧
  fst (route_stop_during down_env [] running_world) = Return (inl (true, true)) ∧
  cached (pw (snd (route_stop_during down_env [] running_world)))
    = Some demo_connected ∧
  cached (pw (snd (stopRunningBrowser_during down_env [LDisconnected 7%nat]
                     running_world))) = None ∧
  closeCalls (pw (snd (stopRunningBrowser_during down_env [LDisconnected 7%nat]
                         running_world))) = [] ∧
  closeCalls (pw (snd (stopRunningBrowser_during down_env [] running_world))) = [].
Proof. repeat split; vm_compute; reflexivity. Qed.

Lemma stop_leaves_connection_witness :
  server_state running_world = Some (demo_state false (Some (demo_chrome 101 1))) ∧
  running (demo_state false (Some (demo_chrome 101 1))) = Some (demo_chrome 101 1) ∧
  run [LDisconnected 7%nat] (pw running_world)
    = Some (set_cached None (pw running_world)) ∧
  ∃ w', stopRunningBrowser_during down_env [LDisconnected 7%nat] running_world
          = (Return {| stopped := true |}, w') ∧
        cached (pw w') = None ∧ closeCalls (pw w') = [] ∧
        cached (pw (snd (stopBrowserControlServer down_env running_world))) = None.
Proof.
  assert (run [LDisconnected 7%nat] (pw running_world)
          = Some (set_cached None (pw running_world))) as Hrun by reflexivity.
  split; [reflexivity|]. split; [reflexivity|]. split; [exact Hrun|].
  destruct (stop_leaves_connection down_env running_world
              (demo_state false (Some (demo_chrome 101 1))) (demo_chrome 101 1)
              [LDisconnected 7%nat] (set_cached None (pw running_world))
              eq_refl eq_refl Hrun)
    as (w' & Hstop & _ & _ & _ & Hpw & _ & _ & _ & _ & _ & Hshut).
  exists w'. split; [exact Hstop|]. rewrite Hpw.
  split; [reflexivity|]. split; [reflexivity|exact Hshut].
Defined.

Lemma ensureBrowserAvailable_never_launches_witness :
  server_state (idle_world true) = Some (demo_state true None) ∧
  ensureBrowserAvailable down_env (idle_world true)
    = (Throw (Error "Browser attachOnly is enabled and no browser is running."),
       called down_env (CallProbe 18792 300) 0 (idle_world true)) ∧
  launches (called down_env (CallProbe 18792 300) 0 (idle_world true)) = [].
Proof.
  split; [reflexivity|].
  destruct (ensureBrowserAvailable_never_launches down_env (idle_world true)
              (demo_state true None) eq_refl) as (_ & Hattach & _ & Hlaunches & _).
  split; [apply Hattach; reflexivity|exact Hlaunches].
Defined.

Lemma stopRunningBrowser_idempotent_witness :
  server_state running_world = Some (demo_state false (Some (demo_chrome 101 1))) ∧
  ∃ w', stopRunningBrowser tabless_env running_world
          = (Return {| stopped := true |}, w') ∧
        server_state w' = Some (demo_state false None) ∧
        stopRunningBrowser tabless_env w' = (Return {| stopped := false |}, w').
Proof.
  split; [reflexivity|].
  destruct (stopRunningBrowser_idempotent tabless_env running_world)
    as (w' & Hstop & Hstate & _ & Hagain).
  exists w'. split; [exact Hstop|]. split; [exact Hstate|exact Hagain].
Defined.

(** Stopping: on a control plane that is not started no process is
    tracked, and yet the call throws instead of returning
    [{stopped: false}]; the [/stop] route answers 500. *)
Lemma stopRunningBrowser_throws_when_not_started :
  server_state (world_of None initial) = None ∧
  stopRunningBrowser tabless_env (world_of None initial)
    = (Throw (Error "Browser server not started"), world_of None initial) ∧
  route_stop tabless_env (world_of None initial)
    = (Return (inr (500, "Error: Browser server not started")),
       world_of None initial).
Proof. repeat split. Qed.

(** Reachability: on a control plane that is not started the probe is
    not even made; the call throws. *)
Lemma isReachable_throws_when_not_started :
  isReachable tabless_env (Some 300) (world_of None initial)
    = (Throw (Error "Browser server not started"), world_of None initial).
Proof. reflexivity. Qed.

Lemma exit_observer_guarded_by_pid_witness :
  server_state relaunched_world = Some (demo_state false (Some (demo_chrome 102 2))) ∧
  exitListeners relaunched_world = [(1%nat, 101); (2%nat, 102)] ∧
  emit_exit 1%nat relaunched_world = (Return (), relaunched_world).
Proof.
  split; [reflexivity|]. split; [reflexivity|].
  destruct (exit_observer_guarded_by_pid down_env relaunched_world
              (demo_state false (Some (demo_chrome 102 2))) eq_refl)
    as (_ & _ & Hlate).
  apply (Hlate 1%nat (demo_chrome 102 2) eq_refl).
  intros launched_pid Hin Heq. simpl in Heq. subst launched_pid.
  vm_compute in Hin. by repeat (apply elem_of_cons in Hin as [[=]|Hin]);
    apply elem_of_nil in Hin.
Defined.

Lemma openTab_protocol_witness :
  server_state (idle_world false) = Some (demo_state false None) ∧
  (∃ tab, fst (openTab unlisted_env "https://example.com" (idle_world false))
            = Return tab ∧
          targetId tab = "abcd1234") ∧
  fst (openTab tabless_env "https://example.com" (idle_world false))
    = Return (created_tab "https://example.com"
                (demo_target "newtab1" (ws_of "newtab1"))).
Proof.
  split; [reflexivity|]. split.
  - destruct (openTab_protocol unlisted_env "https://example.com" (idle_world false)
                (demo_state false None) eq_refl) as (_ & _ & Hpoll).
    destruct (Hpoll "abcd1234" eq_refl ltac:(done))
      as (tab & trace & Hresult & Hid & _).
    exists tab. split; [exact Hresult|exact Hid].
  - destruct (openTab_protocol tabless_env "https://example.com" (idle_world false)
                (demo_state false None) eq_refl) as (_ & Hrest & _).
    destruct Hrest as (_ & H405 & _ & _ & _ & _ & _ & Haccepted).
    { intros id Hc. discriminate Hc. }
    specialize (H405 {| ok := false; status := 405; json := inr JOther |}
                  eq_refl eq_refl eq_refl).
    specialize (Haccepted
                  {| ok := true; status := 200;
                     json := inr (JTarget (demo_target "newtab1" (ws_of "newtab1"))) |}
                  (JTarget (demo_target "newtab1" (ws_of "newtab1")))).
    rewrite H405 in Haccepted.
    destruct (Haccepted eq_refl eq_refl eq_refl) as [Hresult _].
    exact Hresult.
Defined.

(** No tabs: the browser is up, the identifier is absent, the blank
    tab is opened, and the call still fails because the second
    listing is empty. *)
Lemma ensureTabAvailable_fails_for_lack_of_tabs :
  fst (isReachable tabless_env None (idle_world true)) = Return true ∧
  (∃ tab, fst (openTab tabless_env "about:blank" (idle_world true)) = Return tab) ∧
  fst (ensureTabAvailable tabless_env None (idle_world true))
    = Throw (Error "tab not found").
Proof. split; [|split]; [|eexists|]; vm_compute; reflexivity. Qed.

Lemma ensureTabAvailable_opens_blank_witness :
  let w1 := snd (ensureBrowserAvailable tabless_env (idle_world true)) in
  let w2 := snd (listTabs tabless_env w1) in
  ensureBrowserAvailable tabless_env (idle_world true) = (Return (), w1) ∧
  listTabs tabless_env w1 = (Return [], w2) ∧
  fst (ensureTabAvailable tabless_env None (idle_world true))
    = Throw (Error "tab not found").
Proof.
  intros w1 w2.
  assert (ensureBrowserAvailable tabless_env (idle_world true) = (Return (), w1))
    as H1 by reflexivity.
  assert (listTabs tabless_env w1 = (Return [], w2)) as H2 by reflexivity.
  split; [exact H1|]. split; [exact H2|].
  destruct (ensureTabAvailable_opens_blank tabless_env None (idle_world true) w1 w2 H1 H2)
    as [_ Heq].
  rewrite Heq. reflexivity.
Defined.

End Instances.

(** ** The life of a connection *)

Section ConnectionLifecycle.
Import PwSession ConnectionInv.

Lemma run_repeat_cached e c s n :
  cached_for e s = Some c → run (replicate n (LConnect e)) s = Some s.
Proof.
  intros Hc. induction n as [|n IH]; simpl; [done|].
  unfold connectBrowser. rewrite Hc. simpl. exact IH.
Qed.

(** X1.  A call made when no record for the endpoint is cached and no
    attempt is in flight asks for one connection; once that connection
    is there and the promise chain has settled, the record is cached.
    From then on, whatever the event loop runs, for as long as nothing
    takes the record away (the [disconnected] event of its browser, a
    call of [closePlaywrightBrowserConnection], or the [then] callback
    of another attempt), the record stays cached and a call for the
    endpoint returns it at once and changes nothing; no connection is
    asked for again unless a call is made for another endpoint. *)
Theorem connection_reused (s : State) (e : string) (b : Browser)
  (contexts : list (BrowserContext * list Page)) :
  cached_for e s = None → connecting s = None →
  let a := length (attempts s) in
  let connected := {| browser := b; endpoint := e |} in
  ∃ s3,
    run [LConnect e; LFulfil a b contexts; LFinally a] s = Some s3 ∧
    attempts s3 !! a =
      Some {| att_endpoint := e; att_status := Settled (inr connected) |} ∧
    cached s3 = Some connected ∧ connecting s3 = None ∧
    connect_calls s3 = S (connect_calls s) ∧
    connectBrowser e s3 = (ReturnCached connected, s3) ∧
    (∀ n, run (replicate n (LConnect e)) s3 = Some s3) ∧
    ∀ later s4,
      Forall (λ l, takes_away connected l = false) later →
      run later s3 = Some s4 →
      cached s4 = Some connected ∧
      connectBrowser e s4 = (ReturnCached connected, s4) ∧
      ((∀ e', LConnect e' ∈ later → e' = e) →
       connect_calls s4 = S (connect_calls s)).
Proof.
  intros Hc Hconn a connected.
  pose (s1 := {| cached := cached s; connecting := Some a;
                 attempts := attempts s ++ [{| att_endpoint := e; att_status := Pending |}];
                 disconnectedListeners := disconnectedListeners s;
                 closeCalls := closeCalls s; recorder := recorder s |}).
  assert (connectBrowser e s = (AwaitAttempt a, s1)) as Hcb.
  { unfold connectBrowser. by rewrite Hc, Hconn. }
  assert (attempts s1 !! a = Some {| att_endpoint := e; att_status := Pending |})
    as Ha by (by apply list_lookup_middle).
  set (s2 := then_callback a e b contexts s1).
  assert (attempts s2 !! a =
            Some {| att_endpoint := e; att_status := ThenDone connected |}) as Ha2.
  { unfold s2, then_callback. cbn [attempts]. fold (attempts s1).
    by rewrite list_lookup_alter_eq, Ha. }
  set (s3 := finally_callback a (inr connected) s2).
  assert (cached_for e s3 = Some connected) as Hcached.
  { unfold cached_for. simpl. by rewrite bool_decide_eq_true_2. }
  exists s3. split.
  { cbn [run step]. rewrite Hcb. cbn [mbind option_bind snd].
    rewrite Ha. cbn [mbind option_bind]. fold s2. by rewrite Ha2. }
  split.
  { unfold s3, finally_callback. cbn [attempts].
    by rewrite list_lookup_alter_eq, Ha2. }
  assert (connect_calls s3 = S (connect_calls s)) as Hcalls.
  { unfold connect_calls. simpl. rewrite !length_alter, length_app. simpl. lia. }
  split; [done|]. split; [done|]. split; [exact Hcalls|].
  split; [|split].
  - unfold connectBrowser. by rewrite Hcached.
  - intros n. by eapply run_repeat_cached.
  - intros later s4 Hkept Hrun.
    assert (cached s4 = Some connected) as Hstill.
    { by eapply (cached_kept_run connected later s3). }
    split; [exact Hstill|]. split.
    + unfold connectBrowser, cached_for. rewrite Hstill. simpl.
      by rewrite bool_decide_eq_true_2.
    + intros Hsame. rewrite <- Hcalls.
      by eapply (connect_calls_kept_run connected later s3).
Qed.

(** X2.  A connection that fails is not remembered: when the attempt
    has been rejected and the promise chain has settled, the callers
    awaiting it have the error, nothing is cached or in flight, and the
    next call for the endpoint asks for a connection again. *)
Theorem failed_connection_not_remembered (s : State) (e : string) (err : JsError) :
  cached_for e s = None → connecting s = None →
  let a := length (attempts s) in
  ∃ s3,
    run [LConnect e; LReject a err; LFinally a] s = Some s3 ∧
    attempts s3 !! a =
      Some {| att_endpoint := e; att_status := Settled (inl err) |} ∧
    cached s3 = cached s ∧ connecting s3 = None ∧
    disconnectedListeners s3 = disconnectedListeners s ∧
    recorder s3 = recorder s ∧
    fst (connectBrowser e s3) = AwaitAttempt (S a) ∧
    connect_calls (snd (connectBrowser e s3)) = S (S (connect_calls s)).
Proof.
  intros Hc Hconn a.
  pose (s1 := {| cached := cached s; connecting := Some a;
                 attempts := attempts s ++ [{| att_endpoint := e; att_status := Pending |}];
                 disconnectedListeners := disconnectedListeners s;
                 closeCalls := closeCalls s; recorder := recorder s |}).
  assert (connectBrowser e s = (AwaitAttempt a, s1)) as Hcb.
  { unfold connectBrowser. by rewrite Hc, Hconn. }
  assert (attempts s1 !! a = Some {| att_endpoint := e; att_status := Pending |})
    as Ha by (by apply list_lookup_middle).
  set (s2 := set_status a (Failed err) s1).
  assert (attempts s2 !! a =
            Some {| att_endpoint := e; att_status := Failed err |}) as Ha2.
  { unfold s2, set_status. cbn [attempts]. fold (attempts s1).
    by rewrite list_lookup_alter_eq, Ha. }
  set (s3 := finally_callback a (inl err) s2).
  exists s3. split.
  { cbn [run step]. rewrite Hcb. cbn [mbind option_bind snd].
    rewrite Ha. cbn [mbind option_bind]. fold s2. by rewrite Ha2. }
  split.
  { unfold s3, finally_callback. cbn [attempts].
    by rewrite list_lookup_alter_eq, Ha2. }
  split; [done|]. split; [done|]. split; [done|]. split; [done|].
  assert (cached_for e s3 = None) as Hstill by exact Hc.
  unfold connectBrowser. rewrite Hstill. simpl.
  unfold connect_calls. simpl.
  rewrite !length_app, !length_alter, length_app. simpl.
  split; [f_equal; fold a; lia|lia].
Qed.

(** A cached record's browser has its [disconnected] listener. *)
Lemma cached_listened_step l s s' :
  (∀ c, cached s = Some c → browser c ∈ disconnectedListeners s) →
  step l s = Some s' →
  ∀ c, cached s' = Some c → browser c ∈ disconnectedListeners s'.
Proof.
  intros Hinv Hstep. destruct l; simpl in Hstep.
  - injection Hstep as <-. unfold connectBrowser.
    destruct (cached_for endpoint_ s); [done|]. by destruct (connecting s).
  - destruct (attempts s !! a) as [[e []]|]; try done.
    injection Hstep as <-. simpl. intros c [= <-]. simpl.
    apply elem_of_app. right. by apply list_elem_of_singleton.
  - destruct (attempts s !! a) as [[e []]|]; try done.
    by injection Hstep as <-.
  - destruct (attempts s !! a) as [[e []]|]; try done;
      by injection Hstep as <-.
  - injection Hstep as <-.
    destruct (foldl_on_disconnected b (disconnectedListeners s) s)
      as (_ & _ & -> & _ & _ & ->).
    intros c. destruct (cached s) as [c'|]; [|done].
    case_bool_decide; [done|]. intros [= <-]. by apply Hinv.
  - injection Hstep as <-. unfold closePlaywrightBrowserConnection.
    by destruct (cached s).
  - by injection Hstep as <-.
Qed.

Lemma cached_listened_run ls s s' :
  (∀ c, cached s = Some c → browser c ∈ disconnectedListeners s) →
  run ls s = Some s' →
  ∀ c, cached s' = Some c → browser c ∈ disconnectedListeners s'.
Proof.
  revert s. induction ls as [|l ls IH]; intros s Hinv; simpl.
  - by intros [= <-].
  - destruct (step l s) as [s1|] eqn:Hstep; simpl; [|done].
    intros Hrun. eapply IH; [|done]. by eapply cached_listened_step.
Qed.

(** X3.  In every state the event loop can reach, the [disconnected]
    event of a browser drops the cached record exactly when the record
    holds that browser, and touches nothing else; with the record gone
    and no attempt in flight, the next call asks for a connection
    again. *)
Theorem disconnect_drops_cached (ls : list Label) (s : State) (b : Browser) :
  run ls initial = Some s →
  ∃ s',
    step (LDisconnected b) s = Some s' ∧
    cached s' =
      match cached s with
      | Some c => if bool_decide (browser c = b) then None else Some c
      | None => None
      end ∧
    attempts s' = attempts s ∧ connecting s' = connecting s ∧
    disconnectedListeners s' = disconnectedListeners s ∧
    closeCalls s' = closeCalls s ∧ recorder s' = recorder s ∧
    (∀ c e, cached s = Some c → browser c = b → connecting s = None →
            connect_calls (snd (connectBrowser e s')) = S (connect_calls s)).
Proof.
  intros Hrun.
  assert (∀ c, cached s = Some c → browser c ∈ disconnectedListeners s) as Hlis.
  { eapply cached_listened_run; [|exact Hrun]. done. }
  eexists. split; [reflexivity|].
  destruct (foldl_on_disconnected b (disconnectedListeners s) s)
    as (H1 & H2 & H3 & H4 & H5 & H6).
  assert (cached (foldl (λ acc b', if bool_decide (b' = b)
                                   then on_disconnected b' acc else acc)
                    s (disconnectedListeners s))
          = match cached s with
            | Some c => if bool_decide (browser c = b) then None else Some c
            | None => None
            end) as Hcached.
  { rewrite H6. destruct (cached s) as [c|] eqn:Hc; [|done].
    rewrite (bool_decide_ext (browser c = b ∧ b ∈ disconnectedListeners s)
               (browser c = b)); [done|].
    split; [by intros [? _]|]. intros <-. split; [done|]. by apply Hlis. }
  repeat (split; [done|]).
  intros c e Hc Hb Hconn.
  rewrite connectBrowser_calls. unfold connect_calls. rewrite H1.
  rewrite bool_decide_eq_true_2; [done|]. split; [|by rewrite H2].
  unfold cached_for. rewrite Hcached, Hc. by rewrite bool_decide_eq_true_2.
Qed.

(** X4.  While an attempt is in flight, for whatever endpoint, a call
    for any endpoint asks for no connection and changes nothing: it
    returns the record cached for its endpoint if there is one, and
    otherwise awaits the attempt in flight, even when that attempt is
    for another endpoint. *)
Theorem attempt_in_flight_is_awaited (ls : list Label) (s : State) (a : nat)
  (att : Attempt) (e : string) :
  run ls initial = Some s →
  attempts s !! a = Some att → in_flight att = true →
  connectBrowser e s =
    (match cached_for e s with
     | Some c => ReturnCached c
     | None => AwaitAttempt a
     end, s).
Proof.
  intros Hrun Ha Hf.
  pose proof (inv_run ls initial s inv_initial Hrun) as Hinv.
  pose proof (inv_in_flight s Hinv a att Ha Hf) as Hconn.
  unfold connectBrowser. destruct (cached_for e s); [done|]. by rewrite Hconn.
Qed.

(** X21.  Closing the connection does not cancel an attempt in
    flight.  When [closePlaywrightBrowserConnection] runs while
    [connectOverCDP] has not answered yet, it drops and closes only the
    record that was cached; when the answer comes, the [then] callback
    caches the new browser all the same, and nobody has asked that
    browser to close. *)
Theorem close_does_not_cancel_attempt (s : State) (a : nat)
  (e : string) (b : Browser) (contexts : list (BrowserContext * list Page)) :
  attempts s !! a = Some {| att_endpoint := e; att_status := Pending |} →
  ¬ (b ∈ closeCalls s) →
  ∃ s3,
    run [LClose; LFulfil a b contexts; LFinally a] s = Some s3 ∧
    cached s3 = Some {| browser := b; endpoint := e |} ∧
    connecting s3 = None ∧
    closeCalls s3 =
      closeCalls s ++ match cached s with Some c => [browser c] | None => [] end ∧
    (b ∈ closeCalls s3 → ∃ c, cached s = Some c ∧ browser c = b).
Proof.
  intros Ha Hb.
  set (s1 := closePlaywrightBrowserConnection s).
  assert (attempts s1 = attempts s ∧
          closeCalls s1 =
            closeCalls s ++ match cached s with Some c => [browser c] | None => [] end)
    as [Hatt Hclose].
  { unfold s1, closePlaywrightBrowserConnection.
    destruct (cached s); simpl; [done|]. by rewrite app_nil_r. }
  eexists. split.
  { cbn [run step]. cbn [mbind option_bind]. fold s1. rewrite Hatt, Ha.
    cbn [mbind option_bind]. cbn [step then_callback attempts].
    rewrite Hatt, list_lookup_alter_eq, Ha. reflexivity. }
  split; [done|]. split; [done|]. split; [done|].
  simpl. rewrite Hclose. intros Hin.
  apply elem_of_app in Hin as [Hin|Hin]; [done|].
  destruct (cached s) as [c|]; [|by apply elem_of_nil in Hin].
  apply list_elem_of_singleton in Hin. by exists c.
Qed.

End ConnectionLifecycle.

(** ** The life of a page's histories *)

Section RecorderLifecycle.
Import PwSession RecorderInv RecorderViews.

Lemma filter_none {A} (P : A → Prop) `{∀ x, Decision (P x)} (l : list A) :
  (∀ x, x ∈ l → ¬ P x) → filter P l = [].
Proof.
  induction l as [|x l IH]; intros Hl; [done|].
  rewrite filter_cons. rewrite decide_False by (apply Hl; by left).
  apply IH. intros y Hy. apply Hl. by right.
Qed.

Lemma single_bundle (ls : list (Page * nat)) page sid :
  NoDup ls.*2 → (page, sid) ∈ ls →
  filter (λ l, l.2 = sid) ls = [(page, sid)].
Proof.
  induction ls as [|[p s'] ls IH]; intros Hnd Hin.
  - by apply elem_of_nil in Hin.
  - rewrite fmap_cons in Hnd. apply NoDup_cons in Hnd as [Hfresh Hnd].
    simpl in Hfresh. rewrite filter_cons. simpl.
    apply elem_of_cons in Hin as [Heq|Hin].
    + injection Heq as <- <-. rewrite decide_True by done. f_equal.
      apply filter_none. intros [p' s''] Hin' Heq. simpl in Heq. subst s''.
      apply Hfresh. apply list_elem_of_fmap. by exists (p', sid).
    + rewrite decide_False.
      * by apply IH.
      * intros ->. apply Hfresh. apply list_elem_of_fmap. by exists (page, sid).
Qed.

Lemma ensurePageState_again page r :
  ensurePageState page (ensurePageState page r).2 = ensurePageState page r.
Proof.
  unfold ensurePageState at 2 3.
  destruct (pageStates r !! page) as [sid|] eqn:Hpage; simpl.
  - unfold ensurePageState. by rewrite Hpage.
  - unfold ensurePageState. simpl. by rewrite lookup_insert_eq.
Qed.

(** X5.  Observation is idempotent.  After any sequence of recorder
    events, asking for a page's state twice gives the same state
    object and changes nothing the second time, and exactly one
    listener bundle is bound to that state object, so that no event is
    recorded twice. *)
Theorem observation_attaches_once (evs : list RecorderEvent) (page : Page) :
  let r := recorder_run evs empty_recorder in
  let sid := (ensurePageState page r).1 in
  let r1 := (ensurePageState page r).2 in
  ensurePageState page r1 = (sid, r1) ∧
  pageStates r1 !! page = Some sid ∧
  filter (λ l, l.2 = sid) (pageListeners r1) = [(page, sid)].
Proof.
  intros r sid r1.
  assert (wf r1) as Hwf by apply wf_ensurePageState, wf_recorder_run, wf_empty.
  assert (pageStates r1 !! page = Some sid) as Hpage.
  { subst sid r1. unfold ensurePageState.
    destruct (pageStates r !! page) as [existing|] eqn:Hp; simpl; [done|].
    by rewrite lookup_insert_eq. }
  split; [|split; [done|]].
  - subst sid r1. rewrite ensurePageState_again. by destruct (ensurePageState page r).
  - apply single_bundle; [apply (wf_sids r1 Hwf)|].
    by apply (wf_listener r1 Hwf).
Qed.

Lemma on_close_twice page r : on_close page (on_close page r) = on_close page r.
Proof.
  unfold on_close. simpl. f_equal.
  - apply delete_delete_eq.
  - apply set_eq. intros x. rewrite !elem_of_difference. tauto.
Qed.

Lemma foldl_on_close page (ls : list (Page * nat)) acc :
  foldl (λ acc l, if bool_decide (l.1 = page) then on_close page acc else acc)
    acc ls
  = if bool_decide (page ∈ ls.*1) then on_close page acc else acc.
Proof.
  revert acc. induction ls as [|[p s'] ls IH]; intros acc; cbn [foldl fst].
  - rewrite bool_decide_eq_false_2; [done|]. by intros ?%elem_of_nil.
  - rewrite IH. clear IH. rewrite fmap_cons. cbn [fst].
    destruct (decide (p = page)) as [->|Hp].
    + rewrite (bool_decide_eq_true_2 (page = page)) by done.
      rewrite (bool_decide_eq_true_2 (page ∈ page :: _)) by by left.
      case_bool_decide; [apply on_close_twice|done].
    + rewrite (bool_decide_eq_false_2 (p = page)) by done.
      rewrite (bool_decide_ext (page ∈ p :: ls.*1) (page ∈ ls.*1)); [done|].
      rewrite elem_of_cons. split; [intros [?|?]; [congruence|done]|by right].
Qed.

Lemma close_event page sid r :
  wf r → pageStates r !! page = Some sid →
  recorder_step (EvClose page) r = on_close page r.
Proof.
  intros Hwf Hpage. simpl. unfold emit. rewrite foldl_on_close.
  rewrite bool_decide_eq_true_2; [done|].
  apply list_elem_of_fmap. exists (page, sid). split; [done|].
  by apply (wf_listener r Hwf).
Qed.

Lemma console_of_fresh page r :
  pageStates r !! page = None → console_of page r = [].
Proof.
  intros H. unfold console_of, ensurePageState. rewrite H.
  cbn [states]. by rewrite list_lookup_middle.
Qed.

Lemma network_of_fresh page r :
  pageStates r !! page = None → network_of page r = [].
Proof.
  intros H. unfold network_of, ensurePageState. rewrite H.
  cbn [states]. by rewrite list_lookup_middle.
Qed.

Lemma histories_on_close_other page q r :
  q ≠ page →
  console_of q (on_close page r) = console_of q r ∧
  network_of q (on_close page r) = network_of q r.
Proof.
  intros Hq. unfold console_of, network_of, ensurePageState. simpl.
  rewrite lookup_delete_ne by done.
  by destruct (pageStates r !! q).
Qed.

(** X6.  The [close] event of an observed page discards its state:
    the page is no longer in the tables and its histories read as
    empty, while the histories of every other page are what they were;
    when the page is touched again it starts from an empty history, so
    that the next console message is the only one in it. *)
Theorem close_discards_history (evs : list RecorderEvent) (page : Page) :
  let r := recorder_run evs empty_recorder in
  is_Some (pageStates r !! page) →
  let r1 := recorder_step (EvClose page) r in
  pageStates r1 !! page = None ∧ ¬ (page ∈ observedPages r1) ∧
  console_of page r1 = [] ∧ network_of page r1 = [] ∧
  (∀ q, q ≠ page →
     console_of q r1 = console_of q r ∧ network_of q r1 = network_of q r) ∧
  (∀ entry,
     console_of page (recorder_run [EvTouch page; EvConsole page entry] r1)
       = [entry]).
Proof.
  intros r [sid Hpage] r1.
  assert (wf r) as Hwf by apply wf_recorder_run, wf_empty.
  assert (r1 = on_close page r) as Hr1 by by eapply close_event.
  assert (pageStates r1 !! page = None) as Hgone.
  { rewrite Hr1. simpl. apply lookup_delete_eq. }
  split; [done|]. split.
  { rewrite Hr1. simpl. rewrite elem_of_difference, elem_of_singleton. tauto. }
  split; [by apply console_of_fresh|]. split; [by apply network_of_fresh|].
  split.
  { intros q Hq. rewrite Hr1. by apply histories_on_close_other. }
  intros entry. unfold recorder_run. cbn [foldl].
  set (r2 := recorder_step (EvTouch page) r1).
  assert (wf r2) as Hwf2.
  { apply wf_recorder_step. rewrite Hr1. by apply wf_on_close. }
  assert (pageStates r2 !! page = Some (length (states r1))) as Hpage2.
  { unfold r2. simpl. unfold ensurePageState. rewrite Hgone. simpl.
    by rewrite lookup_insert_eq. }
  rewrite console_event by (by rewrite ?Hpage2).
  rewrite (console_of_observed page _ r2 Hpage2).
  unfold r2. simpl. unfold ensurePageState. rewrite Hgone. simpl.
  by rewrite list_lookup_middle.
Qed.

(** *** A request and what becomes of it *)

(** Reading a history through entries that were changed only beyond
    the references it held before the push. *)
Lemma network_view_annotated (es es' : list BrowserNetworkRequest)
  (nw : list nat) (ref : nat) (y : BrowserNetworkRequest) (cap : nat) :
  Forall (λ x, (x < length es)%nat) nw →
  (∀ x, (x < length es)%nat → es' !! x = es !! x) →
  es' !! ref = Some y →
  omap (λ x, es' !! x) (push_capped cap nw ref)
  = push_capped cap (omap (λ x, es !! x) nw) y.
Proof.
  intros Hnw Hsame Href.
  assert (omap (λ x, es !! x) nw = omap (λ x, es' !! x) nw) as ->.
  { apply list_omap_ext, Forall_Forall2_diag.
    eapply Forall_impl; [exact Hnw|]. intros x Hx. simpl in Hx. by rewrite Hsame. }
  apply omap_push_capped; [|done].
  eapply Forall_impl; [exact Hnw|]. intros x Hx. simpl in Hx.
  rewrite Hsame by done. by apply lookup_lt_is_Some.
Qed.

Lemma without_request_absent req st :
  requestMap st !! req = None → without_request req st = st.
Proof.
  intros H. destruct st as [c n m]. unfold without_request. simpl in *.
  f_equal. by apply delete_id.
Qed.

Lemma on_requestfailed_effect s0 req err acc :
  pageStates (on_requestfailed s0 req err acc) = pageStates acc ∧
  (∀ s, states (on_requestfailed s0 req err acc) !! s =
          if decide (s = s0) then without_request req <$> states acc !! s
          else states acc !! s) ∧
  entries (on_requestfailed s0 req err acc) =
    match lookup_request s0 req acc with
    | Some ref => alter (with_failure err) ref (entries acc)
    | None => entries acc
    end.
Proof.
  unfold on_requestfailed.
  destruct (lookup_request s0 req acc) as [ref|] eqn:Hl.
  - split; [done|]. split; [|done]. intros s. simpl.
    destruct (decide (s = s0)) as [->|Hs].
    + by rewrite list_lookup_alter_eq.
    + by rewrite list_lookup_alter_ne.
  - split; [done|]. split; [|done]. intros s.
    destruct (decide (s = s0)) as [->|Hs]; [|done].
    unfold lookup_request in Hl.
    destruct (states acc !! s0) as [st|]; [|done]. simpl in *.
    by rewrite without_request_absent.
Qed.

(** The [requestfailed] listeners of a page: each drops the request
    from the index of its own state object and annotates the entry it
    had indexed; no other entry is touched. *)
Lemma emit_requestfailed_spec page req err (ls : list (Page * nat)) acc :
  NoDup ls.*2 →
  let r' := foldl (λ acc l, if bool_decide (l.1 = page)
                            then on_requestfailed l.2 req err acc else acc)
              acc ls in
  pageStates r' = pageStates acc ∧
  (∀ s, states r' !! s =
          if bool_decide ((page, s) ∈ ls)
          then without_request req <$> states acc !! s
          else states acc !! s) ∧
  (∀ x s, (page, s) ∈ ls → lookup_request s req acc = Some x →
          entries r' !! x = with_failure err <$> entries acc !! x) ∧
  (∀ x, (∀ s, (page, s) ∈ ls → lookup_request s req acc ≠ Some x) →
        entries r' !! x = entries acc !! x).
Proof.
  revert acc. induction ls as [|[p s0] ls IH]; intros acc Hnd; cbn [foldl fst snd].
  - split; [done|]. split.
    { intros s. rewrite bool_decide_eq_false_2; [done|]. by intros ?%elem_of_nil. }
    split; [|done]. intros x s H. by apply elem_of_nil in H.
  - rewrite fmap_cons in Hnd. apply NoDup_cons in Hnd as [Hfresh Hnd].
    simpl in Hfresh.
    destruct (decide (p = page)) as [->|Hp].
    + rewrite (bool_decide_eq_true_2 (page = page)) by done.
      destruct (on_requestfailed_effect s0 req err acc) as (E1 & E2 & E3).
      destruct (IH (on_requestfailed s0 req err acc) Hnd) as (I1 & I2 & I3 & I4).
      clear IH.
      assert (∀ s, (page, s) ∈ ls →
                lookup_request s req (on_requestfailed s0 req err acc)
                = lookup_request s req acc) as Hother.
      { intros s Hin. unfold lookup_request. rewrite E2.
        rewrite decide_False; [done|]. intros ->. apply Hfresh.
        apply list_elem_of_fmap. by exists (page, s0). }
      split; [by rewrite I1|]. split; [|split].
      * intros s. rewrite I2, E2. destruct (decide (s = s0)) as [->|Hs].
        -- rewrite (bool_decide_eq_false_2 (_ ∈ ls)) by by apply not_in_listeners.
           by rewrite bool_decide_eq_true_2 by by left.
        -- by rewrite bool_decide_listener_cons by congruence.
      * intros x s Hin Hx.
        destruct (decide (Exists (λ l, l.1 = page ∧
                                       lookup_request l.2 req acc = Some x) ls))
          as [Hex|Hno].
        -- apply Exists_exists in Hex as ([p' s'] & Hin' & Hp' & Hx').
           simpl in Hp', Hx'. subst p'.
           rewrite (I3 x s' Hin') by (by rewrite Hother).
           rewrite E3. destruct (lookup_request s0 req acc) as [ρ|]; [|done].
           destruct (decide (ρ = x)) as [->|Hne].
           ++ rewrite list_lookup_alter_eq. by destruct (entries acc !! x).
           ++ by rewrite list_lookup_alter_ne.
        -- assert (s = s0) as ->.
           { apply elem_of_cons in Hin as [Heq|Hin]; [congruence|].
             exfalso. apply Hno, Exists_exists. by exists (page, s). }
           rewrite I4.
           ++ rewrite E3, Hx. by rewrite list_lookup_alter_eq.
           ++ intros s' Hin' Hx'. rewrite Hother in Hx' by done.
              apply Hno, Exists_exists. by exists (page, s').
      * intros x Hno. rewrite I4.
        -- rewrite E3. destruct (lookup_request s0 req acc) as [ρ|] eqn:Hρ; [|done].
           rewrite list_lookup_alter_ne; [done|]. intros ->.
           apply (Hno s0); [by left|done].
        -- intros s Hin. rewrite Hother by done. apply Hno. by right.
    + rewrite (bool_decide_eq_false_2 (p = page)) by done.
      destruct (IH acc Hnd) as (I1 & I2 & I3 & I4). clear IH.
      split; [done|]. split; [|split].
      * intros s. rewrite I2. by rewrite bool_decide_listener_cons by congruence.
      * intros x s Hin Hx. apply (I3 x s); [|done].
        apply elem_of_cons in Hin as [Heq|Hin]; [congruence|done].
      * intros x Hno. apply I4. intros s Hin. apply Hno. by right.
Qed.

(** The state of an observed page after its [request] event: the
    listener bound to the page's state object indexed a fresh entry,
    and every entry indexed under the request is a fresh one. *)
Lemma request_emitted page sid st req entry r :
  wf r → pageStates r !! page = Some sid → states r !! sid = Some st →
  let r1 := foldl (λ acc l, if bool_decide (l.1 = page)
                            then on_request l.2 req entry acc else acc)
              r (pageListeners r) in
  pageStates r1 = pageStates r ∧ pageListeners r1 = pageListeners r ∧
  (∀ x, (x < length (entries r))%nat → entries r1 !! x = entries r !! x) ∧
  (∃ ref, (length (entries r) ≤ ref)%nat ∧ entries r1 !! ref = Some entry ∧
          states r1 !! sid = Some (network_update req ref st) ∧
          lookup_request sid req r1 = Some ref) ∧
  (∀ s x, (page, s) ∈ pageListeners r → lookup_request s req r1 = Some x →
          (length (entries r) ≤ x)%nat).
Proof.
  intros Hwf Hpage Hst r1.
  split. { apply (foldl_preserve pageStates). intros acc l. by case_bool_decide. }
  split. { apply (foldl_preserve pageListeners). intros acc l. by case_bool_decide. }
  split.
  { intros x Hx.
    destruct (emit_request_lookup page req entry sid (pageListeners r) r
                (wf_sids r Hwf)) as [[k Hk] _].
    fold r1 in Hk. rewrite Hk. by apply lookup_app_l. }
  split.
  - destruct (emit_request_lookup page req entry sid (pageListeners r) r
                (wf_sids r Hwf)) as [_ Hsid].
    rewrite bool_decide_eq_true_2 in Hsid by by apply (wf_listener r Hwf).
    destruct Hsid as (ref & Hle & Href & Hsid). fold r1 in Href, Hsid.
    rewrite Hst in Hsid. simpl in Hsid.
    exists ref. split; [done|]. split; [done|]. split; [done|].
    unfold lookup_request. rewrite Hsid. simpl. by rewrite lookup_insert_eq.
  - intros s x Hin Hx.
    destruct (emit_request_lookup page req entry s (pageListeners r) r
                (wf_sids r Hwf)) as [_ Hs].
    rewrite bool_decide_eq_true_2 in Hs by done.
    destruct Hs as (ref & Hle & _ & Hs). fold r1 in Hs.
    unfold lookup_request in Hx. rewrite Hs in Hx.
    destruct (states r !! s) as [st'|]; [|done]. simpl in Hx.
    rewrite lookup_insert_eq in Hx. by injection Hx as <-.
Qed.

(** X7.  On an observed page, a request that fails is recorded once:
    after its [request] and [requestfailed] events the page's network
    history is the history before with the request's entry appended
    (the oldest entry dropped at the cap), that entry carrying the
    failure text, which was written through the request index into the
    very object the history holds; the request is no longer indexed,
    and the console history is untouched. *)
Theorem failed_request_is_annotated (evs : list RecorderEvent) (page : Page)
  (req : Request) (entry : BrowserNetworkRequest) (errorText : option string) :
  let r := recorder_run evs empty_recorder in
  is_Some (pageStates r !! page) →
  let r2 := recorder_run [EvRequest page req entry;
                          EvRequestFailed page req errorText] r in
  network_of page r2 =
    push_capped MAX_NETWORK_REQUESTS (network_of page r)
      (with_failure errorText entry) ∧
  console_of page r2 = console_of page r ∧
  ∀ sid, pageStates r2 !! page = Some sid → lookup_request sid req r2 = None.
Proof.
  intros r [sid Hpage] r2.
  assert (wf r) as Hwf by apply wf_recorder_run, wf_empty.
  destruct (wf_state_of page sid r Hwf Hpage) as (st & Hst & _ & Hrefs).
  destruct (request_emitted page sid st req entry r Hwf Hpage Hst)
    as (Htab1 & Hls1 & Hold1 & (ref & Hle & Href & Hsid1 & Hlook) & Hfresh).
  set (r1 := foldl (λ acc l, if bool_decide (l.1 = page)
                             then on_request l.2 req entry acc else acc)
               r (pageListeners r)) in *.
  assert (NoDup (pageListeners r1).*2) as Hnd1.
  { rewrite Hls1. apply (wf_sids r Hwf). }
  destruct (emit_requestfailed_spec page req errorText (pageListeners r1) r1 Hnd1)
    as (Htab2 & Hst2 & Hann & Hkeep).
  assert (r2 = foldl (λ acc l, if bool_decide (l.1 = page)
                               then on_requestfailed l.2 req errorText acc
                               else acc) r1 (pageListeners r1)) as Hr2
    by reflexivity.
  rewrite <- Hr2 in Htab2, Hst2, Hann, Hkeep. clear Hr2.
  assert ((page, sid) ∈ pageListeners r1) as Hin.
  { rewrite Hls1. by apply (wf_listener r Hwf). }
  assert (pageStates r2 !! page = Some sid) as Hpage2.
  { by rewrite Htab2, Htab1. }
  assert (states r2 !! sid
          = Some (without_request req (network_update req ref st))) as Hsid2.
  { rewrite Hst2, bool_decide_eq_true_2 by done. by rewrite Hsid1. }
  split; [|split].
  - rewrite (network_of_observed page sid r2 Hpage2),
      (network_of_observed page sid r Hpage), Hsid2, Hst. simpl.
    apply network_view_annotated; [done| |].
    + intros x Hx. rewrite Hkeep; [by apply Hold1|].
      intros s Hs Hx'. rewrite Hls1 in Hs.
      pose proof (Hfresh s x Hs Hx'). lia.
    + by rewrite (Hann ref sid Hin Hlook), Href.
  - rewrite (console_of_observed page sid r2 Hpage2),
      (console_of_observed page sid r Hpage), Hsid2, Hst. done.
  - intros sid' Hsid'. assert (sid' = sid) as -> by congruence.
    unfold lookup_request. rewrite Hsid2. simpl. apply lookup_delete_eq.
Qed.

(** The [requestfinished] listeners of a page up to their suspension:
    nothing is written; each listener that finds the request indexed
    is suspended with the entry it found. *)
Lemma emit_requestfinished_spec page req (ls : list (Page * nat)) acc :
  let r' := foldl (λ acc l, if bool_decide (l.1 = page)
                            then on_requestfinished l.2 req acc else acc)
              acc ls in
  states r' = states acc ∧ entries r' = entries acc ∧
  pageStates r' = pageStates acc ∧
  ∃ added, awaitingResponse r' = awaitingResponse acc ++ added ∧
    ∀ s ref, (page, s) ∈ ls → lookup_request s req acc = Some ref →
             (s, req, ref) ∈ added.
Proof.
  revert acc. induction ls as [|[p s0] ls IH]; intros acc; cbn [foldl fst snd].
  - repeat (split; [done|]). exists []. split; [by rewrite app_nil_r|].
    intros s ref H. by apply elem_of_nil in H.
  - destruct (decide (p = page)) as [->|Hp].
    + rewrite (bool_decide_eq_true_2 (page = page)) by done.
      destruct (IH (on_requestfinished s0 req acc))
        as (I1 & I2 & I3 & added & I4 & I5). clear IH.
      assert (states (on_requestfinished s0 req acc) = states acc ∧
              entries (on_requestfinished s0 req acc) = entries acc ∧
              pageStates (on_requestfinished s0 req acc) = pageStates acc ∧
              awaitingResponse (on_requestfinished s0 req acc) =
                awaitingResponse acc ++
                  match lookup_request s0 req acc with
                  | Some ref => [(s0, req, ref)]
                  | None => []
                  end) as (E1 & E2 & E3 & E4).
      { unfold on_requestfinished.
        destruct (lookup_request s0 req acc); simpl; [done|].
        by rewrite app_nil_r. }
      rewrite I1, I2, I3, I4, E1, E2, E3, E4. repeat (split; [done|]).
      eexists. split; [by rewrite <- app_assoc|].
      intros s ref Hin Hs. apply elem_of_app.
      apply elem_of_cons in Hin as [Heq|Hin].
      * injection Heq as ->. left. rewrite Hs. by apply list_elem_of_singleton.
      * right. apply I5; [done|]. unfold lookup_request in *. by rewrite E1.
    + rewrite (bool_decide_eq_false_2 (p = page)) by done.
      destruct (IH acc) as (I1 & I2 & I3 & added & I4 & I5). clear IH.
      repeat (split; [done|]). exists added. split; [done|].
      intros s ref Hin Hs. apply I5; [|done].
      apply elem_of_cons in Hin as [Heq|Hin]; [congruence|done].
Qed.

(** X8.  On an observed page, a request that finishes is recorded in
    two steps.  After its [request] and [requestfinished] events the
    entry is in the network history as it was pushed, and the listener
    bound to the page's state object is suspended on the response with
    that entry.  When it is resumed, the status, the [ok] flag and the
    service-worker flag of the response show in the entry the history
    holds (nothing changes when there is no response), and the request
    is no longer indexed. *)
Theorem finished_request_is_annotated (evs : list RecorderEvent) (page : Page)
  (req : Request) (entry : BrowserNetworkRequest) :
  let r := recorder_run evs empty_recorder in
  is_Some (pageStates r !! page) →
  let r2 := recorder_run [EvRequest page req entry;
                          EvRequestFinished page req] r in
  network_of page r2 =
    push_capped MAX_NETWORK_REQUESTS (network_of page r) entry ∧
  ∃ k sid ref,
    pageStates r2 !! page = Some sid ∧
    awaitingResponse r2 !! k = Some (sid, req, ref) ∧
    ∀ response,
      let r3 := recorder_step (EvResponse k response) r2 in
      network_of page r3 =
        push_capped MAX_NETWORK_REQUESTS (network_of page r)
          match response with
          | Some resp => with_response resp entry
          | None => entry
          end ∧
      lookup_request sid req r3 = None.
Proof.
  intros r [sid Hpage] r2.
  assert (wf r) as Hwf by apply wf_recorder_run, wf_empty.
  destruct (wf_state_of page sid r Hwf Hpage) as (st & Hst & _ & Hrefs).
  destruct (request_emitted page sid st req entry r Hwf Hpage Hst)
    as (Htab1 & Hls1 & Hold1 & (ref & Hle & Href & Hsid1 & Hlook) & Hfresh).
  set (r1 := foldl (λ acc l, if bool_decide (l.1 = page)
                             then on_request l.2 req entry acc else acc)
               r (pageListeners r)) in *.
  destruct (emit_requestfinished_spec page req (pageListeners r1) r1)
    as (Hst2 & Hes2 & Htab2 & added & Hadded & Hmine).
  assert (r2 = foldl (λ acc l, if bool_decide (l.1 = page)
                               then on_requestfinished l.2 req acc
                               else acc) r1 (pageListeners r1)) as Hr2
    by reflexivity.
  rewrite <- Hr2 in Hst2, Hes2, Htab2, Hadded. clear Hr2.
  assert ((page, sid) ∈ pageListeners r1) as Hin.
  { rewrite Hls1. by apply (wf_listener r Hwf). }
  assert (pageStates r2 !! page = Some sid) as Hpage2.
  { by rewrite Htab2, Htab1. }
  assert (∀ x, (x < length (entries r))%nat → entries r2 !! x = entries r !! x)
    as Hold2.
  { intros x Hx. rewrite Hes2. by apply Hold1. }
  split.
  { rewrite (network_of_observed page sid r2 Hpage2),
      (network_of_observed page sid r Hpage), Hst2, Hsid1, Hst. simpl.
    apply network_view_annotated; [done|done|]. by rewrite Hes2. }
  assert ((sid, req, ref) ∈ awaitingResponse r2) as Hwait.
  { rewrite Hadded. apply elem_of_app. right. by apply Hmine. }
  apply list_elem_of_lookup in Hwait as [k Hk].
  exists k, sid, ref. split; [done|]. split; [done|].
  intros response r3. subst r3. cbn [recorder_step]. rewrite Hk.
  set (r2' := set_awaiting _ r2).
  assert (pageStates (on_response sid req ref response r2') !! page = Some sid)
    as Hpage3.
  { unfold on_response. destruct response; simpl; by rewrite Htab2, Htab1. }
  assert (states (on_response sid req ref response r2') !! sid
          = Some (without_request req (network_update req ref st))) as Hsid3.
  { unfold on_response. destruct response; simpl;
      by rewrite list_lookup_alter_eq, Hst2, Hsid1. }
  split.
  - rewrite (network_of_observed page sid _ Hpage3),
      (network_of_observed page sid r Hpage), Hsid3, Hst. simpl.
    apply network_view_annotated; [done| |].
    + intros x Hx. unfold on_response. destruct response; simpl.
      * rewrite list_lookup_alter_ne by lia. by apply Hold2.
      * by apply Hold2.
    + unfold on_response. destruct response; simpl.
      * by rewrite list_lookup_alter_eq, Hes2, Href.
      * by rewrite Hes2.
  - unfold lookup_request. rewrite Hsid3. simpl. apply lookup_delete_eq.
Qed.

(** *** The pages of a browser *)

Lemma ensurePageState_tables page r :
  let r' := (ensurePageState page r).2 in
  observedContexts r' = observedContexts r ∧
  contextListeners r' = contextListeners r ∧
  is_Some (pageStates r' !! page) ∧
  ∀ q sid, pageStates r !! q = Some sid → pageStates r' !! q = Some sid.
Proof.
  unfold ensurePageState.
  destruct (pageStates r !! page) as [existing|] eqn:Hpage; simpl.
  - repeat (split; [done|]). by intros.
  - repeat (split; [done|]). split; [rewrite lookup_insert_eq; by eexists|].
    intros q sid Hq. rewrite lookup_insert_ne; [done|]. congruence.
Qed.

Lemma foldl_ensurePageState pages r :
  let r' := foldl (λ acc page, (ensurePageState page acc).2) r pages in
  observedContexts r' = observedContexts r ∧
  contextListeners r' = contextListeners r ∧
  (∀ page, page ∈ pages → is_Some (pageStates r' !! page)) ∧
  ∀ q sid, pageStates r !! q = Some sid → pageStates r' !! q = Some sid.
Proof.
  revert r. induction pages as [|page pages IH]; intros r; cbn [foldl].
  - repeat (split; [done|]). split; [|by intros].
    intros page Hin. by apply elem_of_nil in Hin.
  - destruct (ensurePageState_tables page r) as (E1 & E2 & E3 & E4).
    destruct (IH (ensurePageState page r).2) as (I1 & I2 & I3 & I4). clear IH.
    cbv zeta in *. split; [congruence|]. split; [congruence|]. split.
    + intros q [->|Hin]%elem_of_cons; [|by apply I3].
      destruct E3 as [sid Hsid]. exists sid. by apply I4.
    + intros q sid Hq. by apply I4, E4.
Qed.

Lemma observeContext_tables context pages r :
  let r' := observeContext context pages r in
  context ∈ observedContexts r' ∧
  (∀ c, c ∈ observedContexts r → c ∈ observedContexts r') ∧
  (context ∈ observedContexts r → r' = r) ∧
  (¬ (context ∈ observedContexts r) →
   contextListeners r' = contextListeners r ++ [context] ∧
   observedContexts r' = {[context]} ∪ observedContexts r ∧
   ∀ page, page ∈ pages → is_Some (pageStates r' !! page)) ∧
  ∀ q sid, pageStates r !! q = Some sid → pageStates r' !! q = Some sid.
Proof.
  unfold observeContext. case_bool_decide as Hc.
  - split; [done|]. split; [done|]. split; [done|]. split; [done|]. by intros.
  - match goal with
    | |- context [foldl _ ?r1 pages] =>
        destruct (foldl_ensurePageState pages r1) as (F1 & F2 & F3 & F4)
    end.
    cbv zeta in *. simpl in *.
    split; [rewrite F1; apply elem_of_union; left; by apply elem_of_singleton|].
    split; [intros c Hin; rewrite F1; apply elem_of_union; by right|].
    split; [done|]. split; [|done].
    intros _. by rewrite F1, F2.
Qed.

(** A context is in the table exactly when it has its [page]
    listener. *)
Lemma contexts_listened_step ev r :
  (∀ c, c ∈ observedContexts r ↔ c ∈ contextListeners r) →
  ∀ c, c ∈ observedContexts (recorder_step ev r)
       ↔ c ∈ contextListeners (recorder_step ev r).
Proof.
  intros Hinv.
  assert (∀ (h : nat → Recorder → Recorder) page,
            (∀ sid acc, observedContexts (h sid acc) = observedContexts acc ∧
                        contextListeners (h sid acc) = contextListeners acc) →
            observedContexts (emit page h r) = observedContexts r ∧
            contextListeners (emit page h r) = contextListeners r) as Hemit.
  { intros h page Hh. unfold emit. split.
    - apply (foldl_preserve observedContexts). intros acc l.
      case_bool_decide; [apply Hh|done].
    - apply (foldl_preserve contextListeners). intros acc l.
      case_bool_decide; [apply Hh|done]. }
  destruct ev; cbn [recorder_step].
  - destruct (ensurePageState_tables page r) as (-> & -> & _). done.
  - destruct (Hemit (λ sid, on_console sid entry) page) as [-> ->]; done.
  - destruct (Hemit (λ sid, on_request sid req entry) page) as [-> ->]; done.
  - destruct (Hemit (λ sid, on_requestfinished sid req) page) as [-> ->]; [|done].
    intros sid acc. unfold on_requestfinished.
    by destruct (lookup_request sid req acc).
  - destruct (awaitingResponse r !! k) as [[[sid req] ref]|]; [|done].
    unfold on_response. by destruct response.
  - destruct (Hemit (λ sid, on_requestfailed sid req errorText) page)
      as [-> ->]; [|done].
    intros sid acc. unfold on_requestfailed.
    by destruct (lookup_request sid req acc).
  - destruct (Hemit (λ _, on_close page) page) as [-> ->]; done.
  - assert (observedContexts
              (foldl (λ acc c, if bool_decide (c = context)
                               then (ensurePageState page acc).2 else acc)
                 r (contextListeners r)) = observedContexts r) as ->.
    { apply (foldl_preserve observedContexts). intros acc c'.
      case_bool_decide; [|done].
      by destruct (ensurePageState_tables page acc) as (-> & _). }
    assert (contextListeners
              (foldl (λ acc c, if bool_decide (c = context)
                               then (ensurePageState page acc).2 else acc)
                 r (contextListeners r)) = contextListeners r) as ->.
    { apply (foldl_preserve contextListeners). intros acc c'.
      case_bool_decide; [|done].
      by destruct (ensurePageState_tables page acc) as (_ & -> & _). }
    done.
  - unfold observeBrowser. revert r Hinv Hemit.
    induction contexts as [|[c0 pages] contexts IH]; intros r Hinv _; [done|].
    cbn [foldl fst snd]. apply IH.
    + intros c.
      destruct (observeContext_tables c0 pages r) as (_ & _ & Hsame & Hnew & _).
      cbv zeta in *.
      destruct (decide (c0 ∈ observedContexts r)) as [Hin|Hnot].
      * by rewrite (Hsame Hin).
      * destruct (Hnew Hnot) as (-> & -> & _).
        rewrite elem_of_union, elem_of_singleton, elem_of_app,
          list_elem_of_singleton, Hinv. tauto.
    + intros h page Hh. unfold emit. split.
      * apply (foldl_preserve observedContexts). intros acc l.
        case_bool_decide; [apply Hh|done].
      * apply (foldl_preserve contextListeners). intros acc l.
        case_bool_decide; [apply Hh|done].
Qed.

Lemma contexts_listened_run evs r :
  (∀ c, c ∈ observedContexts r ↔ c ∈ contextListeners r) →
  ∀ c, c ∈ observedContexts (recorder_run evs r)
       ↔ c ∈ contextListeners (recorder_run evs r).
Proof.
  revert r. unfold recorder_run.
  induction evs as [|ev evs IH]; intros r Hinv; cbn [foldl]; [done|].
  apply IH. by apply contexts_listened_step.
Qed.

Lemma foldl_context_page context page (cs : list BrowserContext) acc :
  foldl (λ acc c, if bool_decide (c = context)
                  then (ensurePageState page acc).2 else acc) acc cs
  = if bool_decide (context ∈ cs) then (ensurePageState page acc).2 else acc.
Proof.
  revert acc. induction cs as [|c cs IH]; intros acc; cbn [foldl].
  - rewrite bool_decide_eq_false_2; [done|]. by intros ?%elem_of_nil.
  - rewrite IH. clear IH. destruct (decide (c = context)) as [->|Hc].
    + rewrite (bool_decide_eq_true_2 (context = context)) by done.
      rewrite (bool_decide_eq_true_2 (context ∈ context :: cs)) by by left.
      case_bool_decide; [|done].
      by rewrite ensurePageState_again.
    + rewrite (bool_decide_eq_false_2 (c = context)) by done.
      rewrite (bool_decide_ext (context ∈ c :: cs) (context ∈ cs)); [done|].
      rewrite elem_of_cons. split; [intros [?|?]; [congruence|done]|by right].
Qed.

Lemma observeBrowser_tables contexts r :
  let r' := observeBrowser contexts r in
  (∀ c, c ∈ observedContexts r → c ∈ observedContexts r') ∧
  (∀ c, c ∈ contexts.*1 → c ∈ observedContexts r') ∧
  (NoDup contexts.*1 →
   ∀ c pages page, (c, pages) ∈ contexts → ¬ (c ∈ observedContexts r) →
                   page ∈ pages → is_Some (pageStates r' !! page)) ∧
  ∀ q sid, pageStates r !! q = Some sid → pageStates r' !! q = Some sid.
Proof.
  unfold observeBrowser. revert r.
  induction contexts as [|[c0 pages0] contexts IH]; intros r; cbn [foldl fst snd].
  - split; [done|]. split; [by intros c ?%elem_of_nil|].
    split; [|by intros]. intros _ c pages page Hin. by apply elem_of_nil in Hin.
  - destruct (observeContext_tables c0 pages0 r) as (O1 & O2 & O3 & O4 & O5).
    destruct (IH (observeContext c0 pages0 r)) as (I1 & I2 & I3 & I4). clear IH.
    cbv zeta in *. split; [intros c Hc; by apply I1, O2|]. split; [|split].
    + rewrite fmap_cons. intros c [->|Hin]%elem_of_cons; [by apply I1|by apply I2].
    + rewrite fmap_cons. intros [Hfresh Hnd]%NoDup_cons c pages page Hin Hnot Hpage.
      apply elem_of_cons in Hin as [[= -> ->]|Hin].
      * destruct (O4 Hnot) as (_ & _ & Hpages).
        destruct (Hpages page Hpage) as [sid Hsid]. exists sid. by apply I4.
      * apply (I3 Hnd c pages page Hin); [|done].
        destruct (decide (c0 ∈ observedContexts r)) as [Hin0|Hnot0].
        -- by rewrite (O3 Hin0).
        -- destruct (O4 Hnot0) as (_ & -> & _).
           rewrite elem_of_union, elem_of_singleton. intros [->|?]; [|done].
           apply Hfresh. apply list_elem_of_fmap. by exists (c0, pages).
    + intros q sid Hq. by apply I4, O5.
Qed.

Lemma observeBrowser_again contexts r :
  (∀ c, c ∈ contexts.*1 → c ∈ observedContexts r) →
  observeBrowser contexts r = r.
Proof.
  unfold observeBrowser.
  induction contexts as [|[c0 pages0] contexts IH]; intros Hall;
    cbn [foldl fst snd]; [done|].
  destruct (observeContext_tables c0 pages0 r) as (_ & _ & -> & _).
  - apply IH. intros c Hc. apply Hall. rewrite fmap_cons. by right.
  - apply Hall. rewrite fmap_cons. by left.
Qed.

(** X20.  The pages of a browser are observed through its contexts.
    After any sequence of recorder events: observing a browser puts
    every context it lists into the table and gives a state to every
    page listed in a context that was not in the table before, keeps
    the state of every page that had one, and changes nothing when done
    again; a context that is in the table has its [page] listener, so
    that a page created in it is observed as if it had been touched,
    and its console messages are recorded from then on; a [page] event
    of a context that is not in the table changes nothing. *)
Theorem pages_of_observed_contexts (evs : list RecorderEvent) :
  let r := recorder_run evs empty_recorder in
  (∀ contexts,
     NoDup contexts.*1 →
     let r' := recorder_step (EvObserveBrowser contexts) r in
     (∀ c pages page,
        (c, pages) ∈ contexts →
        c ∈ observedContexts r' ∧
        (¬ (c ∈ observedContexts r) → page ∈ pages →
         is_Some (pageStates r' !! page))) ∧
     (∀ page sid, pageStates r !! page = Some sid →
                  pageStates r' !! page = Some sid) ∧
     recorder_step (EvObserveBrowser contexts) r' = r') ∧
  (∀ c page entry,
     c ∈ observedContexts r →
     recorder_step (EvContextPage c page) r = recorder_step (EvTouch page) r ∧
     console_of page (recorder_run [EvContextPage c page; EvConsole page entry] r)
       = push_capped MAX_CONSOLE_MESSAGES (console_of page r) entry) ∧
  (∀ c page,
     ¬ (c ∈ observedContexts r) → recorder_step (EvContextPage c page) r = r).
Proof.
  intros r.
  assert (wf r) as Hwf by apply wf_recorder_run, wf_empty.
  assert (∀ c, c ∈ observedContexts r ↔ c ∈ contextListeners r) as Hinv.
  { apply contexts_listened_run. intros c. simpl.
    split; [by intros ?%elem_of_empty|by intros ?%elem_of_nil]. }
  split; [|split].
  - intros contexts Hnd r'. subst r'. cbn [recorder_step].
    destruct (observeBrowser_tables contexts r) as (T1 & T2 & T3 & T4).
    cbv zeta in *. split; [|split; [done|]].
    + intros c pages page Hin. split.
      * apply T2. apply list_elem_of_fmap. by exists (c, pages).
      * intros Hnot Hpage. by apply (T3 Hnd c pages page).
    + by apply observeBrowser_again.
  - intros c page entry Hc.
    assert (recorder_step (EvContextPage c page) r
            = recorder_step (EvTouch page) r) as Hstep.
    { cbn [recorder_step]. rewrite foldl_context_page.
      rewrite bool_decide_eq_true_2; [done|]. by apply Hinv. }
    split; [done|].
    unfold recorder_run. cbn [foldl]. rewrite Hstep.
    rewrite console_event.
    + f_equal. cbn [recorder_step]. unfold console_of at 1.
      rewrite ensurePageState_again. done.
    + by apply wf_recorder_step.
    + cbn [recorder_step]. by destruct (ensurePageState_tables page r) as (_ & _ & ? & _).
  - intros c page Hc. cbn [recorder_step]. rewrite foldl_context_page.
    rewrite bool_decide_eq_false_2; [done|]. by rewrite <- Hinv.
Qed.

End RecorderLifecycle.

(** ** More on the control plane *)

Section ControlPlaneFacts.
Import ServerContext ContextFrame OpenTabTrace.

Variable env : Env.

Lemma frame_refl w : frame w w.
Proof. constructor; try done. by exists []. Qed.

Lemma frame_trans w1 w2 w3 : frame w1 w2 → frame w2 w3 → frame w1 w3.
Proof.
  intros [A1 A2 A3 A4 (l1 & A5 & A6)] [B1 B2 B3 B4 (l2 & B5 & B6)].
  constructor; try congruence; [lia|].
  exists (l2 ++ l1). split.
  - by rewrite B5, A5, app_assoc.
  - by apply Forall_app.
Qed.

Lemma framed_ret {A} (a : A) : framed (mret a : M A).
Proof. intros w. apply frame_refl. Qed.

Lemma framed_throw {A} (e : JsError) : framed (throw e : M A).
Proof. intros w. apply frame_refl. Qed.

Lemma framed_bind {A B} (m : M A) (f : A → M B) :
  framed m → (∀ a, framed (f a)) → framed (m ≫= f).
Proof.
  intros Hm Hf w. unfold mbind, M_bind. specialize (Hm w).
  destruct (m w) as [[a|e] w1]; simpl in *; [|done].
  eapply frame_trans; [exact Hm|apply Hf].
Qed.

Lemma framed_catch {A} (m : M A) (handler : JsError → M A) :
  framed m → (∀ e, framed (handler e)) → framed (catch m handler).
Proof.
  intros Hm Hh w. unfold catch. specialize (Hm w).
  destruct (m w) as [[a|e] w1]; simpl in *; [done|].
  eapply frame_trans; [exact Hm|apply Hh].
Qed.

Lemma framed_external c extra :
  harmless c = true → 0 ≤ extra → framed (external env c extra).
Proof.
  intros Hc Hextra w. constructor; simpl; try done; [lia|].
  exists [(now w, c)]. split; [done|]. by repeat constructor.
Qed.

Lemma framed_state : framed state.
Proof.
  intros w. unfold state, getState, mbind, M_bind.
  destruct (server_state w); apply frame_refl.
Qed.

Lemma framed_fetch url_ method timeoutMs : framed (fetch env url_ method timeoutMs).
Proof.
  apply framed_bind; [by apply framed_external|].
  intros history. destruct (fetch_result env history);
    [apply framed_throw|apply framed_ret].
Qed.

Lemma framed_fetchJson url_ timeoutMs method :
  framed (fetchJson env url_ timeoutMs method).
Proof.
  apply framed_bind; [apply framed_fetch|]. intros res.
  destruct (negb (ok res)); [apply framed_throw|].
  destruct (json res); [apply framed_throw|apply framed_ret].
Qed.

Lemma framed_fetchOk url_ timeoutMs method :
  framed (fetchOk env url_ timeoutMs method).
Proof.
  apply framed_bind; [apply framed_fetch|]. intros res.
  destruct (negb (ok res)); [apply framed_throw|apply framed_ret].
Qed.

Lemma framed_listTabs : framed (listTabs env).
Proof.
  apply framed_bind; [apply framed_state|]. intros current.
  apply framed_bind; [apply framed_fetchJson|]. intros raw.
  destruct raw; first [apply framed_ret|apply framed_throw].
Qed.

Lemma framed_poll fuel deadline id : framed (poll env fuel deadline id).
Proof.
  induction fuel as [|fuel IH]; cbn [poll].
  - apply framed_bind; [intros w; apply frame_refl|]. intros t.
    destruct (t <? deadline)%Z; [apply framed_throw|apply framed_ret].
  - apply framed_bind; [intros w; apply frame_refl|]. intros t.
    destruct (t <? deadline)%Z; [|apply framed_ret].
    apply framed_bind.
    { apply framed_catch; [apply framed_listTabs|]. intros e. apply framed_ret. }
    intros tabs. destruct (List.find _ tabs); [apply framed_ret|].
    apply framed_bind; [|by intros _].
    apply framed_bind; [by apply framed_external|]. intros h. apply framed_ret.
Qed.

Lemma framed_openTab url_ : framed (openTab env url_).
Proof.
  apply framed_bind; [apply framed_state|]. intros current.
  apply framed_bind.
  { apply framed_catch; [|intros e; apply framed_ret].
    apply framed_bind; [|intros id; apply framed_ret].
    apply framed_bind; [by apply framed_external|]. intros h.
    destruct (createTargetViaCdp_result env h);
      [apply framed_throw|apply framed_ret]. }
  intros created. destruct (truthy_opt created).
  - apply framed_bind; [intros w; apply frame_refl|]. intros t.
    apply framed_bind; [apply framed_poll|]. intros found.
    destruct found; apply framed_ret.
  - apply framed_bind.
    { apply framed_catch; [apply framed_fetchJson|]. intros err.
      destruct (includes _ _); [apply framed_fetchJson|apply framed_throw]. }
    intros j. destruct j as [ts|t| |]; try apply framed_throw.
    destruct (truthy_opt (cdp_id t)); [apply framed_ret|apply framed_throw].
Qed.

Lemma framed_isReachable timeoutMs : framed (isReachable env timeoutMs).
Proof.
  apply framed_bind; [apply framed_state|]. intros current.
  apply framed_bind; [by apply framed_external|]. intros h. apply framed_ret.
Qed.

Lemma framed_focusTab x : framed (focusTab env x).
Proof.
  apply framed_bind; [apply framed_state|]. intros current.
  apply framed_bind; [apply framed_listTabs|]. intros tabs.
  destruct (resolve_or_throw x tabs); [apply framed_throw|apply framed_fetchOk].
Qed.

Lemma framed_closeTab x : framed (closeTab env x).
Proof.
  apply framed_bind; [apply framed_state|]. intros current.
  apply framed_bind; [apply framed_listTabs|]. intros tabs.
  destruct (resolve_or_throw x tabs); [apply framed_throw|apply framed_fetchOk].
Qed.

(** X9.  The tab operations and the probe never touch the process
    handle, the cached connection or the [exit] listeners, whatever
    the outside world answers and whether they return or throw: all
    they leave behind is a clock that has not gone back and calls that
    are neither a launch, nor the stopping of a process, nor the
    closing of the server. *)
Theorem tab_operations_frame (w : World) :
  frame w (listTabs env w).2 ∧
  (∀ url_, frame w (openTab env url_ w).2) ∧
  (∀ x, frame w (focusTab env x w).2) ∧
  (∀ x, frame w (closeTab env x w).2) ∧
  (∀ timeoutMs, frame w (isReachable env timeoutMs w).2).
Proof.
  split; [apply framed_listTabs|]. split; [intros; apply framed_openTab|].
  split; [intros; apply framed_focusTab|].
  split; [intros; apply framed_closeTab|intros; apply framed_isReachable].
Qed.

(** With no handle tracked no [exit] listener does anything. *)
Lemma foldl_exit_idle p (ls : list (nat * Z)) w :
  (∀ s, server_state w = Some s → running s = None) →
  foldl (λ acc l, if bool_decide (l.1 = p) then exit_listener l.2 acc.2 else acc)
    (Return (), w) ls = (Return (), w).
Proof.
  intros Hidle. induction ls as [|[p' lp] ls IH]; cbn [foldl fst snd]; [done|].
  case_bool_decide; [|done].
  rewrite exit_listener_run.
  destruct (server_state w) as [s|] eqn:Hs; [|done].
  by rewrite (Hidle s eq_refl).
Qed.

Lemma foldl_exit_tracked p (ls : list (nat * Z)) w s r :
  server_state w = Some s → running s = Some r →
  foldl (λ acc l, if bool_decide (l.1 = p) then exit_listener l.2 acc.2 else acc)
    (Return (), w) ls
  = (Return (),
     if bool_decide ((p, pid r) ∈ ls)
     then (set_server_state (Some (cleared s)) w).2 else w).
Proof.
  intros Hs Hr. induction ls as [|[p' lp] ls IH]; cbn [foldl fst snd].
  - rewrite bool_decide_eq_false_2; [done|]. by intros ?%elem_of_nil.
  - destruct (decide (p' = p)) as [->|Hp].
    + rewrite (bool_decide_eq_true_2 (p = p)) by done.
      rewrite exit_listener_run, Hs, Hr.
      destruct (decide (pid r = lp)) as [<-|Hpid].
      * rewrite (bool_decide_eq_true_2 (pid r = pid r)) by done.
        rewrite (bool_decide_eq_true_2 (_ ∈ _ :: ls)) by by left.
        apply foldl_exit_idle. simpl. by intros s' [= <-].
      * rewrite (bool_decide_eq_false_2 (pid r = lp)) by done.
        rewrite IH.
        rewrite (bool_decide_ext ((p, pid r) ∈ (p, lp) :: ls) ((p, pid r) ∈ ls));
          [done|].
        rewrite elem_of_cons. split; [intros [?|?]; [congruence|done]|by right].
    + rewrite (bool_decide_eq_false_2 (p' = p)) by done. rewrite IH.
      rewrite (bool_decide_ext ((p, pid r) ∈ (p', lp) :: ls) ((p, pid r) ∈ ls));
        [done|].
      rewrite elem_of_cons. split; [intros [?|?]; [congruence|done]|by right].
Qed.

(** X10.  The [exit] event of a child process always returns and can
    only clear the handle: the handle is cleared exactly when one of
    the listeners registered on that process holds the pid of the
    tracked handle, and nothing else changes.  In particular a browser
    that [ensureBrowserAvailable] launched and that then exits leaves
    no handle behind. *)
Theorem exit_clears_tracked_handle (p : nat) (w : World) :
  (∃ w',
     emit_exit p w = (Return (), w') ∧
     pw w' = pw w ∧ calls w' = calls w ∧ now w' = now w ∧
     exitListeners w' = exitListeners w ∧
     server_state w' =
       match server_state w with
       | Some s =>
           match running s with
           | Some r =>
               if bool_decide ((p, pid r) ∈ exitListeners w)
               then Some (cleared s) else Some s
           | None => Some s
           end
       | None => None
       end) ∧
  (∀ s launched,
     server_state w = Some s →
     let probe := CallProbe (cdpPort s) 300 in
     let w1 := called env probe 0 w in
     isChromeReachable_result env ((now w, probe) :: calls w) = false →
     attachOnly (resolved s) = false →
     launchClawdChrome_result env ((now w1, CallLaunch (resolved s)) :: calls w1)
       = inr launched →
     ∃ w2 w3,
       ensureBrowserAvailable env w = (Return (), w2) ∧
       (running <$> server_state w2) = Some (Some launched) ∧
       emit_exit (proc launched) w2 = (Return (), w3) ∧
       (running <$> server_state w3) = Some None).
Proof.
  split.
  - unfold emit_exit.
    destruct (server_state w) as [s|] eqn:Hs.
    + destruct (running s) as [r|] eqn:Hr.
      * rewrite (foldl_exit_tracked p _ w s r Hs Hr). eexists. split; [done|].
        case_bool_decide; simpl; by rewrite ?Hs.
      * rewrite foldl_exit_idle by (intros s'; rewrite Hs; by intros [= <-]).
        eexists. split; [done|]. by rewrite Hs.
    + rewrite foldl_exit_idle by (intros s'; by rewrite Hs).
      eexists. split; [done|]. by rewrite Hs.
  - intros s launched Hs probe w1 Hp Ha Hl. subst probe w1.
    rewrite (ensureBrowserAvailable_unfold env w s Hs). cbv zeta.
    rewrite Hp, Ha, Hl.
    unfold setRunning, getState, set_server_state, register_exit_listener,
      mbind, M_bind, mret, M_ret. simpl. rewrite Hs.
    eexists _, _. split; [done|]. split; [done|].
    unfold emit_exit. cbn [exitListeners].
    erewrite foldl_exit_tracked; [|done|done].
    rewrite bool_decide_eq_true_2.
    + split; [done|]. done.
    + apply elem_of_app. right. by apply list_elem_of_singleton.
Qed.

(** X11.  When the first listing shows a tab, [ensureTabAvailable]
    opens nothing: after the probe of [ensureBrowserAvailable] and the
    first listing it asks for the listing once more and that is its
    last call, and it is decided on that second listing. *)
Theorem ensureTabAvailable_opens_nothing (id : option string) (w w1 w2 : World)
  (first : BrowserTab) (rest : list BrowserTab) :
  ensureBrowserAvailable env w = (Return (), w1) →
  listTabs env w1 = (Return (first :: rest), w2) →
  ∃ s,
    server_state w2 = Some s ∧
    let listing := CallFetch (listing_url s) None 1500 in
    let w3 := called env listing 0 w2 in
    (ensureTabAvailable env id w).2 = w3 ∧
    calls w3 = (now w2, listing) :: (now w1, listing) :: calls w1 ∧
    (ensureTabAvailable env id w).1 =
      match (listTabs env w2).1 with
      | Throw e => Throw e
      | Return tabs =>
          match check_chosen (choose id tabs) with
          | inl e => Throw e
          | inr chosen => Return chosen
          end
      end.
Proof.
  intros Hensure Hlist.
  destruct (listTabs_started env w1 _ w2 Hlist) as (s & Hs1 & Hs2).
  exists s. split; [done|]. cbv zeta.
  destruct (listTabs_run env w1 s Hs1) as [r1 Hr1].
  assert (w2 = called env (CallFetch (listing_url s) None 1500) 0 w1) as Hw2
    by congruence.
  destruct (listTabs_run env w2 s Hs2) as [r2 Hr2].
  unfold ensureTabAvailable, mbind, M_bind.
  rewrite Hensure, Hlist. simpl. rewrite Hr2.
  split; [|split].
  - destruct r2 as [tabs|e]; [|done].
    by destruct (check_chosen (choose id tabs)).
  - by rewrite Hw2.
  - destruct r2 as [tabs|e]; [|done]. simpl.
    by destruct (check_chosen (choose id tabs)).
Qed.

(** X12.  Shutting the control server down always returns and is
    final.  On a started control plane it stops the tracked process, if
    there is one, then closes the server, forgets the server state and
    closes the connection, in this order.  On a control plane that is
    not started it does nothing at all (the connection is not closed
    either), and so does a second shutdown. *)
Theorem shutdown_is_final (w : World) :
  let w' := (stopBrowserControlServer env w).2 in
  (stopBrowserControlServer env w).1 = Return () ∧
  stopBrowserControlServer env w' = (Return (), w') ∧
  exitListeners w' = exitListeners w ∧
  match server_state w with
  | None => w' = w
  | Some s =>
      server_state w' = None ∧
      (∃ t, calls w' =
              (t, CallServerClose (server s)) ::
              match running s with
              | Some r => [(now w, CallStopChrome r)]
              | None => []
              end ++ calls w) ∧
      pw w' = PwSession.closePlaywrightBrowserConnection (pw w)
  end.
Proof.
  cbv zeta.
  assert (∀ w0, server_state w0 = None →
                stopBrowserControlServer env w0 = (Return (), w0)) as Hidle.
  { intros w0 H0. unfold stopBrowserControlServer, getState, mbind, M_bind.
    by rewrite H0. }
  destruct (server_state w) as [s|] eqn:Hs.
  - unfold stopBrowserControlServer at 1 3 4 5 6 7 8.
    unfold getState, mbind, M_bind. rewrite Hs. cbv beta iota.
    unfold catch, stopRunningBrowser, mbind, M_bind.
    rewrite (state_started w s Hs).
    destruct (running s) as [r|] eqn:Hr.
    + rewrite stopClawdChrome_run.
      unfold setRunning, getState, set_server_state, modify_pw, external,
        mbind, M_bind, mret, M_ret. simpl. rewrite Hs. simpl.
      split; [done|]. split; [by apply Hidle|]. split; [done|].
      split; [done|]. split; [by eexists|done].
    + unfold set_server_state, modify_pw, external, mbind, M_bind, mret, M_ret.
      simpl.
      split; [done|]. split; [by apply Hidle|]. split; [done|].
      split; [done|]. split; [by eexists|done].
  - rewrite (Hidle w Hs). simpl. split; [done|]. split; [by apply Hidle|done].
Qed.

(** X22.  [listTabs] makes one request, to the listing endpoint of
    the debugging port, with a timeout of 1500ms.  It returns only
    from an answer with a success status whose body is an array; the
    tabs it returns are the targets of that array in their order, with
    absent titles and urls read as empty, and without the targets that
    have no id: no tab it returns has an empty id. *)
Theorem listTabs_drops_unidentified (w w' : World) (tabs : list BrowserTab) :
  listTabs env w = (Return tabs, w') →
  ∃ s res ts,
    server_state w = Some s ∧
    w' = called env (CallFetch (listing_url s) None 1500) 0 w ∧
    fetch_result env (calls w') = inr res ∧ ok res = true ∧
    json res = inr (JTargets ts) ∧
    tabs = List.filter (λ t, truthy (targetId t)) (tab_of_target <$> ts) ∧
    tabs `sublist_of` (tab_of_target <$> ts) ∧
    Forall (λ t, targetId t ≠ "") tabs ∧
    (length tabs ≤ length ts)%nat.
Proof.
  intros Hlist.
  destruct (listTabs_started env w tabs w' Hlist) as (s & Hs & _).
  exists s. revert Hlist. unfold listTabs, mbind, M_bind.
  rewrite (state_started w s Hs), fetchJson_run.
  fold (listing_url s).
  destruct (fetch_result env _) as [e|res] eqn:Hres; [done|].
  unfold json_outcome. destruct (ok res) eqn:Hok; [|done].
  destruct (json res) as [e|[ts|t| |]] eqn:Hjson; try done.
  intros [= <- <-]. exists res, ts.
  split; [done|]. split; [done|]. split; [done|]. split; [done|].
  split; [done|]. split; [done|].
  assert (∀ (p : BrowserTab → bool) l, List.filter p l `sublist_of` l) as Hsub.
  { intros p l. induction l as [|x l IH]; simpl; [done|].
    destruct (p x); [by apply sublist_skip|by apply sublist_cons]. }
  split; [apply Hsub|]. split.
  - apply Forall_forall. intros t Hin.
    apply list_elem_of_In, filter_In in Hin as [_ Ht]. by destruct (targetId t).
  - etrans; [apply sublist_length, Hsub|]. by rewrite length_fmap.
Qed.

End ControlPlaneFacts.

(** ** The routes *)

Section RouteFacts.
Import ServerContext Routes OpenTabTrace.

Variable env : Env.

Lemma fetchOk_run url_ timeoutMs method w :
  fetchOk env url_ timeoutMs method w =
    (match fetch_result env ((now w, CallFetch url_ method timeoutMs) :: calls w) with
     | inl e => Throw e
     | inr res =>
         if ok res then Return ()
         else Throw (Error ("HTTP " +:+ render (status res)))
     end,
     called env (CallFetch url_ method timeoutMs) 0 w).
Proof.
  unfold fetchOk, fetch, mbind, M_bind. rewrite external_run.
  destruct (fetch_result env _) as [e|res]; [done|].
  simpl. by destruct (ok res).
Qed.

Lemma closeTab_decides x w w1 s tabs :
  server_state w = Some s →
  listTabs env w = (Return tabs, w1) →
  closeTab env x w =
    match resolve_or_throw x tabs with
    | inl e => (Throw e, w1)
    | inr id =>
        fetchOk env (base_url s +:+ "/json/close/" +:+ id) 1500 None w1
    end.
Proof.
  intros Hs Hl. unfold closeTab, mbind, M_bind.
  rewrite (state_started w s Hs), Hl.
  by destruct (resolve_or_throw x tabs).
Qed.

(** The reply of a route to the outcome of the request it sent. *)
Lemma reply_of_fetchOk url_ w :
  (_ ← fetchOk env url_ 1500 None; mret (Json OkTrue) : M (Reply Ok)) w =
    (match fetch_result env ((now w, CallFetch url_ None 1500) :: calls w) with
     | inl e => Throw e
     | inr res =>
         if ok res then Return (Json OkTrue)
         else Throw (Error ("HTTP " +:+ render (status res)))
     end,
     called env (CallFetch url_ None 1500) 0 w).
Proof.
  unfold mbind, M_bind. rewrite fetchOk_run.
  destruct (fetch_result env _) as [e|res]; [done|]. by destruct (ok res).
Qed.

(** X13.  [POST /tabs/focus] and [DELETE /tabs/:targetId] on a started
    control plane whose browser answers the probe, for a non-empty
    target id: a failed listing is answered through the error mapping;
    a target the resolver cannot settle gets 409 (ambiguous prefix) or
    404 (not found), and then the listing was the last request made,
    so nothing is activated or closed; a resolved target gets exactly
    one request to the activate (close) endpoint of the resolved id,
    and [{ok: true}] exactly when that request is answered with
    success. *)
Theorem tab_routes_resolve (x : string) (w : World) (s : BrowserServerState) :
  server_state w = Some s → x ≠ "" →
  let probe := CallProbe (cdpPort s) 300 in
  let w1 := called env probe 0 w in
  isChromeReachable_result env ((now w, probe) :: calls w) = true →
  match listTabs env w1 with
  | (Throw e, w2) =>
      post_tabs_focus env x w = (Return (tab_error e), w2) ∧
      delete_tab env x w = (Return (tab_error e), w2)
  | (Return tabs, w2) =>
      match TargetId.resolveTargetIdFromTabs x tabs with
      | TargetId.Unresolved reason =>
          post_tabs_focus env x w = (Return (unresolved_reply reason), w2) ∧
          delete_tab env x w = (Return (unresolved_reply reason), w2)
      | TargetId.Resolved id =>
          let reply_to (sent : Call) : Reply Ok :=
            match fetch_result env ((now w2, sent) :: calls w2) with
            | inl e => tab_error e
            | inr res =>
                if ok res then Json OkTrue
                else tab_error (Error ("HTTP " +:+ render (status res)))
            end in
          let activate :=
            CallFetch (base_url s +:+ "/json/activate/" +:+ id) None 1500 in
          let close :=
            CallFetch (base_url s +:+ "/json/close/" +:+ id) None 1500 in
          post_tabs_focus env x w
            = (Return (reply_to activate), called env activate 0 w2) ∧
          delete_tab env x w
            = (Return (reply_to close), called env close 0 w2)
      end
  end.
Proof.
  intros Hs Hx probe w1 Hp.
  assert (server_state w1 = Some s) as Hs1 by done.
  assert (∀ (m : M (Reply Ok)),
            (if negb (truthy x) then mret (JsonError 400 "targetId is required")
             else catch
                    (reachable ← isReachable env (Some 300);
                     if negb reachable
                     then mret (JsonError 409 "browser not running")
                     else m)
                    (λ err, mret (tab_error err))) w
            = catch m (λ err, mret (tab_error err)) w1) as Hroute.
  { intros m. rewrite (truthy_nonempty x Hx). simpl.
    unfold catch, mbind, M_bind.
    rewrite (isReachable_started env (Some 300) w s Hs). simpl.
    fold probe. rewrite Hp. simpl. done. }
  assert (∀ (m : M unit),
            catch (_ ← m; mret (Json OkTrue)) (λ err, mret (tab_error err)) w1
            = match m w1 with
              | (Return _, w') => (Return (Json OkTrue : Reply Ok), w')
              | (Throw e, w') => (Return (tab_error e), w')
              end) as Hcatch.
  { intros m. unfold catch, mbind, M_bind. by destruct (m w1) as [[[]|e] w']. }
  unfold post_tabs_focus, delete_tab. rewrite !Hroute, !Hcatch.
  clear Hroute Hcatch.
  destruct (listTabs env w1) as [[tabs|e] w2] eqn:Hl.
  - rewrite (focusTab_decides env x w1 w2 s tabs Hs1 Hl),
      (closeTab_decides x w1 w2 s tabs Hs1 Hl).
    unfold resolve_or_throw.
    destruct (TargetId.resolveTargetIdFromTabs x tabs) as [id|reason].
    + cbv zeta. rewrite !fetchOk_run.
      split.
      * destruct (fetch_result env _) as [e|res]; [done|]. by destruct (ok res).
      * destruct (fetch_result env ((now w2, CallFetch (_ +:+ "/json/close/" +:+ _) _ _) :: _))
          as [e|res]; [done|]. by destruct (ok res).
    + by destruct reason.
  - assert (focusTab env x w1 = (Throw e, w2)) as ->.
    { unfold focusTab, mbind, M_bind. by rewrite (state_started w1 s Hs1), Hl. }
    assert (closeTab env x w1 = (Throw e, w2)) as ->.
    { unfold closeTab, mbind, M_bind. by rewrite (state_started w1 s Hs1), Hl. }
    done.
Qed.

Lemma tab_error_status {A} (err : JsError) :
  status_of (tab_error err : Reply A) ∈ [404; 409; 500].
Proof.
  unfold tab_error, mapTabError.
  destruct (includes "ambiguous target id prefix" _); simpl.
  - apply elem_of_cons. right. by left.
  - destruct (includes "tab not found" _); simpl.
    + by left.
    + do 2 (apply elem_of_cons; right). by left.
Qed.

(** X14.  What the routes answer when there is no browser to talk to.
    They never throw, and the tab routes answer with one of the
    statuses 200, 400, 404, 409 and 500.  An empty target id is refused
    with 400 before anything is asked.  On a control plane that is not
    started only [GET /] answers 503; [POST /start], [GET /tabs] and the
    tab routes answer 500 with the text of the error, and nothing is
    asked of the outside.  On a started control plane whose browser does
    not answer the probe, [GET /tabs] answers an empty listing marked as
    not running and the tab routes answer 409, the probe being the only
    call made. *)
Theorem routes_without_browser (w : World) :
  (∀ x, ∃ reply w',
     post_tabs_focus env x w = (Return reply, w') ∧
     status_of reply ∈ [200; 400; 404; 409; 500]) ∧
  (∀ x, ∃ reply w',
     delete_tab env x w = (Return reply, w') ∧
     status_of reply ∈ [200; 400; 404; 409; 500]) ∧
  post_tabs_focus env "" w = (Return (JsonError 400 "targetId is required"), w) ∧
  delete_tab env "" w = (Return (JsonError 400 "targetId is required"), w) ∧
  (server_state w = None →
   let not_started := "Error: Browser server not started" in
   get_status env w = (Return (JsonError 503 "browser server not started"), w) ∧
   post_start env w = (Return (JsonError 500 not_started), w) ∧
   get_tabs env w = (Return (JsonError 500 not_started), w) ∧
   ∀ x, x ≠ "" →
        post_tabs_focus env x w = (Return (JsonError 500 not_started), w) ∧
        delete_tab env x w = (Return (JsonError 500 not_started), w) ∧
        post_tabs_open env x w = (Return (JsonError 500 not_started), w)) ∧
  (∀ s, server_state w = Some s →
        let probe := CallProbe (cdpPort s) 300 in
        let w1 := called env probe 0 w in
        isChromeReachable_result env ((now w, probe) :: calls w) = false →
        get_tabs env w
          = (Return (Json {| tabs_running := false; tabs_listed := [] |}), w1) ∧
        (∃ body, get_status env w = (Return (Json body), w1) ∧
                 st_running body = false ∧ st_pid body = pid <$> running s) ∧
        ∀ x, x ≠ "" →
             post_tabs_focus env x w
               = (Return (JsonError 409 "browser not running"), w1) ∧
             delete_tab env x w
               = (Return (JsonError 409 "browser not running"), w1)).
Proof.
  assert (∀ (m : M unit) x, ∃ reply w',
            (if negb (truthy x) then mret (JsonError 400 "targetId is required")
             else catch
                    (reachable ← isReachable env (Some 300);
                     if negb reachable
                     then mret (JsonError 409 "browser not running")
                     else _ ← m; mret (Json OkTrue))
                    (λ err, mret (tab_error err))) w = (Return reply, w') ∧
            status_of (reply : Reply Ok) ∈ [200; 400; 404; 409; 500]) as Htotal.
  { intros m x. destruct (truthy x); simpl.
    - unfold catch, mbind, M_bind.
      destruct (isReachable env (Some 300) w) as [[[]|e] w1]; simpl.
      + destruct (m w1) as [[[]|e] w2]; simpl.
        * eexists _, _. split; [done|]. by left.
        * eexists _, _. split; [done|].
          pose proof (tab_error_status (A:=Ok) e) as He.
          do 2 (apply elem_of_cons; right). exact He.
      + eexists _, _. split; [done|]. simpl.
        do 3 (apply elem_of_cons; right). by left.
      + eexists _, _. split; [done|].
        pose proof (tab_error_status (A:=Ok) e) as He.
        do 2 (apply elem_of_cons; right). exact He.
    - eexists _, _. split; [done|]. simpl. apply elem_of_cons. right. by left. }
  split; [intros x; apply (Htotal (focusTab env x))|].
  split; [intros x; apply (Htotal (closeTab env x))|].
  split; [done|]. split; [done|]. split.
  - intros Hs not_started.
    assert (∀ t, isReachable env t w
                 = (Throw (Error "Browser server not started"), w)) as Hreach.
    { intros t. unfold isReachable, mbind, M_bind.
      by rewrite (state_not_started w Hs). }
    split.
    { unfold get_status, catch, mbind, M_bind.
      by rewrite (state_not_started w Hs). }
    split.
    { unfold post_start, catch, ensureBrowserAvailable, mbind, M_bind.
      by rewrite (state_not_started w Hs). }
    split.
    { unfold get_tabs, catch, mbind, M_bind. by rewrite Hreach. }
    intros x Hx.
    unfold post_tabs_focus, delete_tab, post_tabs_open.
    rewrite (truthy_nonempty x Hx). simpl.
    unfold catch, ensureBrowserAvailable, mbind, M_bind.
    by rewrite Hreach, (state_not_started w Hs).
  - intros s Hs probe w1 Hp.
    assert (isReachable env (Some 300) w = (Return false, w1)) as Hreach.
    { rewrite (isReachable_started env (Some 300) w s Hs). simpl.
      fold probe. by rewrite Hp. }
    split.
    { unfold get_tabs, catch, mbind, M_bind. by rewrite Hreach. }
    split.
    { unfold get_status, catch, mbind, M_bind.
      rewrite (state_started w s Hs). simpl. rewrite Hreach.
      eexists. split; [done|]. done. }
    intros x Hx. unfold post_tabs_focus, delete_tab.
    rewrite (truthy_nonempty x Hx). simpl.
    unfold catch, mbind, M_bind. by rewrite Hreach.
Qed.

End RouteFacts.

(** ** The page of a target *)

Section PageLookupFacts.
Import PwSession ServerContext JsString PageLookup.

Variable env : PwEnv.

Lemma pageTargetId_run page w :
  let h1 := PwNewSession page :: asked w in
  pageTargetId env page w =
    match newCDPSession_result env h1 with
    | inl e =>
        (Throw e,
         {| session := session w; tracingContexts := tracingContexts w;
            asked := h1 |})
    | inr cdp =>
        (match send_result env (PwSend cdp :: h1) with
         | inl e => Throw e
         | inr info =>
             Return (if truthy (trim (default "" info))
                     then Some (trim (default "" info)) else None)
         end,
         {| session := session w; tracingContexts := tracingContexts w;
            asked := PwDetach cdp :: PwSend cdp :: h1 |})
    end.
Proof.
  intros h1. unfold pageTargetId, newCDPSession, ask, mbind, P_bind. simpl.
  fold h1. destruct (newCDPSession_result env h1) as [e|cdp]; [done|].
  unfold try_finally, getTargetInfo, detach, ask, mbind, P_bind. simpl.
  by destruct (send_result env (PwSend cdp :: h1)) as [e|info].
Qed.

(** A page is the target exactly when it reports the id asked for. *)
Lemma is_target_reported targetId_ history :
  is_target targetId_ (reported env history) = true ↔
  reported env history = Some targetId_.
Proof.
  unfold reported. destruct (send_result env history) as [e|info]; [done|].
  cbv zeta. destruct (truthy (trim (default "" info))) eqn:Ht; [|done].
  simpl. rewrite Ht. simpl. rewrite bool_decide_eq_true.
  split; [by intros ->|by intros [= ->]].
Qed.

Lemma reported_nonempty history : reported env history ≠ Some "".
Proof.
  unfold reported. destruct (send_result env history) as [e|info]; [done|].
  cbv zeta. destruct (truthy (trim (default "" info))) eqn:Ht; [|done].
  intros [= Heq]. by rewrite Heq in Ht.
Qed.

(** What [pageTargetId(page).catch(() => null)] gives. *)
Lemma pageTargetId_rescued page w :
  let h1 := PwNewSession page :: asked w in
  rescue (pageTargetId env page) (λ _, mret None) w =
    match newCDPSession_result env h1 with
    | inl e =>
        (Return None,
         {| session := session w; tracingContexts := tracingContexts w;
            asked := h1 |})
    | inr cdp =>
        (Return (reported env (PwSend cdp :: h1)),
         {| session := session w; tracingContexts := tracingContexts w;
            asked := PwDetach cdp :: PwSend cdp :: h1 |})
    end.
Proof.
  intros h1. unfold rescue. rewrite pageTargetId_run. cbv zeta. fold h1.
  destruct (newCDPSession_result env h1) as [e|cdp]; [done|].
  unfold reported. by destruct (send_result env (PwSend cdp :: h1)).
Qed.

(** The loop of [findPageByTargetId]: it returns, it writes nothing,
    it probes the pages in order, every session it opens it detaches,
    and it stops at the first page that reports the id asked for. *)
Lemma find_page_spec targetId_ pages w :
  ∃ result w' trace probed,
    find_page env targetId_ pages w = (Return result, w') ∧
    session w' = session w ∧ tracingContexts w' = tracingContexts w ∧
    asked w' = rev trace ++ asked w ∧
    probes trace probed.*1 ∧
    answers env (asked w) trace probed ∧
    match result with
    | Some page =>
        ∃ earlier later,
          probed = earlier ++ [(page, Some targetId_)] ∧
          pages = earlier.*1 ++ page :: later ∧
          Forall (λ pt, pt.2 ≠ Some targetId_) earlier ∧
          targetId_ ≠ ""
    | None =>
        probed.*1 = pages ∧ Forall (λ pt, pt.2 ≠ Some targetId_) probed
    end.
Proof.
  revert w. induction pages as [|page rest IH]; intros w.
  - exists None, w, [], []. repeat (split; [done|]).
    split; [constructor|]. split; [constructor|]. by split.
  - cbn [find_page]. unfold mbind, P_bind.
    rewrite pageTargetId_rescued. cbv zeta.
    set (h1 := PwNewSession page :: asked w).
    destruct (newCDPSession_result env h1) as [e|cdp] eqn:Hnew.
    + cbn [is_target].
      match goal with |- context [find_page env targetId_ rest ?w1] =>
        destruct (IH w1)
          as (result & w' & trace & probed & Hrun & Hs & Ht & Ha & Hp & Hans & Hr)
      end.
      cbn [asked] in Ha, Hans.
      exists result, w', (PwNewSession page :: trace), ((page, None) :: probed).
      split; [done|]. split; [done|]. split; [done|]. split.
      { rewrite Ha. simpl. by rewrite <- app_assoc. }
      split; [by constructor|]. split; [by econstructor|].
      destruct result as [found|].
      * destruct Hr as (earlier & later & -> & -> & Hearlier & Hne).
        exists ((page, None) :: earlier), later.
        split; [done|]. split; [done|]. split; [|done].
        by constructor.
      * destruct Hr as [<- Hall]. split; [done|]. by constructor.
    + set (w1 := {| session := session w; tracingContexts := tracingContexts w;
                    asked := PwDetach cdp :: PwSend cdp :: h1 |}).
      destruct (is_target targetId_ (reported env (PwSend cdp :: h1))) eqn:Htarget.
      * apply is_target_reported in Htarget.
        exists (Some page), w1,
          [PwNewSession page; PwSend cdp; PwDetach cdp],
          [(page, reported env (PwSend cdp :: h1))].
        split; [done|]. split; [done|]. split; [done|]. split; [done|].
        split; [apply probes_session, probes_nil|].
        split; [apply answers_session; [done|constructor]|].
        exists [], rest. rewrite Htarget. split; [done|]. split; [done|].
        split; [constructor|].
        intros ->. by apply (reported_nonempty (PwSend cdp :: h1)).
      * destruct (IH w1)
          as (result & w' & trace & probed & Hrun & Hs & Ht & Ha & Hp & Hans & Hr).
        cbn [asked] in Ha, Hans.
        assert (reported env (PwSend cdp :: h1) ≠ Some targetId_) as Hother.
        { intros Heq. apply is_target_reported in Heq. congruence. }
        exists result, w',
          (PwNewSession page :: PwSend cdp :: PwDetach cdp :: trace),
          ((page, reported env (PwSend cdp :: h1)) :: probed).
        split; [done|]. split; [done|]. split; [done|]. split.
        { rewrite Ha. simpl. by rewrite <- !app_assoc. }
        split; [by constructor|]. split; [by apply answers_session|].
        destruct result as [found|].
        -- destruct Hr as (earlier & later & -> & -> & Hearlier & Hne).
           exists ((page, reported env (PwSend cdp :: h1)) :: earlier), later.
           split; [done|]. split; [done|]. split; [|done].
           by constructor.
        -- destruct Hr as [<- Hall]. split; [done|]. by constructor.
Qed.

(** X15.  [findPageByTargetId] never throws and writes nothing.  It
    lists the pages of the browser once and then probes them in that
    order.  A page whose session cannot be opened reports nothing;
    every session that is opened is asked once and detached at once,
    and the page reports the target id of the answer, trimmed, or
    nothing when the question failed or the id is empty.  The answer
    is the first page that reports the id asked for: every page before
    it was probed and reported something else, and the pages after it
    are not touched.  The answer is [null] exactly when every page was
    probed and none reported the id. *)
Theorem findPageByTargetId_probes (b : Browser) (targetId_ : string)
  (w : PwWorld) :
  let listed := PwContexts b :: asked w in
  let pages := concat (snd <$> contexts_result env listed) in
  ∃ result w' trace probed,
    findPageByTargetId env b targetId_ w = (Return result, w') ∧
    session w' = session w ∧ tracingContexts w' = tracingContexts w ∧
    asked w' = rev trace ++ listed ∧
    probes trace probed.*1 ∧
    answers env listed trace probed ∧
    match result with
    | Some page =>
        ∃ earlier later,
          probed = earlier ++ [(page, Some targetId_)] ∧
          pages = earlier.*1 ++ page :: later ∧
          Forall (λ pt, pt.2 ≠ Some targetId_) earlier ∧
          targetId_ ≠ ""
    | None =>
        probed.*1 = pages ∧ Forall (λ pt, pt.2 ≠ Some targetId_) probed
    end.
Proof.
  intros listed pages.
  unfold findPageByTargetId, getAllPages, ask, mbind, P_bind. simpl.
  fold listed. fold pages.
  match goal with |- context [find_page env targetId_ pages ?w1] =>
    destruct (find_page_spec targetId_ pages w1)
      as (result & w' & trace & probed & Hrun & Hs & Ht & Ha & Hp & Hans & Hr)
  end.
  by exists result, w', trace, probed.
Qed.

Lemma run_app ls1 ls2 s :
  run (ls1 ++ ls2) s = (s' ← run ls1 s; run ls2 s').
Proof.
  revert s. induction ls1 as [|l ls1 IH]; intros s; simpl; [done|].
  destruct (step l s) as [s1|]; simpl; [apply IH|done].
Qed.

(** Awaiting an attempt is a run of the event loop. *)
Lemma await_attempt_steps a w :
  ∃ ls, run ls (session w) = Some (session (await_attempt env a w).2) ∧
        tracingContexts (await_attempt env a w).2 = tracingContexts w.
Proof.
  unfold await_attempt, get_session, set_session, ask, fail, mbind, P_bind.
  simpl.
  destruct (attempts (session w) !! a) as [[e st]|] eqn:Ha;
    [|by exists []].
  destruct st as [|connected|err|[err|connected]].
  - destruct (connectOverCDP_result env (asked w)) as [err|b]; simpl.
    + exists [LReject a err; LFinally a]. simpl. rewrite Ha. simpl.
      by rewrite list_lookup_alter_eq, Ha.
    + exists [LFulfil a b (contexts_result env (PwContexts b :: asked w));
              LFinally a].
      simpl. rewrite Ha. simpl. by rewrite list_lookup_alter_eq, Ha.
  - exists [LFinally a]. simpl. by rewrite Ha.
  - exists [LFinally a]. simpl. by rewrite Ha.
  - by exists [].
  - by exists [].
Qed.

Lemma connectBrowser_await_steps e w :
  ∃ ls, run ls (session w) = Some (session (connectBrowser_await env e w).2) ∧
        tracingContexts (connectBrowser_await env e w).2 = tracingContexts w.
Proof.
  unfold connectBrowser_await, get_session, mbind, P_bind. simpl.
  destruct (PwSession.connectBrowser e (session w)) as [[c|a] s1] eqn:Hc.
  - by exists [].
  - unfold set_session. simpl.
    assert (∀ w1, session w1 = s1 → tracingContexts w1 = tracingContexts w →
              ∃ ls, run ls (session w)
                      = Some (session (await_attempt env a w1).2) ∧
                    tracingContexts (await_attempt env a w1).2
                      = tracingContexts w) as Hawait.
    { intros w1 Hs1 Ht1.
      destruct (await_attempt_steps a w1) as (ls & Hrun & Ht).
      exists (LConnect e :: ls). simpl. rewrite Hc. simpl.
      rewrite Hs1 in Hrun. split; [done|]. by rewrite Ht. }
    destruct (connecting (session w)); by apply Hawait.
Qed.

Lemma getPageForTargetId_frame cdpPort_ targetId_ w :
  (∃ ls, run ls (session w)
         = Some (session (getPageForTargetId env cdpPort_ targetId_ w).2)) ∧
  tracingContexts (getPageForTargetId env cdpPort_ targetId_ w).2
  = tracingContexts w.
Proof.
  unfold getPageForTargetId, mbind, P_bind.
  destruct (connectBrowser_await_steps (endpointForCdpPort cdpPort_) w)
    as (ls & Hrun & Ht).
  destruct (connectBrowser_await env (endpointForCdpPort cdpPort_) w)
    as [[connected|e] w1]; simpl in Hrun, Ht; [|by split; [exists ls|]].
  unfold getAllPages at 1. unfold ask, mbind, P_bind. simpl.
  destruct (concat _) as [|first pages]; [by split; [exists ls|]|].
  destruct (truthy_opt targetId_); simpl; [|by split; [exists ls|]].
  unfold findPageByTargetId, getAllPages, ask, mbind, P_bind. simpl.
  match goal with |- context [find_page env ?t ?ps ?w2] =>
    destruct (find_page_spec t ps w2)
      as (result & w3 & trace & probed & -> & Hs & Htr & _)
  end.
  simpl in Hs, Htr. destruct result; simpl; (split; [exists ls|]); congruence.
Qed.

(** [getPageForTargetId] step by step. *)
Lemma getPageForTargetId_unfold cdpPort_ targetId_ w :
  getPageForTargetId env cdpPort_ targetId_ w =
    match connectBrowser_await env (endpointForCdpPort cdpPort_) w with
    | (Throw e, w1) => (Throw e, w1)
    | (Return connected, w1) =>
        let listed := PwContexts (browser connected) :: asked w1 in
        let w2 := {| session := session w1;
                     tracingContexts := tracingContexts w1;
                     asked := listed |} in
        match concat (snd <$> contexts_result env listed) with
        | [] =>
            (Throw (Error "No pages available in the connected browser."), w2)
        | first :: _ =>
            if truthy_opt targetId_ then
              match find_page env (default "" targetId_)
                      (concat (snd <$> contexts_result env
                                 (PwContexts (browser connected) :: listed)))
                      {| session := session w1;
                         tracingContexts := tracingContexts w1;
                         asked := PwContexts (browser connected) :: listed |}
              with
              | (Return (Some found), w3) => (Return found, w3)
              | (Return None, w3) => (Throw (Error "tab not found"), w3)
              | (Throw e, w3) => (Throw e, w3)
              end
            else (Return first, w2)
        end
    end.
Proof.
  unfold getPageForTargetId, mbind, P_bind.
  destruct (connectBrowser_await env (endpointForCdpPort cdpPort_) w)
    as [[connected|e] w1]; [|done].
  unfold getAllPages at 1. unfold ask, mbind, P_bind. simpl.
  destruct (concat _) as [|first pages]; [done|].
  destruct (truthy_opt targetId_); simpl; [|done].
  unfold findPageByTargetId, getAllPages, ask, mbind, P_bind. simpl.
  match goal with |- context [find_page env ?t ?ps ?w2] =>
    destruct (find_page env t ps w2) as [[[found|]|e] w3]
  end; done.
Qed.

(** X16.  [getPageForTargetId] leaves the connection module in a state
    the event loop reaches from the state before, and the tracing table
    as it was.  A failure to connect is the failure of the call.  With
    a connection, the pages of the browser are listed; when there are
    none the call throws.  When no target id is asked for, the answer
    is the first page listed and no session is opened.  When a target
    id is asked for, the pages are listed again and probed in order,
    and the answer is the first page that reports that id, trimmed:
    every page before it reported something else; when no page reports
    it, the call throws ["tab not found"]. *)
Theorem getPageForTargetId_returns_listed_page (cdpPort_ : Z)
  (targetId_ : option string) (w : PwWorld) :
  let outcome := getPageForTargetId env cdpPort_ targetId_ w in
  (∃ ls, run ls (session w) = Some (session outcome.2)) ∧
  tracingContexts outcome.2 = tracingContexts w ∧
  match connectBrowser_await env (endpointForCdpPort cdpPort_) w with
  | (Throw e, w1) => outcome = (Throw e, w1)
  | (Return connected, w1) =>
      let listed := PwContexts (browser connected) :: asked w1 in
      let pages := concat (snd <$> contexts_result env listed) in
      let listed_again := PwContexts (browser connected) :: listed in
      let pages_again := concat (snd <$> contexts_result env listed_again) in
      match outcome.1 with
      | Return page =>
          if truthy_opt targetId_ then
            pages ≠ [] ∧
            ∃ trace earlier later,
              asked outcome.2 = rev trace ++ listed_again ∧
              answers env listed_again trace
                (earlier ++ [(page, Some (default "" targetId_))]) ∧
              pages_again = earlier.*1 ++ page :: later ∧
              Forall (λ pt, pt.2 ≠ Some (default "" targetId_)) earlier
          else asked outcome.2 = listed ∧ head pages = Some page
      | Throw e =>
          (pages = [] ∧ asked outcome.2 = listed ∧
           e = Error "No pages available in the connected browser.") ∨
          (pages ≠ [] ∧ truthy_opt targetId_ = true ∧
           e = Error "tab not found" ∧
           ∃ trace probed,
             asked outcome.2 = rev trace ++ listed_again ∧
             answers env listed_again trace probed ∧
             probed.*1 = pages_again ∧
             Forall (λ pt, pt.2 ≠ Some (default "" targetId_)) probed)
      end
  end.
Proof.
  intros outcome.
  destruct (getPageForTargetId_frame cdpPort_ targetId_ w) as [Hloop Htracing].
  split; [exact Hloop|]. split; [exact Htracing|]. clear Hloop Htracing.
  pose proof (getPageForTargetId_unfold cdpPort_ targetId_ w) as Hout.
  destruct (connectBrowser_await env (endpointForCdpPort cdpPort_) w)
    as [[connected|e] w1]; [|exact Hout].
  cbv zeta in Hout |- *. subst outcome.
  set (listed := PwContexts (browser connected) :: asked w1) in *.
  destruct (concat (snd <$> contexts_result env listed)) as [|first pages] eqn:Hpages.
  { rewrite Hout. by left. }
  destruct (truthy_opt targetId_) eqn:Hid.
  - match type of Hout with context [find_page env ?t ?ps ?w2] =>
      destruct (find_page_spec t ps w2)
        as (result & w3 & trace & probed & Hrun & Hs & Htr & Ha & Hp & Hans & Hr)
    end.
    rewrite Hrun in Hout. cbn [asked] in Ha, Hans.
    destruct result as [found|]; rewrite Hout; cbn [fst snd].
    + destruct Hr as (earlier & later & -> & Hlisted & Hearlier & _).
      split; [done|]. by exists trace, earlier, later.
    + destruct Hr as [Hall Hnone]. right.
      split; [done|]. split; [done|]. split; [done|]. by exists trace, probed.
  - by rewrite Hout.
Qed.

End PageLookupFacts.

(** ** Console, network and tracing *)

Section ToolFacts.
Import PwSession ServerContext JsString PageLookup PwTools.

Variable env : PwEnv.

Lemma filter_sublist_mono {A} (p q : A → bool) (l : list A) :
  (∀ x, p x = true → q x = true) →
  List.filter p l `sublist_of` List.filter q l.
Proof.
  intros Hpq. induction l as [|x l IH]; simpl; [done|].
  destruct (p x) eqn:Hp.
  - rewrite (Hpq x Hp). by apply sublist_skip.
  - destruct (q x); [by apply sublist_cons|done].
Qed.

Lemma filter_sublist {A} (p : A → bool) (l : list A) :
  List.filter p l `sublist_of` l.
Proof.
  induction l as [|x l IH]; simpl; [done|].
  destruct (p x); [by apply sublist_skip|by apply sublist_cons].
Qed.

Lemma filter_all {A} (p : A → bool) (l : list A) :
  (∀ x, p x = true) → List.filter p l = l.
Proof.
  intros Hp. induction l as [|x l IH]; simpl; [done|].
  by rewrite Hp, IH.
Qed.

Lemma consolePriority_range level : 0 ≤ consolePriority level ≤ 3.
Proof.
  unfold consolePriority.
  repeat (case_bool_decide; simpl; try lia).
Qed.

(** The recorder stays well-formed along the event loop. *)
Lemma wf_recorder_step_loop l s s' :
  RecorderInv.wf (recorder s) → step l s = Some s' → RecorderInv.wf (recorder s').
Proof.
  intros Hwf Hstep. destruct l; simpl in Hstep.
  - injection Hstep as <-. unfold PwSession.connectBrowser.
    destruct (cached_for endpoint_ s); [done|]. by destruct (connecting s).
  - destruct (attempts s !! a) as [[e []]|]; try done.
    injection Hstep as <-. simpl. by apply wf_observeBrowser.
  - destruct (attempts s !! a) as [[e []]|]; try done.
    by injection Hstep as <-.
  - destruct (attempts s !! a) as [[e []]|]; try done;
      by injection Hstep as <-.
  - injection Hstep as <-.
    by destruct (foldl_on_disconnected b (disconnectedListeners s) s)
      as (_ & _ & _ & _ & -> & _).
  - injection Hstep as <-. unfold closePlaywrightBrowserConnection.
    by destruct (cached s).
  - injection Hstep as <-. simpl. by apply wf_recorder_step.
Qed.

Lemma wf_recorder_run_loop ls s s' :
  RecorderInv.wf (recorder s) → run ls s = Some s' → RecorderInv.wf (recorder s').
Proof.
  revert s. induction ls as [|l ls IH]; intros s Hwf; simpl.
  - by intros [= <-].
  - destruct (step l s) as [s1|] eqn:Hstep; simpl; [|done].
    intros Hrun. eapply IH; [|done]. by eapply wf_recorder_step_loop.
Qed.

(** The ranking of [consolePriority]. *)
Lemma consolePriority_ranking :
  consolePriority "error" = 3 ∧ consolePriority "warning" = 2 ∧
  consolePriority "info" = 1 ∧ consolePriority "log" = 1 ∧
  consolePriority "debug" = 0 ∧
  ∀ word, word ∉ ["error"; "warning"; "info"; "log"; "debug"] →
          consolePriority word = 1.
Proof.
  repeat (split; [reflexivity|]).
  intros word Hword. unfold consolePriority.
  rewrite !not_elem_of_cons in Hword.
  destruct Hword as (? & ? & ? & ? & ? & _).
  by rewrite !bool_decide_eq_false_2 by done.
Qed.

Lemma consolePriority_3 word : consolePriority word = 3 ↔ word = "error".
Proof.
  unfold consolePriority. split; [|by intros ->].
  repeat (case_bool_decide; simpl; try done).
Qed.

Lemma consolePriority_2 word : consolePriority word = 2 ↔ word = "warning".
Proof.
  unfold consolePriority. split; [|by intros ->].
  repeat (case_bool_decide; simpl; try done).
Qed.

Lemma consolePriority_0 word : consolePriority word = 0 ↔ word = "debug".
Proof.
  unfold consolePriority. split; [|by intros ->].
  repeat (case_bool_decide; simpl; try done).
Qed.

(** The messages a level lets through. *)
Lemma console_at_level_elem l msg messages :
  l ≠ "" →
  msg ∈ console_at_level (Some l) messages ↔
  msg ∈ messages ∧ consolePriority l ≤ consolePriority (cm_type msg).
Proof.
  intros Hl. unfold console_at_level. simpl.
  rewrite (truthy_nonempty l Hl). simpl.
  rewrite list_elem_of_In, filter_In, <- list_elem_of_In, Z.leb_le. done.
Qed.

Lemma console_views messages msg :
  (msg ∈ console_at_level (Some "error") messages ↔
   msg ∈ messages ∧ cm_type msg = "error") ∧
  (msg ∈ console_at_level (Some "warning") messages ↔
   msg ∈ messages ∧ (cm_type msg = "error" ∨ cm_type msg = "warning")) ∧
  (∀ l, l ∉ [""; "error"; "warning"; "debug"] →
        msg ∈ console_at_level (Some l) messages ↔
        msg ∈ messages ∧ cm_type msg ≠ "debug").
Proof.
  pose proof (consolePriority_range (cm_type msg)) as Hrange.
  pose proof (consolePriority_3 (cm_type msg)) as H3.
  pose proof (consolePriority_2 (cm_type msg)) as H2.
  pose proof (consolePriority_0 (cm_type msg)) as H0.
  split; [|split].
  - rewrite console_at_level_elem by done.
    change (consolePriority "error") with 3. rewrite <- H3.
    split; (intros [? ?]; split; [done|lia]).
  - rewrite console_at_level_elem by done.
    change (consolePriority "warning") with 2. rewrite <- H3, <- H2.
    split; (intros [? ?]; split; [done|lia]).
  - intros l Hl. rewrite !not_elem_of_cons in Hl.
    destruct Hl as (Hempty & Herror & Hwarning & Hdebug & _).
    rewrite console_at_level_elem by done.
    assert (consolePriority l = 1) as ->.
    { pose proof (consolePriority_range l).
      pose proof (consolePriority_3 l). pose proof (consolePriority_2 l).
      pose proof (consolePriority_0 l).
      destruct (decide (consolePriority l = 3)); [tauto|].
      destruct (decide (consolePriority l = 2)); [tauto|].
      destruct (decide (consolePriority l = 0)); [tauto|]. lia. }
    rewrite <- H0. split; (intros [? ?]; split; [done|lia]).
Qed.

(** X17.  [getConsoleMessagesViaPlaywright] answers with the console
    history of the page found, filtered by level.  Without a level,
    with the empty level and with ["debug"] the answer is the whole
    history; otherwise it is, in order, the messages whose type ranks
    at least as high as the level, so that the answer for a level is a
    sub-list of the answer for any lower level.  If the recorder was
    well-formed before, the answer holds at most 500 messages.  The
    ranks are: error 3, warning 2, info and log 1, debug 0, and every
    other word 1.  So level ["error"] lets through the messages of
    type error and no other, level ["warning"] those of type error or
    warning, and every other level but ["debug"] and the empty one all
    messages but those of type debug. *)
Theorem console_levels_nest (cdpPort_ : Z) (targetId_ level : option string)
  (w : PwWorld) :
  getConsoleMessagesViaPlaywright env cdpPort_ targetId_ level w =
    match getPageForTargetId env cdpPort_ targetId_ w with
    | (Return page, w1) =>
        (Return (console_at_level level
                   (console_of page (recorder (session w1)))),
         touched page w1)
    | (Throw e, w1) => (Throw e, w1)
    end ∧
  (∀ messages,
     console_at_level None messages = messages ∧
     console_at_level (Some "") messages = messages ∧
     console_at_level (Some "debug") messages = messages ∧
     console_at_level level messages `sublist_of` messages ∧
     (∀ l msg, l ≠ "" → msg ∈ console_at_level (Some l) messages →
               consolePriority l ≤ consolePriority (cm_type msg)) ∧
     (∀ l msg, msg ∈ messages →
               consolePriority l ≤ consolePriority (cm_type msg) →
               msg ∈ console_at_level (Some l) messages) ∧
     (∀ lower higher, lower ≠ "" → higher ≠ "" →
        consolePriority lower ≤ consolePriority higher →
        console_at_level (Some higher) messages
          `sublist_of` console_at_level (Some lower) messages)) ∧
  (RecorderInv.wf (recorder (session w)) →
   ∀ messages w', getConsoleMessagesViaPlaywright env cdpPort_ targetId_ level w
                  = (Return messages, w') →
                  (length messages ≤ 500)%nat) ∧
  (consolePriority "error" = 3 ∧ consolePriority "warning" = 2 ∧
   consolePriority "info" = 1 ∧ consolePriority "log" = 1 ∧
   consolePriority "debug" = 0 ∧
   ∀ word, word ∉ ["error"; "warning"; "info"; "log"; "debug"] →
           consolePriority word = 1) ∧
  (∀ messages msg,
     (msg ∈ console_at_level (Some "error") messages ↔
      msg ∈ messages ∧ cm_type msg = "error") ∧
     (msg ∈ console_at_level (Some "warning") messages ↔
      msg ∈ messages ∧ (cm_type msg = "error" ∨ cm_type msg = "warning")) ∧
     (∀ l, l ∉ [""; "error"; "warning"; "debug"] →
           msg ∈ console_at_level (Some l) messages ↔
           msg ∈ messages ∧ cm_type msg ≠ "debug")).
Proof.
  assert (getConsoleMessagesViaPlaywright env cdpPort_ targetId_ level w =
            match getPageForTargetId env cdpPort_ targetId_ w with
            | (Return page, w1) =>
                (Return (console_at_level level
                           (console_of page (recorder (session w1)))),
                 touched page w1)
            | (Throw e, w1) => (Throw e, w1)
            end) as Hrun.
  { unfold getConsoleMessagesViaPlaywright, touch, get_session, set_session,
      mbind, P_bind.
    destruct (getPageForTargetId env cdpPort_ targetId_ w) as [[page|e] w1];
      simpl; [|done].
    unfold console_of, touched.
    by destruct (ensurePageState page (recorder (session w1))). }
  assert (∀ lvl messages, console_at_level lvl messages `sublist_of` messages)
    as Hsub.
  { intros lvl messages. unfold console_at_level.
    destruct (negb (truthy_opt lvl)); [done|apply filter_sublist]. }
  split; [exact Hrun|]. split; [|split; [|split]].
  3: exact consolePriority_ranking.
  3: exact console_views.
  - intros messages. split; [done|]. split; [done|]. split.
    { unfold console_at_level. simpl. apply filter_all. intros msg.
      apply Z.leb_le. apply consolePriority_range. }
    split; [apply Hsub|]. split; [|split].
    + intros l msg Hl Hin. unfold console_at_level in Hin. simpl in Hin.
      rewrite (truthy_nonempty l Hl) in Hin. simpl in Hin.
      apply list_elem_of_In, filter_In in Hin as [_ Hin]. by apply Z.leb_le.
    + intros l msg Hin Hle. unfold console_at_level. simpl.
      destruct (truthy l); simpl; [|done].
      apply list_elem_of_In, filter_In. split; [by apply list_elem_of_In|].
      by apply Z.leb_le.
    + intros lower higher Hlower Hhigher Hle. unfold console_at_level. simpl.
      rewrite (truthy_nonempty lower Hlower), (truthy_nonempty higher Hhigher).
      simpl. apply filter_sublist_mono. intros msg Hm.
      apply Z.leb_le. apply Z.leb_le in Hm. lia.
  - intros Hwf messages w'. rewrite Hrun.
    destruct (getPageForTargetId_frame env cdpPort_ targetId_ w) as [[ls Hls] _].
    destruct (getPageForTargetId env cdpPort_ targetId_ w) as [[page|e] w1];
      [|done].
    simpl in Hls. intros [= <- <-].
    pose proof (wf_recorder_run_loop ls _ _ Hwf Hls) as Hwf1.
    etrans; [apply sublist_length, Hsub|].
    by apply console_of_bounded.
Qed.

(** X18.  [getNetworkRequestsViaPlaywright] answers with the network
    history of the page found.  With [includeStatic] it is the whole
    history; otherwise it is the history, in order, without the
    requests whose resource type is one of image, font, stylesheet and
    media: a request without a resource type always stays.  Filtering
    the answer again changes nothing, and if the recorder was
    well-formed before, the answer holds at most 1000 requests. *)
Theorem network_view_drops_static (cdpPort_ : Z) (targetId_ : option string)
  (includeStatic : option bool) (w : PwWorld) :
  getNetworkRequestsViaPlaywright env cdpPort_ targetId_ includeStatic w =
    match getPageForTargetId env cdpPort_ targetId_ w with
    | (Return page, w1) =>
        (Return (network_view includeStatic
                   (network_of page (recorder (session w1)))),
         touched page w1)
    | (Throw e, w1) => (Throw e, w1)
    end ∧
  (∀ requests,
     network_view (Some true) requests = requests ∧
     network_view includeStatic requests `sublist_of` requests ∧
     network_view None requests = network_view (Some false) requests ∧
     network_view None (network_view None requests)
       = network_view None requests ∧
     (∀ req, req ∈ network_view None requests ↔
             req ∈ requests ∧
             ∀ t, nr_resourceType req = Some t →
                  t ∉ ["image"; "font"; "stylesheet"; "media"])) ∧
  (RecorderInv.wf (recorder (session w)) →
   ∀ requests w',
     getNetworkRequestsViaPlaywright env cdpPort_ targetId_ includeStatic w
       = (Return requests, w') →
     (length requests ≤ 1000)%nat).
Proof.
  assert (getNetworkRequestsViaPlaywright env cdpPort_ targetId_ includeStatic w =
            match getPageForTargetId env cdpPort_ targetId_ w with
            | (Return page, w1) =>
                (Return (network_view includeStatic
                           (network_of page (recorder (session w1)))),
                 touched page w1)
            | (Throw e, w1) => (Throw e, w1)
            end) as Hrun.
  { unfold getNetworkRequestsViaPlaywright, touch, get_session, set_session,
      mbind, P_bind.
    destruct (getPageForTargetId env cdpPort_ targetId_ w) as [[page|e] w1];
      simpl; [|done].
    unfold network_of, touched.
    by destruct (ensurePageState page (recorder (session w1))). }
  assert (∀ flag requests, network_view flag requests `sublist_of` requests)
    as Hsub.
  { intros flag requests. unfold network_view.
    destruct (default false flag); [done|apply filter_sublist]. }
  assert (∀ req, negb (is_static req) = true ↔
                 ∀ t, nr_resourceType req = Some t →
                      t ∉ ["image"; "font"; "stylesheet"; "media"]) as Hkeep.
  { intros req. unfold is_static, STATIC_RESOURCE_TYPES.
    destruct (nr_resourceType req) as [t|]; [|done].
    split.
    - intros Hn t' [= <-] Hin.
      rewrite (bool_decide_eq_true_2 _ Hin), andb_true_r in Hn.
      destruct t; [|done].
      by repeat (apply elem_of_cons in Hin as [?|Hin]; [done|]);
        apply elem_of_nil in Hin.
    - intros Hn. specialize (Hn t eq_refl).
      by rewrite (bool_decide_eq_false_2 _ Hn), andb_false_r. }
  split; [exact Hrun|]. split.
  - intros requests. split; [done|]. split; [apply Hsub|]. split; [done|].
    split.
    + unfold network_view. simpl. induction requests as [|req requests IH];
        simpl; [done|].
      destruct (negb (is_static req)) eqn:Hreq; simpl; [|done].
      by rewrite Hreq, IH.
    + intros req. unfold network_view. simpl.
      rewrite list_elem_of_In, filter_In, <- list_elem_of_In.
      by rewrite Hkeep.
  - intros Hwf requests w'. rewrite Hrun.
    destruct (getPageForTargetId_frame env cdpPort_ targetId_ w) as [[ls Hls] _].
    destruct (getPageForTargetId env cdpPort_ targetId_ w) as [[page|e] w1];
      [|done].
    simpl in Hls. intros [= <- <-].
    pose proof (wf_recorder_run_loop ls _ _ Hwf Hls) as Hwf1.
    etrans; [apply sublist_length, Hsub|].
    by apply network_of_bounded.
Qed.

(** X19.  Tracing is started and stopped once per browser context.
    With the page found: a start for a context that is in the table
    throws before anything is asked of the browser; otherwise
    [tracing.start] is asked, and the context enters the table only
    when that succeeded, so that a refused start can be tried again.
    A stop for a context that is not in the table throws before
    anything is asked; otherwise [tracing.stop] is asked with a fresh
    file path, a failure leaves the context in the table, and on
    success the context leaves the table before the trace file is
    read: the file's content is returned after the file was removed,
    and a failed read leaves the file in place and the context out of
    the table. *)
Theorem tracing_starts_once (cdpPort_ : Z) (targetId_ : option string)
  (w w1 : PwWorld) (page : Page) :
  getPageForTargetId env cdpPort_ targetId_ w = (Return page, w1) →
  let context := context_of env page in
  let w2 := touched page w1 in
  let started := with_asked (PwTracingStart context) w2 in
  let named := with_asked PwTracePath w2 in
  let filePath := trace_path_result env (asked named) in
  let stopped := with_asked (PwTracingStop context filePath) named in
  let read :=
    with_asked (PwReadFile filePath)
      (with_tracing (tracingContexts w ∖ {[context]}) stopped) in
  startTracingViaPlaywright env cdpPort_ targetId_ w =
    (if bool_decide (context ∈ tracingContexts w)
     then (Throw (Error "Tracing already started"), w2)
     else
       match tracing_start_result env (asked started) with
       | Some e => (Throw e, started)
       | None =>
           (Return (),
            with_tracing ({[context]} ∪ tracingContexts w) started)
       end) ∧
  stopTracingViaPlaywright env cdpPort_ targetId_ w =
    (if bool_decide (context ∈ tracingContexts w)
     then
       match tracing_stop_result env (asked stopped) with
       | Some e => (Throw e, stopped)
       | None =>
           match readFile_result env (asked read) with
           | inl e => (Throw e, read)
           | inr buffer => (Return buffer, with_asked (PwRm filePath) read)
           end
       end
     else (Throw (Error "Tracing not started"), w2)).
Proof.
  intros Hpage.
  assert (tracingContexts w1 = tracingContexts w) as Ht.
  { destruct (getPageForTargetId_frame env cdpPort_ targetId_ w) as [_ H].
    by rewrite Hpage in H. }
  destruct w1 as [s1 t1 a1]. simpl in Ht. subst t1.
  intros context w2 started named filePath stopped read.
  subst w2 started named filePath stopped read.
  unfold with_asked, with_tracing, touched. simpl.
  split.
  - unfold startTracingViaPlaywright, touch, get_session, set_session,
      get_tracing, set_tracing, ask, fail, mbind, P_bind.
    rewrite Hpage. simpl. fold context.
    case_bool_decide; [done|]. simpl.
    by destruct (tracing_start_result env _).
  - unfold stopTracingViaPlaywright, touch, get_session, set_session,
      get_tracing, set_tracing, ask, fail, mbind, P_bind.
    rewrite Hpage. simpl. fold context.
    case_bool_decide; [|done]. simpl.
    destruct (tracing_stop_result env _); [done|]. simpl.
    by destruct (readFile_result env _).
Qed.

End ToolFacts.

(** ** The result caches *)

Section WebCacheFacts.
Import WebCache.

Context {T : Type}.

Implicit Types (cache : Cache T) (key : string) (entry : CacheEntry T).

Lemma cache_delete_absent key cache :
  key ∉ cache.*1 → cache_delete key cache = cache.
Proof.
  unfold cache_delete.
  induction cache as [|[k e] cache IH]; simpl; [done|].
  rewrite not_elem_of_cons. intros [Hne Hnot].
  rewrite bool_decide_eq_false_2 by congruence. simpl. by rewrite IH.
Qed.

Lemma cache_delete_head key entry cache :
  key ∉ cache.*1 → cache_delete key ((key, entry) :: cache) = cache.
Proof.
  intros Hnot. unfold cache_delete. simpl.
  rewrite bool_decide_eq_true_2 by done. simpl.
  by apply cache_delete_absent.
Qed.

Lemma cache_delete_keys key cache :
  (cache_delete key cache).*1 `sublist_of` cache.*1 ∧
  key ∉ (cache_delete key cache).*1.
Proof.
  unfold cache_delete.
  induction cache as [|[k e] cache [IH1 IH2]]; simpl.
  - split; [done|]. by intros ?%elem_of_nil.
  - case_bool_decide as Hk; simpl.
    + split; [by apply sublist_cons|done].
    + split; [by apply sublist_skip|].
      rewrite not_elem_of_cons. split; [congruence|done].
Qed.

Lemma existsb_key key cache :
  existsb (λ e, bool_decide (e.1 = key)) cache = bool_decide (key ∈ cache.*1).
Proof.
  induction cache as [|[k e] cache IH].
  - cbn [existsb]. rewrite bool_decide_eq_false_2; [done|].
    by intros ?%elem_of_nil.
  - rewrite fmap_cons. cbn [existsb fst]. rewrite IH.
    destruct (decide (k = key)) as [->|Hk].
    + rewrite (bool_decide_eq_true_2 (key = key)) by done.
      by rewrite (bool_decide_eq_true_2 (key ∈ key :: _)) by by left.
    + rewrite (bool_decide_eq_false_2 (k = key)) by done. cbn [orb].
      apply bool_decide_ext. rewrite elem_of_cons.
      split; [by right|intros [?|?]; [congruence|done]].
Qed.

Lemma cache_set_keys key entry cache :
  (cache_set key entry cache).*1 =
    if bool_decide (key ∈ cache.*1) then cache.*1 else cache.*1 ++ [key].
Proof.
  unfold cache_set. rewrite existsb_key. case_bool_decide.
  - clear. induction cache as [|[k e] cache IH]; [done|].
    cbn [map]. rewrite !fmap_cons, IH. f_equal. by case_bool_decide.
  - by rewrite fmap_app.
Qed.

Lemma cache_get_set key entry cache :
  cache_get (cache_set key entry cache) key = Some entry.
Proof.
  unfold cache_get, cache_set. rewrite existsb_key. case_bool_decide as Hin.
  - induction cache as [|[k e] cache IH]; [by apply elem_of_nil in Hin|].
    simpl. destruct (decide (k = key)) as [->|Hk].
    + rewrite (bool_decide_eq_true_2 (key = key)) by done. simpl.
      by rewrite bool_decide_eq_true_2.
    + rewrite (bool_decide_eq_false_2 (k = key)) by done. simpl.
      rewrite (bool_decide_eq_false_2 (k = key)) by done.
      apply IH. simpl in Hin. apply elem_of_cons in Hin as [?|?]; [congruence|done].
  - induction cache as [|[k e] cache IH]; simpl.
    + by rewrite bool_decide_eq_true_2.
    + simpl in Hin. rewrite not_elem_of_cons in Hin. destruct Hin as [Hne Hnot].
      rewrite bool_decide_eq_false_2 by congruence. by apply IH.
Qed.

Lemma cache_get_set_other key k entry cache :
  k ≠ key → cache_get (cache_set key entry cache) k = cache_get cache k.
Proof.
  intros Hk. unfold cache_get, cache_set.
  destruct (existsb _ cache).
  - induction cache as [|[k' e] cache IH]; simpl; [done|].
    destruct (decide (k' = key)) as [->|Hk'].
    + rewrite (bool_decide_eq_true_2 (key = key)) by done. simpl.
      rewrite !(bool_decide_eq_false_2 (key = k)) by congruence. apply IH.
    + rewrite (bool_decide_eq_false_2 (k' = key)) by done. simpl.
      case_bool_decide; [done|apply IH].
  - induction cache as [|[k' e] cache IH]; simpl.
    + by rewrite bool_decide_eq_false_2 by congruence.
    + case_bool_decide; [done|apply IH].
Qed.

Lemma cache_get_absent key cache :
  key ∉ cache.*1 → cache_get cache key = None.
Proof.
  unfold cache_get. induction cache as [|[k e] cache IH]; simpl; [done|].
  rewrite not_elem_of_cons. intros [Hne Hnot].
  rewrite bool_decide_eq_false_2 by congruence. by apply IH.
Qed.

Lemma cache_get_elem key entry cache :
  cache_get cache key = Some entry → (key, entry) ∈ cache.
Proof.
  unfold cache_get. induction cache as [|[k e] cache IH]; simpl; [done|].
  case_bool_decide as Hk; simpl in *.
  - intros [= <-]. subst k. by left.
  - intros H. right. by apply IH.
Qed.

(** What every cache built by reads and writes satisfies. *)
Lemma cache_step_inv op cache :
  NoDup cache.*1 → (length cache ≤ DEFAULT_CACHE_MAX_ENTRIES)%nat →
  NoDup (cache_step op cache).*1 ∧
  (length (cache_step op cache) ≤ DEFAULT_CACHE_MAX_ENTRIES)%nat.
Proof.
  intros Hnd Hlen.
  assert (∀ k, NoDup (cache_delete k cache).*1 ∧
               (length (cache_delete k cache) ≤ length cache)%nat) as Hdel.
  { intros k. destruct (cache_delete_keys k cache) as [Hsub _]. split.
    - by eapply sublist_NoDup.
    - apply sublist_length in Hsub. by rewrite !length_fmap in Hsub. }
  assert (∀ k (e : CacheEntry T) (c : Cache T), NoDup c.*1 →
            NoDup (cache_set k e c).*1 ∧
            (length (cache_set k e c) ≤ S (length c))%nat ∧
            (k ∈ c.*1 → length (cache_set k e c) = length c)) as Hset.
  { intros k e c Hc.
    pose proof (cache_set_keys k e c) as Hkeys.
    assert (length (cache_set k e c) = length (cache_set k e c).*1) as ->
      by by rewrite length_fmap.
    rewrite Hkeys. case_bool_decide as Hin.
    - rewrite length_fmap. split; [done|]. split; [lia|done].
    - rewrite length_app, length_fmap. simpl. split; [|split; [lia|done]].
      apply NoDup_app. split; [done|]. split; [|apply NoDup_singleton].
      by intros x Hx ->%list_elem_of_singleton. }
  destruct op as [now key|now1 now2 key v ttl]; simpl.
  - unfold readCache. destruct (cache_get cache key) as [entry|]; [|done].
    destruct (_ <? _)%Z; simpl; [|done].
    destruct (Hdel key) as [H1 H2]. split; [done|lia].
  - unfold writeCache. destruct (ttl <=? 0)%Z; [done|]. cbv zeta.
    destruct (Nat.leb_spec DEFAULT_CACHE_MAX_ENTRIES (length cache)) as [Hfull|Hroom].
    + destruct cache as [|[oldest e0] cache]; [simpl in *; unfold DEFAULT_CACHE_MAX_ENTRIES in *; lia|].
      simpl in Hnd. apply NoDup_cons in Hnd as [Hfresh Hnd].
      rewrite cache_delete_head by done.
      destruct (Hset key {| value := v; expiresAt := now1 + ttl; insertedAt := now2 |}
                  cache Hnd) as (H1 & H2 & _).
      split; [done|]. simpl in Hlen. lia.
    + destruct (Hset key {| value := v; expiresAt := now1 + ttl; insertedAt := now2 |}
                  cache Hnd) as (H1 & H2 & _).
      split; [done|]. lia.
Qed.

Lemma cache_run_inv (ops : list (CacheOp (T:=T))) :
  NoDup (cache_run ops []).*1 ∧
  (length (cache_run ops []) ≤ DEFAULT_CACHE_MAX_ENTRIES)%nat.
Proof.
  unfold cache_run.
  assert (∀ cache, NoDup cache.*1 →
            (length cache ≤ DEFAULT_CACHE_MAX_ENTRIES)%nat →
            NoDup (foldl (λ acc op, cache_step op acc) cache ops).*1 ∧
            (length (foldl (λ acc op, cache_step op acc) cache ops)
             ≤ DEFAULT_CACHE_MAX_ENTRIES)%nat) as Hgen.
  { induction ops as [|op ops IH]; intros cache Hnd Hlen; cbn [foldl]; [done|].
    destruct (cache_step_inv op cache Hnd Hlen). by apply IH. }
  apply Hgen; [constructor|]. simpl. unfold DEFAULT_CACHE_MAX_ENTRIES. lia.
Qed.

(** X23.  A cache never holds more than 100 entries, and eviction is
    by age of insertion.  After any sequence of reads and writes,
    starting from the empty cache: no key occurs twice and there are at
    most 100 entries; a write with a positive time to live into a full
    cache drops the entry that was inserted first, whatever was read
    since, and puts the new key last when it was not there; a write
    for a key that is there, into a cache that is not full, replaces
    the entry in place; and a write with a time to live of zero or
    less changes nothing. *)
Theorem cache_bounded_fifo (ops : list (CacheOp (T:=T))) (key : string)
  (v : T) (ttlMs now_expires now_inserted : Z) :
  let cache := cache_run ops [] in
  let entry := {| value := v; expiresAt := now_expires + ttlMs;
                  insertedAt := now_inserted |} in
  let cache' := writeCache now_expires now_inserted cache key v ttlMs in
  NoDup cache.*1 ∧ (length cache ≤ 100)%nat ∧
  (ttlMs ≤ 0 → cache' = cache) ∧
  (0 < ttlMs → length cache = 100%nat →
   ∃ oldest rest,
     cache = oldest :: rest ∧
     cache' = cache_set key entry rest ∧
     (key ∉ rest.*1 → cache' = rest ++ [(key, entry)]) ∧
     (oldest.1 ≠ key → cache_get cache' oldest.1 = None)) ∧
  (0 < ttlMs → (length cache < 100)%nat →
   cache' = cache_set key entry cache ∧
   cache'.*1 = if bool_decide (key ∈ cache.*1) then cache.*1
               else cache.*1 ++ [key]).
Proof.
  intros cache entry cache'.
  destruct (cache_run_inv ops) as [Hnd Hlen]. fold cache in Hnd, Hlen.
  unfold DEFAULT_CACHE_MAX_ENTRIES in Hlen.
  split; [done|]. split; [done|]. split; [|split].
  - intros Httl. unfold cache', writeCache.
    by destruct (Z.leb_spec ttlMs 0); [|lia].
  - intros Httl Hfull. unfold cache', writeCache.
    destruct (Z.leb_spec ttlMs 0); [lia|]. cbv zeta.
    destruct (Nat.leb_spec DEFAULT_CACHE_MAX_ENTRIES (length cache)) as [_|Hroom];
      [|unfold DEFAULT_CACHE_MAX_ENTRIES in Hroom; lia].
    destruct cache as [|[oldest e0] rest] eqn:Hcache; [done|].
    simpl in Hnd. apply NoDup_cons in Hnd as [Hfresh Hnd].
    rewrite cache_delete_head by done.
    exists (oldest, e0), rest. split; [done|]. split; [done|]. split.
    + intros Hnew. unfold cache_set. rewrite existsb_key.
      by rewrite bool_decide_eq_false_2.
    + simpl. intros Hne. rewrite cache_get_set_other by done.
      by apply cache_get_absent.
  - intros Httl Hroom. unfold cache', writeCache.
    destruct (Z.leb_spec ttlMs 0); [lia|]. cbv zeta.
    destruct (Nat.leb_spec DEFAULT_CACHE_MAX_ENTRIES (length cache)) as [Hfull|_];
      [unfold DEFAULT_CACHE_MAX_ENTRIES in Hfull; lia|].
    split; [done|]. apply cache_set_keys.
Qed.

(** X24.  What is written can be read until it expires.  After a
    write with a positive time to live, a read of the key at a time up
    to the expiry (the time of the write plus the time to live) gives
    the value written and leaves the cache alone; a read after the
    expiry gives nothing and removes the entry, so that the key is
    gone.  A read never gives an entry whose expiry has passed, and
    the entries of the other keys are what they were, apart from the
    one a write into a full cache evicts. *)
Theorem cache_read_your_write (cache : Cache T) (key : string) (v : T)
  (ttlMs now_expires now_inserted now : Z) :
  0 < ttlMs →
  let cache' := writeCache now_expires now_inserted cache key v ttlMs in
  (now ≤ now_expires + ttlMs → readCache now cache' key = (Some v, cache')) ∧
  (now_expires + ttlMs < now →
   readCache now cache' key = (None, cache_delete key cache') ∧
   ∀ later, readCache later (cache_delete key cache') key
            = (None, cache_delete key cache')) ∧
  (∀ k found after,
     readCache now cache k = (Some found, after) →
     after = cache ∧
     ∃ entry, (k, entry) ∈ cache ∧ value entry = found ∧ now ≤ expiresAt entry) ∧
  (∀ k, k ≠ key →
        (length cache < 100)%nat ∨ (∃ e rest, cache = e :: rest ∧ e.1 ≠ k) →
        NoDup cache.*1 →
        cache_get cache' k = cache_get cache k).
Proof.
  intros Httl cache'.
  assert (cache_get cache' key
          = Some {| value := v; expiresAt := now_expires + ttlMs;
                    insertedAt := now_inserted |}) as Hget.
  { unfold cache', writeCache. destruct (Z.leb_spec ttlMs 0); [lia|].
    apply cache_get_set. }
  split; [|split; [|split]].
  - intros Hnow. unfold readCache. rewrite Hget. simpl.
    by destruct (Z.ltb_spec (now_expires + ttlMs) now); [lia|].
  - intros Hnow. unfold readCache at 1. rewrite Hget. simpl.
    destruct (Z.ltb_spec (now_expires + ttlMs) now); [|lia].
    split; [done|]. intros later. unfold readCache.
    rewrite cache_get_absent; [done|]. apply cache_delete_keys.
  - intros k found after. unfold readCache.
    destruct (cache_get cache k) as [entry|] eqn:Hk; [|done].
    destruct (Z.ltb_spec (expiresAt entry) now); [done|].
    intros [= <- <-]. split; [done|]. exists entry.
    split; [by apply cache_get_elem|]. split; [done|lia].
  - intros k Hk Hkept Hnd. unfold cache', writeCache.
    destruct (Z.leb_spec ttlMs 0); [lia|]. cbv zeta.
    rewrite cache_get_set_other by done.
    destruct (Nat.leb_spec DEFAULT_CACHE_MAX_ENTRIES (length cache)) as [Hfull|_];
      [|done].
    destruct Hkept as [Hroom|(e & rest & -> & He)];
      [unfold DEFAULT_CACHE_MAX_ENTRIES in Hfull; lia|].
    destruct e as [oldest e0]. simpl in He.
    rewrite fmap_cons in Hnd. apply NoDup_cons in Hnd as [Hfresh Hnd].
    rewrite cache_delete_head by done.
    unfold cache_get. simpl. by rewrite bool_decide_eq_false_2.
Qed.

End WebCacheFacts.

(** ** More properties at concrete worlds *)

Section MoreInstances.
Import PwSession ServerContext OpenTabTrace Scenarios MoreScenarios RecorderViews.

Lemma connection_reused_witness :
  ∃ s3 s4,
    run connected_run initial = Some s3 ∧
    connectBrowser demo_endpoint s3 = (ReturnCached demo_connected, s3) ∧
    connect_calls s3 = 1%nat ∧
    run [LConnect demo_endpoint; LDisconnected 8%nat; LConnect demo_endpoint] s3
      = Some s4 ∧
    connectBrowser demo_endpoint s4 = (ReturnCached demo_connected, s4) ∧
    connect_calls s4 = 1%nat.
Proof.
  destruct (connection_reused initial demo_endpoint 7%nat [] eq_refl eq_refl)
    as (s3 & Hrun & _ & _ & _ & Hcalls & Hagain & _ & Hlater).
  assert (Some s3 = Some Scenarios.demo_pw) as [= ->]
    by (rewrite <- Hrun; reflexivity).
  destruct (Hlater [LConnect demo_endpoint; LDisconnected 8%nat;
                    LConnect demo_endpoint] Scenarios.demo_pw)
    as (_ & Hstill & Hsame); [by repeat constructor|reflexivity|].
  exists Scenarios.demo_pw, Scenarios.demo_pw.
  split; [exact Hrun|]. split; [exact Hagain|]. split; [exact Hcalls|].
  split; [reflexivity|]. split; [exact Hstill|].
  apply Hsame. intros e' Hin.
  apply elem_of_cons in Hin as [[= ->]|Hin]; [reflexivity|].
  apply elem_of_cons in Hin as [[=]|Hin].
  apply elem_of_cons in Hin as [[= ->]|Hin]; [reflexivity|].
  by apply elem_of_nil in Hin.
Defined.

Lemma failed_connection_not_remembered_witness :
  ∃ s3, run [LConnect demo_endpoint; LReject 0%nat (Error "refused");
              LFinally 0%nat] initial = Some s3 ∧
        cached s3 = None ∧
        (connectBrowser demo_endpoint s3).1 = AwaitAttempt 1%nat.
Proof.
  destruct (failed_connection_not_remembered initial demo_endpoint
              (Error "refused") eq_refl eq_refl)
    as (s3 & Hrun & _ & Hcached & _ & _ & _ & Hnext & _).
  exists s3. split; [exact Hrun|]. split; [exact Hcached|exact Hnext].
Defined.

Lemma disconnect_drops_cached_witness :
  ∃ s s', run connected_run initial = Some s ∧
          cached s = Some demo_connected ∧
          step (LDisconnected 7%nat) s = Some s' ∧ cached s' = None.
Proof.
  eexists. 
  destruct (disconnect_drops_cached connected_run _ 7%nat eq_refl)
    as (s' & Hstep & Hcached & _).
  exists s'. split; [reflexivity|]. split; [reflexivity|].
  split; [exact Hstep|exact Hcached].
Defined.

Lemma attempt_in_flight_is_awaited_witness :
  ∃ s, run [LConnect demo_endpoint] initial = Some s ∧
       attempts s !! 0%nat =
         Some {| att_endpoint := demo_endpoint; att_status := Pending |} ∧
       connectBrowser other_endpoint s = (AwaitAttempt 0%nat, s).
Proof.
  eexists. split; [reflexivity|]. split; [reflexivity|].
  apply (attempt_in_flight_is_awaited [LConnect demo_endpoint] _ 0%nat
           {| att_endpoint := demo_endpoint; att_status := Pending |}
           other_endpoint eq_refl eq_refl eq_refl).
Defined.

Lemma close_discards_history_witness :
  let r := recorder_run [EvTouch 1%nat; EvConsole 1%nat demo_message]
             empty_recorder in
  is_Some (pageStates r !! 1%nat) ∧
  console_of 1%nat r = [demo_message] ∧
  console_of 1%nat (recorder_step (EvClose 1%nat) r) = [].
Proof.
  intros r.
  assert (is_Some (pageStates r !! 1%nat)) as Hobs by (vm_compute; eauto).
  split; [exact Hobs|]. split; [reflexivity|].
  destruct (close_discards_history
              [EvTouch 1%nat; EvConsole 1%nat demo_message] 1%nat Hobs)
    as (_ & _ & Hconsole & _).
  exact Hconsole.
Defined.

Lemma failed_request_is_annotated_witness :
  let r := recorder_run [EvTouch 1%nat] empty_recorder in
  is_Some (pageStates r !! 1%nat) ∧
  network_of 1%nat
    (recorder_run [EvRequest 1%nat 0%nat demo_request;
                   EvRequestFailed 1%nat 0%nat (Some "net::ERR_ABORTED")] r)
  = [with_failure (Some "net::ERR_ABORTED") demo_request].
Proof.
  intros r.
  assert (is_Some (pageStates r !! 1%nat)) as Hobs by (vm_compute; eauto).
  split; [exact Hobs|].
  destruct (failed_request_is_annotated [EvTouch 1%nat] 1%nat 0%nat demo_request
              (Some "net::ERR_ABORTED") Hobs) as (Hnetwork & _).
  unfold r. rewrite Hnetwork. reflexivity.
Defined.

Lemma finished_request_is_annotated_witness :
  let r := recorder_run [EvTouch 1%nat] empty_recorder in
  is_Some (pageStates r !! 1%nat) ∧
  ∃ k, network_of 1%nat
         (recorder_run [EvRequest 1%nat 0%nat demo_request;
                        EvRequestFinished 1%nat 0%nat;
                        EvResponse k (Some demo_response)] r)
       = [with_response demo_response demo_request].
Proof.
  intros r.
  assert (is_Some (pageStates r !! 1%nat)) as Hobs by (vm_compute; eauto).
  split; [exact Hobs|].
  destruct (finished_request_is_annotated [EvTouch 1%nat] 1%nat 0%nat demo_request
              Hobs) as (_ & k & sid & ref & _ & _ & Hresumed).
  exists k. destruct (Hresumed (Some demo_response)) as [Hnetwork _].
  exact Hnetwork.
Defined.

Lemma exit_clears_tracked_handle_witness :
  server_state (idle_world false) = Some (demo_state false None) ∧
  ∃ w2 w3,
    ensureBrowserAvailable down_env (idle_world false) = (Return (), w2) ∧
    (running <$> server_state w2) = Some (Some (demo_chrome 101 1)) ∧
    emit_exit 1%nat w2 = (Return (), w3) ∧
    (running <$> server_state w3) = Some None.
Proof.
  split; [reflexivity|].
  destruct (exit_clears_tracked_handle down_env 1%nat (idle_world false))
    as [_ Hlife].
  apply (Hlife (demo_state false None) (demo_chrome 101 1) eq_refl eq_refl
           eq_refl eq_refl).
Defined.

Lemma ensureTabAvailable_opens_nothing_witness :
  let w1 := (ensureBrowserAvailable one_tab_env (idle_world true)).2 in
  let w2 := (listTabs one_tab_env w1).2 in
  ensureBrowserAvailable one_tab_env (idle_world true) = (Return (), w1) ∧
  listTabs one_tab_env w1
    = (Return [demo_tab "abcd1234" (ws_of "abcd1234")], w2) ∧
  (ensureTabAvailable one_tab_env None (idle_world true)).1
    = Return (demo_tab "abcd1234" (ws_of "abcd1234")) ∧
  length (calls (ensureTabAvailable one_tab_env None (idle_world true)).2)
    = 3%nat.
Proof.
  intros w1 w2.
  assert (ensureBrowserAvailable one_tab_env (idle_world true) = (Return (), w1))
    as H1 by reflexivity.
  assert (listTabs one_tab_env w1
          = (Return [demo_tab "abcd1234" (ws_of "abcd1234")], w2))
    as H2 by reflexivity.
  split; [exact H1|]. split; [exact H2|].
  destruct (ensureTabAvailable_opens_nothing one_tab_env None (idle_world true)
              w1 w2 _ _ H1 H2) as (s & Hs & Hw3 & Hcalls & Hresult).
  split.
  - rewrite Hresult. reflexivity.
  - rewrite Hw3, Hcalls. reflexivity.
Defined.

Lemma pages_of_observed_contexts_witness :
  let r := recorder_run [EvObserveBrowser [(0%nat, [1%nat])]] empty_recorder in
  0%nat ∈ observedContexts r ∧
  console_of 2%nat
    (recorder_run [EvContextPage 0%nat 2%nat; EvConsole 2%nat demo_message] r)
  = [demo_message].
Proof.
  intros r.
  assert (0%nat ∈ observedContexts r) as Hc.
  { apply (bool_decide_unpack (0%nat ∈ observedContexts r)). vm_compute. exact I. }
  split; [exact Hc|].
  destruct (pages_of_observed_contexts [EvObserveBrowser [(0%nat, [1%nat])]])
    as (_ & Hpage & _).
  destruct (Hpage 0%nat 2%nat demo_message Hc) as [_ Hconsole].
  unfold r. rewrite Hconsole. reflexivity.
Defined.

Lemma close_does_not_cancel_attempt_witness :
  ∃ s s3,
    run [LConnect demo_endpoint] initial = Some s ∧
    run [LClose; LFulfil 0%nat 7%nat []; LFinally 0%nat] s = Some s3 ∧
    cached s3 = Some demo_connected ∧ closeCalls s3 = [].
Proof.
  destruct (close_does_not_cancel_attempt
              (connectBrowser demo_endpoint initial).2 0%nat demo_endpoint
              7%nat [] eq_refl) as (s3 & Hrun & Hcached & _ & Hclose & _).
  { simpl. by intros ?%elem_of_nil. }
  exists (connectBrowser demo_endpoint initial).2, s3.
  split; [reflexivity|].
  split; [exact Hrun|]. split; [exact Hcached|exact Hclose].
Defined.

Lemma listTabs_drops_unidentified_witness :
  ∃ w', listTabs one_tab_env (idle_world true)
          = (Return [demo_tab "abcd1234" (ws_of "abcd1234")], w') ∧
        Forall (λ t, targetId t ≠ "") [demo_tab "abcd1234" (ws_of "abcd1234")].
Proof.
  eexists.
  assert (listTabs one_tab_env (idle_world true)
          = (Return [demo_tab "abcd1234" (ws_of "abcd1234")],
             (listTabs one_tab_env (idle_world true)).2)) as Hlist
    by reflexivity.
  split; [exact Hlist|].
  destruct (listTabs_drops_unidentified one_tab_env _ _ _ Hlist)
    as (s & res & ts & _ & _ & _ & _ & _ & _ & _ & Hids & _).
  exact Hids.
Defined.

Lemma tab_routes_resolve_witness :
  server_state (idle_world true) = Some (demo_state true None) ∧
  (Routes.post_tabs_focus one_tab_env "abcd" (idle_world true)).1
    = Return (Routes.Json Routes.OkTrue) ∧
  (Routes.delete_tab one_tab_env "zzz" (idle_world true)).1
    = Return (Routes.JsonError 404 "tab not found").
Proof.
  split; [reflexivity|].
  pose proof (tab_routes_resolve one_tab_env "abcd" (idle_world true)
                (demo_state true None) eq_refl ltac:(done) eq_refl) as H1.
  pose proof (tab_routes_resolve one_tab_env "zzz" (idle_world true)
                (demo_state true None) eq_refl ltac:(done) eq_refl) as H2.
  vm_compute in H1. vm_compute in H2.
  destruct H1 as [H1 _]. destruct H2 as [_ H2].
  split; [exact (f_equal fst H1)|exact (f_equal fst H2)].
Defined.

Lemma routes_without_browser_witness :
  server_state (world_of None initial) = None ∧
  Routes.get_status tabless_env (world_of None initial)
    = (Return (Routes.JsonError 503 "browser server not started"),
       world_of None initial) ∧
  Routes.post_start tabless_env (world_of None initial)
    = (Return (Routes.JsonError 500 "Error: Browser server not started"),
       world_of None initial) ∧
  server_state (idle_world true) = Some (demo_state true None) ∧
  (Routes.post_tabs_focus down_env "abcd" (idle_world true)).1
    = Return (Routes.JsonError 409 "browser not running").
Proof.
  split; [reflexivity|].
  destruct (routes_without_browser tabless_env (world_of None initial))
    as (_ & _ & _ & _ & Hidle & _).
  destruct (Hidle eq_refl) as (Hstatus & Hstart & _).
  split; [exact Hstatus|]. split; [exact Hstart|].
  split; [reflexivity|].
  destruct (routes_without_browser down_env (idle_world true))
    as (_ & _ & _ & _ & _ & Hdown).
  destruct (Hdown (demo_state true None) eq_refl eq_refl) as (_ & _ & Htabs).
  destruct (Htabs "abcd" ltac:(done)) as [Hfocus _].
  exact (f_equal fst Hfocus).
Defined.

End MoreInstances.

Section CacheInstances.
Import WebCache.

Lemma cache_bounded_fifo_witness :
  writeCache 0 0 (cache_run [CacheWrite 0 0 "q" 7%nat 1000] []) "r" 8%nat 0
  = [("q", {| value := 7%nat; expiresAt := 1000; insertedAt := 0 |})].
Proof.
  destruct (cache_bounded_fifo [CacheWrite 0 0 "q" 7%nat 1000] "r" 8%nat 0 0 0)
    as (_ & _ & Hnothing & _).
  rewrite Hnothing; [reflexivity|lia].
Defined.

Lemma cache_read_your_write_witness :
  readCache 1005 (writeCache 5 5 [] "q" 7%nat 1000) "q"
    = (Some 7%nat, writeCache 5 5 [] "q" 7%nat 1000) ∧
  readCache 1006 (writeCache 5 5 [] "q" 7%nat 1000) "q" = (None, []).
Proof.
  split.
  - destruct (cache_read_your_write [] "q" 7%nat 1000 5 5 1005 ltac:(lia))
      as (Hfresh & _).
    apply Hfresh. lia.
  - destruct (cache_read_your_write [] "q" 7%nat 1000 5 5 1006 ltac:(lia))
      as (_ & Hstale & _).
    destruct Hstale as [Hread _]; [lia|]. rewrite Hread. reflexivity.
Defined.

End CacheInstances.

Section ToolInstances.
Import PwSession ServerContext JsString PageLookup PwTools Scenarios
  ToolScenarios.

Lemma findPageByTargetId_probes_witness :
  ∃ w' trace earlier,
    findPageByTargetId (demo_pw_env None None) 7%nat "BBB" fresh_pw_world
      = (Return (Some 2%nat), w') ∧
    asked w' = rev trace ++ [PwContexts 7%nat] ∧
    answers (demo_pw_env None None) [PwContexts 7%nat] trace
      (earlier ++ [(2%nat, Some "BBB")]) ∧
    Forall (λ pt, pt.2 ≠ Some "BBB") earlier.
Proof.
  destruct (findPageByTargetId_probes (demo_pw_env None None) 7%nat "BBB"
              fresh_pw_world)
    as (result & w' & trace & probed & Hrun & _ & _ & Hasked & _ & Hans & Hr).
  assert (fst (findPageByTargetId (demo_pw_env None None) 7%nat "BBB"
                 fresh_pw_world) = Return (Some 2%nat)) as Hfound
    by (vm_compute; reflexivity).
  rewrite Hrun in Hfound. injection Hfound as ->.
  destruct Hr as (earlier & later & -> & _ & Hearlier & _).
  by exists w', trace, earlier.
Defined.

Lemma getPageForTargetId_returns_listed_page_witness :
  ∃ w' trace earlier,
    getPageForTargetId (demo_pw_env None None) 18792 (Some "BBB") fresh_pw_world
      = (Return 2%nat, w') ∧
    tracingContexts w' = ∅ ∧
    asked w' =
      rev trace ++ [PwContexts 7%nat; PwContexts 7%nat; PwContexts 7%nat;
                    PwConnect "http://127.0.0.1:18792"] ∧
    answers (demo_pw_env None None)
      [PwContexts 7%nat; PwContexts 7%nat; PwContexts 7%nat;
       PwConnect "http://127.0.0.1:18792"]
      trace (earlier ++ [(2%nat, Some "BBB")]) ∧
    Forall (λ pt, pt.2 ≠ Some "BBB") earlier.
Proof.
  pose proof (getPageForTargetId_returns_listed_page (demo_pw_env None None)
                18792 (Some "BBB") fresh_pw_world) as (_ & Ht & Hmatch).
  assert (connectBrowser_await (demo_pw_env None None)
            (endpointForCdpPort 18792) fresh_pw_world
          = (Return demo_connected,
             (connectBrowser_await (demo_pw_env None None)
                (endpointForCdpPort 18792) fresh_pw_world).2)) as Hconn
    by (vm_compute; reflexivity).
  assert (asked (connectBrowser_await (demo_pw_env None None)
                   (endpointForCdpPort 18792) fresh_pw_world).2
          = [PwContexts 7%nat; PwConnect "http://127.0.0.1:18792"]) as Hasked
    by (vm_compute; reflexivity).
  assert (getPageForTargetId (demo_pw_env None None) 18792 (Some "BBB")
            fresh_pw_world
          = (Return 2%nat,
             (getPageForTargetId (demo_pw_env None None) 18792 (Some "BBB")
                fresh_pw_world).2)) as Hpage by (vm_compute; reflexivity).
  rewrite Hconn in Hmatch. cbv zeta in Hmatch. rewrite Hasked in Hmatch.
  rewrite Hpage in Hmatch. cbn [fst snd truthy_opt truthy default browser demo_connected]
    in Hmatch.
  destruct Hmatch as (_ & trace & earlier & later & Ha & Hans & _ & Hearlier).
  unfold id in Hans, Hearlier.
  eexists _, trace, earlier. split; [exact Hpage|]. split; [exact Ht|].
  split; [exact Ha|]. split; [exact Hans|exact Hearlier].
Defined.

Lemma console_levels_nest_witness :
  console_at_level (Some "error") [demo_message; error_message]
    `sublist_of` console_at_level (Some "warning") [demo_message; error_message] ∧
  ∃ messages w',
    getConsoleMessagesViaPlaywright (demo_pw_env None None) 18792 None None
      fresh_pw_world = (Return messages, w') ∧
    (length messages ≤ 500)%nat.
Proof.
  destruct (console_levels_nest (demo_pw_env None None) 18792 None None
              fresh_pw_world) as (_ & Hpure & Hbound & _).
  split.
  - destruct (Hpure [demo_message; error_message]) as (_ & _ & _ & _ & _ & _ & Hnest).
    apply (Hnest "warning" "error"); [done|done|].
    vm_compute. by intros [=].
  - eexists _, _.
    assert (getConsoleMessagesViaPlaywright (demo_pw_env None None) 18792 None
              None fresh_pw_world
            = (Return [],
               (getConsoleMessagesViaPlaywright (demo_pw_env None None) 18792
                  None None fresh_pw_world).2)) as Hrun
      by (vm_compute; reflexivity).
    split; [exact Hrun|]. exact (Hbound wf_empty _ _ Hrun).
Defined.

Lemma network_view_drops_static_witness :
  ∃ requests w',
    getNetworkRequestsViaPlaywright (demo_pw_env None None) 18792 None None
      fresh_pw_world = (Return requests, w') ∧
    (length requests ≤ 1000)%nat.
Proof.
  destruct (network_view_drops_static (demo_pw_env None None) 18792 None None
              fresh_pw_world) as (_ & _ & Hbound).
  eexists _, _.
  assert (getNetworkRequestsViaPlaywright (demo_pw_env None None) 18792 None
            None fresh_pw_world
          = (Return [],
             (getNetworkRequestsViaPlaywright (demo_pw_env None None) 18792
                None None fresh_pw_world).2)) as Hrun
    by (vm_compute; reflexivity).
  split; [exact Hrun|]. exact (Hbound wf_empty _ _ Hrun).
Defined.

Lemma tracing_starts_once_witness :
  ∃ w1 w2,
    getPageForTargetId (demo_pw_env None None) 18792 None fresh_pw_world
      = (Return 1%nat, w1) ∧
    startTracingViaPlaywright (demo_pw_env None None) 18792 None fresh_pw_world
      = (Return (), w2) ∧
    tracingContexts w2 = {[0%nat]} ∪ ∅.
Proof.
  eexists _, _.
  assert (getPageForTargetId (demo_pw_env None None) 18792 None fresh_pw_world
          = (Return 1%nat,
             (getPageForTargetId (demo_pw_env None None) 18792 None
                fresh_pw_world).2)) as Hpage by (vm_compute; reflexivity).
  destruct (tracing_starts_once (demo_pw_env None None) 18792 None fresh_pw_world
              _ 1%nat Hpage) as [Hstart _].
  split; [exact Hpage|]. split; [exact Hstart|]. reflexivity.
Defined.

End ToolInstances.
